(** * Fulfillment orchestration and resilience layer: a shallow embedding

    The development follows the Python sources of the platform:

    - [Orders]    : services/orders/app/api/routes.py and
                    services/orders/app/application/service.py
    - [Shipments] : services/shipments/app/application/service.py
    - [Dashboard] : services/dashboard/main.py (the saga endpoints
                    [update_order_status], [process_payment], and
                    [add_activity])
    - [Admin]     : services/dashboard/main.py ([get_activity],
                    [delete_order], [get_admin_notifications])
    - [Health]    : services/dashboard/main.py ([fetch_metrics])
    - [Gateway]   : services/gateway/app/main.py (the two-tier cache and
                    [proxy])

    Conventions.  Status values are Python [str], so they are strings here.
    An [Optional[str]] field is an [option string].  A handler that raises
    [HTTPException] answers with that status code, so a handler returns a
    [Response].  A table keyed by its primary key is a [gmap Z row]; a table
    read with [query.all()] in insertion order is a list of rows. *)

From stdpp Require Import gmap strings list fin_maps pretty.
From Stdlib Require Import ZArith QArith Qminmax Lia Lqa Ascii.

Open Scope Z_scope.
Open Scope string_scope.

(** ** HTTP responses shared by the services *)

Inductive Response (A : Type) : Type :=
| Ok (status_code : Z) (body : A)
| HTTPException (status_code : Z) (detail : string).
Arguments Ok {A} status_code body.
Arguments HTTPException {A} status_code detail.

Definition status_code_of {A} (r : Response A) : Z :=
  match r with
  | Ok c _ => c
  | HTTPException c _ => c
  end.

(** Python truthiness of an [Optional[str]]: [None] and [''] are falsy. *)
Definition truthy (s : option string) : bool :=
  match s with
  | Some s' => negb (String.eqb s' "")
  | None => false
  end.

Definition is_not_None {A} (o : option A) : bool :=
  match o with Some _ => true | None => false end.

(** [x in [...]] on strings. *)
Definition str_in (s : string) (l : list string) : bool :=
  existsb (String.eqb s) l.

(** ** The orders service *)

Module Orders.

(** The columns of [Order] that [update_order], [delete_order] and
    [get_order] read or write.  [order_number], [order_total],
    [created_at], the customer snapshots and the items are carried by the
    row untouched and are not represented. *)
Record Order : Type := mkOrder {
  id : Z;
  customer_id : Z;
  order_status : string;
  payment_status : string;
  payment_id : option string;
  receipt_id : option string;
}.

(** [OrderUpdate] of schemas.py: four optional fields, all defaulting
    to [None]. *)
Record OrderUpdate : Type := mkOrderUpdate {
  upd_order_status : option string;
  upd_payment_status : option string;
  upd_payment_id : option string;
  upd_receipt_id : option string;
}.

Definition db := gmap Z Order.

(** [OrderService.get] *)
Definition get (order_id : Z) (d : gmap Z Order) : option Order :=
  d !! order_id.

(** [OrderService.update]: only the provided fields are written. *)
Definition apply_update (data : OrderUpdate) (order : Order) : Order :=
  {| id := id order;
     customer_id := customer_id order;
     order_status :=
       match upd_order_status data with
       | Some s => s | None => order_status order end;
     payment_status :=
       match upd_payment_status data with
       | Some s => s | None => payment_status order end;
     payment_id :=
       match upd_payment_id data with
       | Some s => Some s | None => payment_id order end;
     receipt_id :=
       match upd_receipt_id data with
       | Some s => Some s | None => receipt_id order end |}.

Definition update (order_id : Z) (data : OrderUpdate) (d : gmap Z Order)
  : option Order * gmap Z Order :=
  match get order_id d with
  | None => (None, d)
  | Some order =>
      let order' := apply_update data order in
      (Some order', <[order_id := order']> d)
  end.

Definition touching_payment_fields (payload : OrderUpdate) : bool :=
  is_not_None (upd_payment_status payload)
  || is_not_None (upd_payment_id payload)
  || is_not_None (upd_receipt_id payload).

Definition payment_finalized (order : Order) : bool :=
  str_in (payment_status order) ["COMPLETED"; "FAILED"].

Definition detail_update_forbidden : string :=
  "Cannot modify payment fields after payment has been completed or failed".
Definition detail_delete_forbidden : string :=
  "Cannot delete order after payment has been completed or failed".

(** [GET /orders/{order_id}] *)
Definition get_order (order_id : Z) (d : gmap Z Order) : Response Order :=
  match get order_id d with
  | None => HTTPException 404 "Order not found"
  | Some order => Ok 200 order
  end.

(** [PUT /orders/{order_id}] *)
Definition update_order (order_id : Z) (payload : OrderUpdate)
    (d : gmap Z Order) : Response Order * gmap Z Order :=
  match d !! order_id with
  | None => (HTTPException 404 "Order not found", d)
  | Some order =>
      if payment_finalized order && touching_payment_fields payload
      then (HTTPException 403 detail_update_forbidden, d)
      else
        match update order_id payload d with
        | (Some order', d') => (Ok 200 order', d')
        | (None, d') => (HTTPException 500 "Internal Server Error", d')
        end
  end.

(** [DELETE /orders/{order_id}]: the 204 answer has no body. *)
Definition delete_order (order_id : Z) (d : gmap Z Order)
  : Response unit * gmap Z Order :=
  match d !! order_id with
  | None => (HTTPException 404 "Order not found", d)
  | Some order =>
      if payment_finalized order
      then (HTTPException 403 detail_delete_forbidden, d)
      else (Ok 204 tt, delete order_id d)
  end.

End Orders.

(** ** Clock values

    [datetime.utcnow()] is read from the world's clock, a count of seconds.
    [isoformat] stands for [datetime.isoformat()]: the rendering is the
    decimal count of seconds, which like the ISO-8601 text is never the empty
    string and determines the instant. *)
Definition isoformat (now : Z) : string := pretty now.

(** [f"TRK{order_id}{int(now.timestamp())}"] *)
Definition tracking_number (order_id now : Z) : string :=
  "TRK" +:+ pretty order_id +:+ pretty now.

(** ** The shipments service *)

Module Shipments.

Record Shipment : Type := mkShipment {
  id : Z;
  order_id : Z;
  carrier : string;
  status : string;
  tracking_no : string;
  shipped_at : string;
  delivered_at : option string;
}.

(** [ShipmentCreate] of schemas.py.  Fields of the request body that the
    schema does not declare are ignored by the parser. *)
Record ShipmentCreate : Type := mkShipmentCreate {
  new_order_id : Z;
  new_carrier : option string;
  new_status : option string;
  new_tracking_no : option string;
  new_shipped_at : option string;
  new_delivered_at : option string;
}.

(** [ShipmentUpdate] of routes.py; [None] is a field that the request
    does not set ([exclude_unset]). *)
Record ShipmentUpdate : Type := mkShipmentUpdate {
  upd_status : option string;
  upd_carrier : option string;
  upd_tracking_no : option string;
  upd_delivered_at : option string;
}.

(** The table in insertion order and the next autoincrement key. *)
Record db : Type := mkDb {
  rows : list Shipment;
  next_id : Z;
}.

(** [x or default] on an optional string. *)
Definition or_default (x : option string) (default : string) : string :=
  match x with
  | Some s => if String.eqb s "" then default else s
  | None => default
  end.

(** [ShipmentService.list] *)
Definition list_all (d : db) : list Shipment := rows d.

(** [ShipmentService.create]: no check on the order, none on an existing
    shipment of the same order. *)
Definition create (now : Z) (data : ShipmentCreate) (d : db)
  : Shipment * db :=
  let now_iso := isoformat now in
  let obj :=
    {| id := next_id d;
       order_id := new_order_id data;
       carrier := or_default (new_carrier data) "Standard Delivery";
       status := or_default (new_status data) "PENDING";
       tracking_no :=
         or_default (new_tracking_no data)
                    (tracking_number (new_order_id data) now);
       shipped_at := or_default (new_shipped_at data) now_iso;
       delivered_at := new_delivered_at data |} in
  (obj, {| rows := rows d ++ [obj]; next_id := next_id d + 1 |}).

Definition set_fields (data : ShipmentUpdate) (s : Shipment) : Shipment :=
  {| id := id s;
     order_id := order_id s;
     carrier := default (carrier s) (upd_carrier data);
     status := default (status s) (upd_status data);
     tracking_no := default (tracking_no s) (upd_tracking_no data);
     shipped_at := shipped_at s;
     delivered_at :=
       match upd_delivered_at data with
       | Some t => Some t
       | None => delivered_at s
       end |}.

Definition find_by_id (shipment_id : Z) (d : db) : option Shipment :=
  List.find (fun s => Z.eqb (id s) shipment_id) (rows d).

Definition replace_row (s' : Shipment) (l : list Shipment) : list Shipment :=
  List.map (fun s => if Z.eqb (id s) (id s') then s' else s) l.

(** [ShipmentService.update] *)
Definition update (shipment_id : Z) (data : ShipmentUpdate) (d : db)
  : Response Shipment * db :=
  match find_by_id shipment_id d with
  | None => (HTTPException 404 "Shipment not found", d)
  | Some shipment =>
      let shipment' := set_fields data shipment in
      (Ok 200 shipment',
       {| rows := replace_row shipment' (rows d); next_id := next_id d |})
  end.

(** [POST /shipments/] answers 201. *)
Definition create_shipment (now : Z) (payload : ShipmentCreate) (d : db)
  : Response Shipment * db :=
  let '(obj, d') := create now payload d in (Ok 201 obj, d').

(** [GET /shipments/] *)
Definition list_shipments (d : db) : Response (list Shipment) :=
  Ok 200 (list_all d).

End Shipments.

(** ** The customers service, as far as the saga reads it *)

Module Customers.

Record Customer : Type := mkCustomer {
  id : Z;
  address_street : string;
  address_city : string;
  address_state : string;
  address_zip : string;
  address_country : string;
}.

(** [GET /customers/] without query parameters: [skip = 0], [limit = 100],
    no name filter. *)
Definition list_customers (d : list Customer) : Response (list Customer) :=
  Ok 200 (take 100 d).

End Customers.

(** ** The dashboard: the world the saga runs in

    The endpoints run in a state-and-exception monad over a [World]: the
    tables of the three services the saga talks to, the activity feed and
    log, a clock, the fates of the downstream requests to come and the log of
    the requests issued.  What the endpoints [print] is not represented. *)

Module Dashboard.

(** The authenticated caller ([get_current_user]). *)
Record User : Type := mkUser {
  username : string;
  role : string;
}.

(** [UserRole.ADMIN] *)
Definition ADMIN : string := "admin".
Definition GUEST : string := "guest".

Record Activity : Type := mkActivity {
  timestamp : string;
  action : string;
  entity_type : string;
  entity_id : string;
  user : string;
  details : option string;
}.

Record Address : Type := mkAddress {
  street : string;
  city : string;
  state : string;
  zip_code : string;
  country : string;
}.

(** The JSON body the dashboard posts to [/shipments/].  The [items] the
    dashboard copies from the order are not represented: the shipments
    schema drops them, like [customer_id] and [shipping_address]. *)
Record ShipmentData : Type := mkShipmentData {
  sd_order_id : Z;
  sd_customer_id : Z;
  sd_shipping_address : Address;
  sd_status : string;
  sd_carrier : option string;
  sd_tracking_no : option string;
  sd_shipped_at : option string;
}.

(** The JSON body the dashboard puts to [/shipments/{id}]. *)
Record ShipmentPatch : Type := mkShipmentPatch {
  sp_status : option string;
  sp_tracking_no : option string;
  sp_carrier : option string;
  sp_shipped_at : option string;
  sp_delivered_at : option string;
}.

(** What the shipments service parses out of these bodies. *)
Definition to_ShipmentCreate (b : ShipmentData) : Shipments.ShipmentCreate :=
  {| Shipments.new_order_id := sd_order_id b;
     Shipments.new_carrier := sd_carrier b;
     Shipments.new_status := Some (sd_status b);
     Shipments.new_tracking_no := sd_tracking_no b;
     Shipments.new_shipped_at := sd_shipped_at b;
     Shipments.new_delivered_at := None |}.

Definition to_ShipmentUpdate (b : ShipmentPatch) : Shipments.ShipmentUpdate :=
  {| Shipments.upd_status := sp_status b;
     Shipments.upd_carrier := sp_carrier b;
     Shipments.upd_tracking_no := sp_tracking_no b;
     Shipments.upd_delivered_at := sp_delivered_at b |}.

(** A downstream request issued through [httpx.AsyncClient]. *)
Inductive Call : Type :=
| PUT_order (order_id : Z) (body : Orders.OrderUpdate)
| GET_order (order_id : Z)
| GET_shipments
| GET_customers
| POST_shipment (body : ShipmentData)
| PUT_shipment (shipment_id : Z) (body : ShipmentPatch).

(** What happens to a downstream request on its way: it is served, the
    client raises (connection error, timeout, ...), or the service answers
    500 or 503 without running its handler. *)
Inductive Fault : Type :=
| NoFault
| Raises (msg : string)
| ServerError
| Unavailable.

Record World : Type := mkWorld {
  orders_db : gmap Z Orders.Order;
  shipments_db : Shipments.db;
  customers_db : list Customers.Customer;
  recent_activity : list Activity;   (* in-memory feed, newest first *)
  activity_logs : list Activity;     (* durable table, oldest first *)
  audit_db_up : bool;                (* can [engine.begin()] succeed? *)
  clock : Z;
  faults : list Fault;               (* fate of the next requests *)
  calls : list Call;                 (* requests issued, oldest first *)
}.

Definition set_orders_db (d : gmap Z Orders.Order) (w : World) : World :=
  mkWorld d (shipments_db w) (customers_db w) (recent_activity w)
          (activity_logs w) (audit_db_up w) (clock w) (faults w) (calls w).
Definition set_shipments_db (d : Shipments.db) (w : World) : World :=
  mkWorld (orders_db w) d (customers_db w) (recent_activity w)
          (activity_logs w) (audit_db_up w) (clock w) (faults w) (calls w).
Definition set_activity (feed logs : list Activity) (w : World) : World :=
  mkWorld (orders_db w) (shipments_db w) (customers_db w) feed
          logs (audit_db_up w) (clock w) (faults w) (calls w).
Definition set_faults (fs : list Fault) (w : World) : World :=
  mkWorld (orders_db w) (shipments_db w) (customers_db w) (recent_activity w)
          (activity_logs w) (audit_db_up w) (clock w) fs (calls w).
Definition log_call (c : Call) (w : World) : World :=
  mkWorld (orders_db w) (shipments_db w) (customers_db w) (recent_activity w)
          (activity_logs w) (audit_db_up w) (clock w) (faults w)
          (calls w ++ [c]).

(** *** Exceptions and the state-and-exception monad *)

Inductive Exc : Type :=
| HTTPExc (status_code : Z) (detail : string)   (* fastapi.HTTPException *)
| Exception (msg : string).                     (* any other Exception *)

(** [str(e)] *)
Definition str_exc (e : Exc) : string :=
  match e with
  | HTTPExc c d => pretty c +:+ ": " +:+ d
  | Exception m => m
  end.

Inductive Result (A : Type) : Type :=
| Returned (a : A)
| Raised (e : Exc).
Arguments Returned {A} a.
Arguments Raised {A} e.

(** A write that happened before an exception stays in the world. *)
Definition M (A : Type) : Type := World -> Result A * World.

Definition ret {A} (a : A) : M A := fun w => (Returned a, w).
Definition raise {A} (e : Exc) : M A := fun w => (Raised e, w).
Definition bind {A B} (m : M A) (k : A -> M B) : M B :=
  fun w =>
    match m w with
    | (Returned a, w') => k a w'
    | (Raised e, w') => (Raised e, w')
    end.
(** [try: m except Exception as e: h e] *)
Definition try_except {A} (m : M A) (h : Exc -> M A) : M A :=
  fun w =>
    match m w with
    | (Returned a, w') => (Returned a, w')
    | (Raised e, w') => h e w'
    end.

Notation "'let*' x ':=' m 'in' k" := (bind m (fun x => k))
  (at level 10, x name, m at level 100, k at level 200).

(** [datetime.utcnow()] *)
Definition utcnow : M Z := fun w => (Returned (clock w), w).

(** The fate of the next request: an exhausted script means no fault. *)
Definition next_fault (w : World) : Fault :=
  match faults w with
  | [] => NoFault
  | f :: _ => f
  end.

(** The world once request [c] has left the client. *)
Definition sent (c : Call) (w : World) : World :=
  set_faults (tail (faults w)) (log_call c w).

(** A request: it is logged, meets its fate, and if it gets through the
    service handler runs on the world. *)
Definition request {A} (c : Call) (serve : World -> Response A * World)
  : M (Response A) :=
  fun w =>
    match next_fault w with
    | NoFault => let '(r, w') := serve (sent c w) in (Returned r, w')
    | Raises msg => (Raised (Exception msg), sent c w)
    | ServerError =>
        (Returned (HTTPException 500 "Internal Server Error"), sent c w)
    | Unavailable =>
        (Returned (HTTPException 503 "Service Unavailable"), sent c w)
    end.

Definition serve_PUT_order (order_id : Z) (body : Orders.OrderUpdate)
    (w : World) : Response Orders.Order * World :=
  let '(r, d) := Orders.update_order order_id body (orders_db w) in
  (r, set_orders_db d w).
Definition serve_GET_order (order_id : Z) (w : World)
  : Response Orders.Order * World :=
  (Orders.get_order order_id (orders_db w), w).
Definition serve_GET_shipments (w : World)
  : Response (list Shipments.Shipment) * World :=
  (Shipments.list_shipments (shipments_db w), w).
Definition serve_GET_customers (w : World)
  : Response (list Customers.Customer) * World :=
  (Customers.list_customers (customers_db w), w).
Definition serve_POST_shipment (body : ShipmentData) (w : World)
  : Response Shipments.Shipment * World :=
  let '(r, d) :=
    Shipments.create_shipment (clock w) (to_ShipmentCreate body)
                              (shipments_db w) in
  (r, set_shipments_db d w).
Definition serve_PUT_shipment (shipment_id : Z) (body : ShipmentPatch)
    (w : World) : Response Shipments.Shipment * World :=
  let '(r, d) :=
    Shipments.update shipment_id (to_ShipmentUpdate body) (shipments_db w) in
  (r, set_shipments_db d w).

(** [client.put(f"{SERVICES['orders']}/orders/{order_id}", json=body)]
    and its siblings. *)
Definition put_order (order_id : Z) (body : Orders.OrderUpdate) :=
  request (PUT_order order_id body) (serve_PUT_order order_id body).
Definition get_order (order_id : Z) :=
  request (GET_order order_id) (serve_GET_order order_id).
Definition get_shipments :=
  request GET_shipments serve_GET_shipments.
Definition get_customers :=
  request GET_customers serve_GET_customers.
Definition post_shipment (body : ShipmentData) :=
  request (POST_shipment body) (serve_POST_shipment body).
Definition put_shipment (shipment_id : Z) (body : ShipmentPatch) :=
  request (PUT_shipment shipment_id body)
          (serve_PUT_shipment shipment_id body).

(** [resp.json() if resp.status_code == expected].  An [HTTPException]
    answer carries an error status in every handler and fault above, so it
    never has the expected 200 or 201. *)
Definition json_if {A} (expected : Z) (r : Response A) : option A :=
  match r with
  | Ok c b => if Z.eqb c expected then Some b else None
  | HTTPException _ _ => None
  end.

(** [add_activity]: newest first in the feed, which keeps 50 entries; the
    durable insert is wrapped in [try/except], so nothing is raised. *)
Definition add_activity (action entity_type entity_id user : string)
    (details : option string) : M unit :=
  fun w =>
    let activity :=
      {| timestamp := isoformat (clock w) +:+ "Z";
         action := action;
         entity_type := entity_type;
         entity_id := entity_id;
         user := user;
         details := details |} in
    let feed := activity :: recent_activity w in
    let feed' := if (50 <? length feed)%nat then removelast feed else feed in
    let logs :=
      if audit_db_up w then (activity_logs w ++ [activity])%list
      else activity_logs w in
    (Returned tt, set_activity feed' logs w).


(** *** The response envelope: a JSON object, keys in insertion order *)

Inductive JSON : Type :=
| JBool (b : bool)
| JString (s : string)
| JOrder (o : Orders.Order).

Definition Envelope : Type := list (string * JSON).

Fixpoint get (key : string) (e : Envelope) : option JSON :=
  match e with
  | [] => None
  | (k, v) :: e' => if String.eqb k key then Some v else get key e'
  end.

(** [f"{x}"] of an optional string *)
Definition fmt (o : option string) : string :=
  match o with Some s => s | None => "None" end.

Definition opt_is (o : option string) (s : string) : bool :=
  match o with Some s' => String.eqb s' s | None => false end.

Definition fallback_address : Address :=
  {| street := "Address Not Provided"; city := "N/A"; state := "N/A";
     zip_code := "00000"; country := "USA" |}.

(** [if customer and customer.get('address_street'): ... else: ...] *)
Definition shipping_address_of (customer : option Customers.Customer)
  : Address :=
  match customer with
  | Some c =>
      if negb (String.eqb (Customers.address_street c) "")
      then {| street := Customers.address_street c;
              city := Customers.address_city c;
              state := Customers.address_state c;
              zip_code := Customers.address_zip c;
              country := Customers.address_country c |}
      else fallback_address
  | None => fallback_address
  end.

(** [next((c for c in customers if c['id'] == customer_id), None)] after
    [GET /customers/] *)
Definition find_customer (customer_id : Z)
    (customer_resp : Response (list Customers.Customer))
  : option Customers.Customer :=
  match json_if 200 customer_resp with
  | Some customers =>
      List.find (fun c => Z.eqb (Customers.id c) customer_id) customers
  | None => None
  end.

(** *** [update_order_status] *)

(** The [order_status == 'SHIPPED'] branch, entered with the shipment found
    for the order, if any. *)
Definition ship (order_id : Z) (user : User)
    (order_shipment : option Shipments.Shipment) : M unit :=
  let* order_resp := get_order order_id in
  match json_if 200 order_resp with
  | None => ret tt
  | Some order =>
      let payment_status := Orders.payment_status order in
      (* Rule: Only create/update shipment if payment is COMPLETED *)
      if negb (String.eqb payment_status "COMPLETED") then ret tt
      else
        match order_shipment with
        | None =>
            let customer_id := Orders.customer_id order in
            let* customer_resp := get_customers in
            let customer := find_customer customer_id customer_resp in
            let shipping_address := shipping_address_of customer in
            let* now := utcnow in
            let shipment_data :=
              {| sd_order_id := order_id;
                 sd_customer_id := customer_id;
                 sd_shipping_address := shipping_address;
                 sd_status := "IN_TRANSIT";
                 sd_carrier := Some "Standard Delivery";
                 sd_tracking_no := Some (tracking_number order_id now);
                 sd_shipped_at := Some (isoformat now) |} in
            let* shipment_resp := post_shipment shipment_data in
            match json_if 201 shipment_resp with
            | Some shipment =>
                add_activity "CREATE" "shipment"
                  (pretty (Shipments.id shipment)) (username user)
                  (Some ("Shipment created for order #" +:+ pretty order_id))
            | None => ret tt
            end
        | Some s =>
            let* now := utcnow in
            let update_payload :=
              {| sp_status := Some "IN_TRANSIT";
                 sp_tracking_no :=
                   if String.eqb (Shipments.tracking_no s) ""
                   then Some (tracking_number order_id now) else None;
                 sp_carrier :=
                   if String.eqb (Shipments.carrier s) ""
                   then Some "Standard Delivery" else None;
                 sp_shipped_at :=
                   if String.eqb (Shipments.shipped_at s) ""
                   then Some (isoformat now) else None;
                 sp_delivered_at := None |} in
            let* _ := put_shipment (Shipments.id s) update_payload in
            add_activity "UPDATE" "shipment" (pretty (Shipments.id s))
              (username user)
              (Some ("Shipment moved to IN_TRANSIT for order #"
                     +:+ pretty order_id))
        end
  end.

Definition cancel_patch : ShipmentPatch :=
  {| sp_status := Some "CANCELLED"; sp_tracking_no := None;
     sp_carrier := None; sp_shipped_at := None; sp_delivered_at := None |}.

(** The block under [# Handle shipment based on order status]. *)
Definition handle_shipment (order_id : Z) (order_status : option string)
    (user : User) : M unit :=
  let* shipments_resp := get_shipments in
  let shipments :=
    match json_if 200 shipments_resp with Some l => l | None => [] end in
  let order_shipment :=
    List.find (fun s => Z.eqb (Shipments.order_id s) order_id) shipments in
  if opt_is order_status "SHIPPED" then ship order_id user order_shipment
  else
    match order_shipment with
    | None => ret tt
    | Some s =>
        if opt_is order_status "DELIVERED" then
          if str_in (Shipments.status s) ["IN_TRANSIT"; "PENDING"] then
            let* delivery_time := utcnow in
            let* _ :=
              put_shipment (Shipments.id s)
                {| sp_status := Some "DELIVERED"; sp_tracking_no := None;
                   sp_carrier := None; sp_shipped_at := None;
                   sp_delivered_at := Some (isoformat delivery_time) |} in
            add_activity "UPDATE" "shipment" (pretty (Shipments.id s))
              (username user)
              (Some ("Shipment delivered for order #" +:+ pretty order_id))
          else ret tt
        else if opt_is order_status "UNDELIVERED" then
          let* _ := put_shipment (Shipments.id s) cancel_patch in
          add_activity "UPDATE" "shipment" (pretty (Shipments.id s))
            (username user)
            (Some ("Shipment cancelled (undelivered) for order #"
                   +:+ pretty order_id))
        else if opt_is order_status "CANCELLED" then
          let* _ := put_shipment (Shipments.id s) cancel_patch in
          add_activity "UPDATE" "shipment" (pretty (Shipments.id s))
            (username user)
            (Some ("Shipment cancelled for order #" +:+ pretty order_id))
        else ret tt
    end.

(** [PUT /api/orders/{order_id}/status] *)
Definition update_order_status (order_id : Z)
    (status_data : Orders.OrderUpdate) (user : User) : M Envelope :=
  if negb (String.eqb (role user) ADMIN)
  then raise (HTTPExc 403 "Admin access required")
  else
    try_except
      ((* Update the order status through orders service *)
       let* response := put_order order_id status_data in
       match json_if 200 response with
       | Some order =>
           let order_status := Orders.upd_order_status status_data in
           let* _ :=
             try_except (handle_shipment order_id order_status user)
                        (fun shipment_error => ret tt) in
           let* _ :=
             add_activity "UPDATE" "order" (pretty order_id) (username user)
               (Some ("Updated order status to " +:+ fmt order_status)) in
           ret [("success", JBool true);
                ("message", JString "Order status updated");
                ("data", JOrder order)]
       | None =>
           ret [("success", JBool false);
                ("error",
                 JString ("Failed to update order: HTTP "
                          +:+ pretty (status_code_of response)))]
       end)
      (fun e => ret [("success", JBool false);
                     ("error", JString (str_exc e))]).

(** *** [process_payment] *)

(** [payment_action]: the keys the endpoint reads, [None] when absent or
    null. *)
Record PaymentAction : Type := mkPaymentAction {
  pa_action : option string;
  pa_payment_id : option string;
  pa_receipt_id : option string;
}.

Definition keep_if_truthy (o : option string) : option string :=
  if truthy o then o else None.

(** The [if action == 'approve':] branch; it returns the message. *)
Definition approve (order_id : Z) (payment_action : PaymentAction)
    (user : User) : M string :=
  let message := "Payment approved for order #" +:+ pretty order_id in
  let* order_resp := get_order order_id in
  match json_if 200 order_resp with
  | None => ret message
  | Some order =>
      let customer_id := Orders.customer_id order in
      let update_data :=
        {| Orders.upd_order_status := Some "PROCESSING";
           Orders.upd_payment_status := Some "COMPLETED";
           Orders.upd_payment_id :=
             keep_if_truthy (pa_payment_id payment_action);
           Orders.upd_receipt_id :=
             keep_if_truthy (pa_receipt_id payment_action) |} in
      (* a status other than 200 only prints a warning *)
      let* update_resp := put_order order_id update_data in
      let* customer_resp := get_customers in
      let customer := find_customer customer_id customer_resp in
      let shipping_address := shipping_address_of customer in
      let shipment_data :=
        {| sd_order_id := order_id;
           sd_customer_id := customer_id;
           sd_shipping_address := shipping_address;
           sd_status := "PENDING";
           sd_carrier := None;
           sd_tracking_no := None;
           sd_shipped_at := None |} in
      let* shipment_resp := post_shipment shipment_data in
      match json_if 201 shipment_resp with
      | Some shipment =>
          let* _ :=
            add_activity "CREATE" "shipment"
              (pretty (Shipments.id shipment)) (username user)
              (Some ("Shipment created for order #" +:+ pretty order_id)) in
          ret (message +:+ " | Shipment #"
               +:+ pretty (Shipments.id shipment) +:+ " created")
      | None => ret message
      end
  end.

(** The [else:] branch. *)
Definition decline (order_id : Z) : M string :=
  let message := "Payment declined for order #" +:+ pretty order_id in
  let* update_resp :=
    put_order order_id
      {| Orders.upd_order_status := Some "CANCELLED";
         Orders.upd_payment_status := Some "FAILED";
         Orders.upd_payment_id := None;
         Orders.upd_receipt_id := None |} in
  ret message.

(** [POST /api/orders/{order_id}/payment] *)
Definition process_payment (order_id : Z) (payment_action : PaymentAction)
    (user : User) : M Envelope :=
  if negb (String.eqb (role user) ADMIN)
  then raise (HTTPExc 403 "Admin access required")
  else
    let action := pa_action payment_action in
    try_except
      (let approved := opt_is action "approve" in
       let payment_status := if approved then "COMPLETED" else "FAILED" in
       let order_status := if approved then "PROCESSING" else "CANCELLED" in
       let* message :=
         if approved then approve order_id payment_action user
         else decline order_id in
       let* _ :=
         add_activity "PAYMENT" "order" (pretty order_id) (username user)
                      (Some message) in
       ret [("success", JBool true);
            ("message", JString message);
            ("payment_status", JString payment_status);
            ("order_status", JString order_status)])
      (fun e =>
         let* _ :=
           add_activity "PAYMENT" "order" (pretty order_id) (username user)
                        (Some ("Payment error: " +:+ str_exc e)) in
         ret [("success", JBool false);
              ("error", JString (str_exc e))]).

(** *** Specifications of monadic code

    [hoare P m Q]: started in a world that satisfies [P], [m] ends with a
    result and a world that satisfy [Q]; this is total, [m] is a function. *)
Definition hoare {A} (P : World -> Prop) (m : M A)
    (Q : Result A -> World -> Prop) : Prop :=
  forall w, P w -> Q (m w).1 (m w).2.

(** An invariant of the world that a computation keeps, however it ends. *)
Definition keeps {A} (I : World -> Prop) (m : M A) : Prop :=
  hoare I m (fun _ w => I w).

(** The body of [PUT /api/orders/{order_id}/status] for an order-status
    change: [{"order_status": new_status}]. *)
Definition status_change (new_status : string) : Orders.OrderUpdate :=
  {| Orders.upd_order_status := Some new_status;
     Orders.upd_payment_status := None;
     Orders.upd_payment_id := None;
     Orders.upd_receipt_id := None |}.

(** Both tables are as given. *)
Definition frozen (D : gmap Z Orders.Order) (S : Shipments.db) (w : World)
  : Prop :=
  orders_db w = D /\ shipments_db w = S.

(** A request that writes an order. *)
Definition is_order_write (c : Call) : bool :=
  match c with
  | PUT_order _ _ => true
  | _ => false
  end.

(** A request that writes a shipment. *)
Definition is_shipment_write (c : Call) : bool :=
  match c with
  | POST_shipment _ | PUT_shipment _ _ => true
  | _ => false
  end.

(** The requests issued so far are [T] followed by requests that write no
    order. *)
Definition extends (T : list Call) (w : World) : Prop :=
  exists rest,
    calls w = (T ++ rest)%list
    /\ Forall (fun c => is_order_write c = false) rest.

(** An envelope [{success, message|error, ...}]. *)
Definition structured (e : Envelope) : Prop :=
  (exists b, get "success" e = Some (JBool b))
  /\ ((exists m, get "message" e = Some (JString m))
      \/ (exists m, get "error" e = Some (JString m))).

(** The shipments of an order. *)
Definition shipments_of (order_id : Z) (w : World)
  : list Shipments.Shipment :=
  List.filter (fun s => Z.eqb (Shipments.order_id s) order_id)
              (Shipments.rows (shipments_db w)).

(** The payment status of an order, [None] for no such order. *)
Definition payment_status_of (order_id : Z) (w : World) : option string :=
  Orders.payment_status <$> orders_db w !! order_id.
Definition order_status_of (order_id : Z) (w : World) : option string :=
  Orders.order_status <$> orders_db w !! order_id.

End Dashboard.

(** ** The health monitor of the dashboard ([fetch_metrics])

    Seconds are finite Python floats, each given by the rational it denotes.
    Comparisons, [min] and [max] of floats are exact.  A sum, a product or a
    quotient of floats is rounded, and the conversion of an [int] operand may
    be: these four operations are those of the arithmetic [fl], about which
    the definitions assume nothing.  The database totals that [fetch_metrics]
    also collects do not touch the per-service state and are not
    represented. *)

Module Health.

Open Scope Q_scope.

(** The floating-point operations of the interpreter.  A product that
    overflows is +infinity in the source; any value above BACKOFF_MAX_SEC
    stands for it here, [min] cutting the one and the other down to
    BACKOFF_MAX_SEC. *)
Record Float64 : Type := mkFloat64 {
  fadd : Q -> Q -> Q;                 (* [x + y] *)
  fmul : Q -> Q -> Q;                 (* [x * y] *)
  fdiv : Q -> Q -> Q;                 (* [x / y] *)
  of_int : Z -> Q;                    (* an [int] operand, as a float *)
}.

(** The operations where no rounding happens. *)
Definition exact : Float64 :=
  {| fadd := Qplus; fmul := Qmult; fdiv := Qdiv; of_int := inject_Z |}.

(** The environment values behind the module constants. *)
Record Config : Type := mkConfig {
  DASHBOARD_POLL_INTERVAL_SEC : Q;    (* default 2.0 *)
  DASHBOARD_BACKOFF_FACTOR : Q;       (* default 2.0 *)
  DASHBOARD_BACKOFF_MAX_SEC : Q;      (* default 30.0 *)
  DASHBOARD_BACKOFF_JITTER_MS : Z;    (* default 250, after [int(...)] *)
}.

Definition POLL_INTERVAL_SEC (cfg : Config) : Q :=
  Qmax (1 # 2) (DASHBOARD_POLL_INTERVAL_SEC cfg).
Definition BACKOFF_FACTOR (cfg : Config) : Q :=
  DASHBOARD_BACKOFF_FACTOR cfg.
Definition BACKOFF_MAX_SEC (cfg : Config) : Q :=
  Qmax (POLL_INTERVAL_SEC cfg) (DASHBOARD_BACKOFF_MAX_SEC cfg).
Definition BACKOFF_JITTER_MS (cfg : Config) : Z :=
  DASHBOARD_BACKOFF_JITTER_MS cfg.

Record ServiceState : Type := mkServiceState {
  last_status : option string;
  last_response_time_ms : option Z;
  last_version : option string;
  last_releaseId : option string;
  backoff_sec : Q;
  next_check_at : Q;
}.

(** The value [SERVICE_STATE] is initialised with, and the default of
    [SERVICE_STATE.setdefault]. *)
Definition initial_state (cfg : Config) : ServiceState :=
  {| last_status := None;
     last_response_time_ms := None;
     last_version := None;
     last_releaseId := None;
     backoff_sec := POLL_INTERVAL_SEC cfg;
     next_check_at := 0 |}.

(** [state["backoff_sec"] = backoff] *)
Definition set_backoff_sec (backoff : Q) (state : ServiceState)
  : ServiceState :=
  {| last_status := last_status state;
     last_response_time_ms := last_response_time_ms state;
     last_version := last_version state;
     last_releaseId := last_releaseId state;
     backoff_sec := backoff;
     next_check_at := next_check_at state |}.

(** What [health_resp.json()] gives. *)
Inductive HealthBody : Type :=
| JsonDict (version releaseId : option string)
| JsonOther
| NotJson.

(** The fate of [client.get(f"{url}/health")]. *)
Inductive Probe : Type :=
| Responded (status_code : Z) (elapsed_ms : Z) (body : HealthBody)
| ConnectError
| TimeoutException
| OtherException (msg : string).

(** An entry of [metrics["services"]]; a key the entry does not have is
    [None]. *)
Record Report : Type := mkReport {
  status : string;
  response_time_ms : option Z;
  version : option string;
  releaseId : option string;
  error : option string;
}.

(** [min(BACKOFF_MAX_SEC, max(POLL_INTERVAL_SEC,
    state["backoff_sec"] * BACKOFF_FACTOR))] *)
Definition backoff_after_failure (fl : Float64) (cfg : Config) (backoff : Q)
  : Q :=
  Qmin (BACKOFF_MAX_SEC cfg)
       (Qmax (POLL_INTERVAL_SEC cfg) (fmul fl backoff (BACKOFF_FACTOR cfg))).

(** [random.randint(a, b)]: [ValueError] when the range is empty, else a
    value of the range, picked here by the state [seed] of the generator. *)
Definition randint (a b seed : Z) : option Z :=
  if (b <? a)%Z then None else Some (a + seed mod (b - a + 1))%Z.

(** [random.randint(-BACKOFF_JITTER_MS, BACKOFF_JITTER_MS) / 1000.0] *)
Definition jitter (fl : Float64) (cfg : Config) (seed : Z) : option Q :=
  match randint (- BACKOFF_JITTER_MS cfg) (BACKOFF_JITTER_MS cfg) seed with
  | Some n => Some (fdiv fl (of_int fl n) 1000)
  | None => None
  end.

(** [now + max(0.5, state["backoff_sec"] + jitter)] *)
Definition schedule (fl : Float64) (now backoff jitter : Q) : Q :=
  fadd fl now (Qmax (1 # 2) (fadd fl backoff jitter)).

(** [state["last_status"] or "unknown"] *)
Definition or_unknown (s : option string) : string :=
  match s with
  | Some s' => if String.eqb s' "" then "unknown" else s'
  | None => "unknown"
  end.

Definition reuse (state : ServiceState) : Report :=
  {| status := or_unknown (last_status state);
     response_time_ms := last_response_time_ms state;
     version := last_version state;
     releaseId := last_releaseId state;
     error := None |}.

Definition error_report (msg : string) : Report :=
  {| status := "error"; response_time_ms := None; version := None;
     releaseId := None; error := Some msg |}.

(** How one loop iteration that probes ends: with an entry of
    [metrics["services"]], or with the [ValueError] of [random.randint], which
    no handler of the iteration catches and which leaves [fetch_metrics].  The
    state is the one the iteration leaves in [SERVICE_STATE]. *)
Inductive Outcome : Type :=
| Checked (state' : ServiceState) (report : Report)
| ValueError (state' : ServiceState).

Definition state_after (outcome : Outcome) : ServiceState :=
  match outcome with
  | Checked state' _ => state'
  | ValueError state' => state'
  end.

(** The [try: ... except ...] of one loop iteration, entered when the
    backoff window has elapsed.  Every branch writes [backoff_sec] before it
    calls [random.randint].  In the [try] block the [ValueError] of
    [random.randint] is caught by [except Exception], which raises the backoff
    once more before its own [random.randint] raises; raised in a handler, it
    is caught by nothing. *)
Definition probe_service (fl : Float64) (cfg : Config) (now : Q)
    (probe : Probe) (seed : Z) (state : ServiceState) : Outcome :=
  match probe with
  | Responded code resp_ms body =>
      let status_ok := Z.eqb code 200 in
      let '(version_val, release_id) :=
        match body with
        | JsonDict v r => (v, r)
        | JsonOther => (None, None)
        | NotJson => (None, None)
        end in
      let report :=
        {| status := if status_ok then "healthy" else "unhealthy";
           response_time_ms := Some resp_ms;
           version := version_val;
           releaseId := release_id;
           error := None |} in
      let backoff :=
        if status_ok then POLL_INTERVAL_SEC cfg
        else backoff_after_failure fl cfg (backoff_sec state) in
      match jitter fl cfg seed with
      | Some jitter =>
          Checked
            {| last_status := Some (status report);
               last_response_time_ms := Some resp_ms;
               last_version := version_val;
               last_releaseId := release_id;
               backoff_sec := backoff;
               next_check_at := schedule fl now backoff jitter |}
            report
      | None =>
          ValueError
            (set_backoff_sec (backoff_after_failure fl cfg backoff) state)
      end
  | ConnectError =>
      let backoff := backoff_after_failure fl cfg (backoff_sec state) in
      match jitter fl cfg seed with
      | Some jitter =>
          Checked
            {| last_status := Some "error";
               last_response_time_ms := None;
               last_version := None;
               last_releaseId := None;
               backoff_sec := backoff;
               next_check_at := schedule fl now backoff jitter |}
            (error_report "Connection failed")
      | None => ValueError (set_backoff_sec backoff state)
      end
  | TimeoutException =>
      let backoff := backoff_after_failure fl cfg (backoff_sec state) in
      match jitter fl cfg seed with
      | Some jitter =>
          Checked
            {| last_status := Some "error";
               last_response_time_ms := None;
               last_version := None;
               last_releaseId := last_releaseId state;
               backoff_sec := backoff;
               next_check_at := schedule fl now backoff jitter |}
            (error_report "Timeout")
      | None => ValueError (set_backoff_sec backoff state)
      end
  | OtherException msg =>
      let backoff := backoff_after_failure fl cfg (backoff_sec state) in
      match jitter fl cfg seed with
      | Some jitter =>
          Checked
            {| last_status := Some "error";
               last_response_time_ms := None;
               last_version := None;
               last_releaseId := last_releaseId state;
               backoff_sec := backoff;
               next_check_at := schedule fl now backoff jitter |}
            (error_report (String.substring 0 50 msg))
      | None => ValueError (set_backoff_sec backoff state)
      end
  end.

(** Did the probe count as a success ([status_ok])? *)
Definition status_ok (probe : Probe) : bool :=
  match probe with
  | Responded code _ _ => Z.eqb code 200
  | _ => false
  end.

(** [now < state["next_check_at"]] *)
Definition in_backoff_window (now : Q) (state : ServiceState) : bool :=
  match now ?= next_check_at state with
  | Lt => true
  | _ => false
  end.

(** The monitor: the shared [SERVICE_STATE] and the services a probe was
    sent to, oldest first. *)
Record Monitor : Type := mkMonitor {
  SERVICE_STATE : gmap string ServiceState;
  probes : list string;
}.

(** The network and the random generator as the loop meets them: every
    service is visited at most once in a call of [fetch_metrics]. *)
Record Env : Type := mkEnv {
  health_of : string -> Probe;     (* by url *)
  seed_of : string -> Z;           (* by service *)
}.

(** [SERVICE_STATE.setdefault(service, {...})] *)
Definition setdefault (cfg : Config) (service : string) (mon : Monitor)
  : ServiceState :=
  default (initial_state cfg) (SERVICE_STATE mon !! service).

(** [for service, url in SERVICES.items()], from the entries still to
    visit; [None] when an iteration raised, which ends the loop and the
    call. *)
Fixpoint check_services (fl : Float64) (cfg : Config) (env : Env) (now : Q)
    (entries : list (string * string)) (metrics : gmap string Report)
    (mon : Monitor) : option (gmap string Report) * Monitor :=
  match entries with
  | [] => (Some metrics, mon)
  | (service, url) :: rest =>
      let state := setdefault cfg service mon in
      if in_backoff_window now state then
        check_services fl cfg env now rest
          (<[service := reuse state]> metrics)
          {| SERVICE_STATE := <[service := state]> (SERVICE_STATE mon);
             probes := probes mon |}
      else
        match probe_service fl cfg now (health_of env url)
                            (seed_of env service) state with
        | Checked state' report =>
            check_services fl cfg env now rest
              (<[service := report]> metrics)
              {| SERVICE_STATE := <[service := state']> (SERVICE_STATE mon);
                 probes := probes mon ++ [service] |}
        | ValueError state' =>
            (None,
             {| SERVICE_STATE := <[service := state']> (SERVICE_STATE mon);
                probes := probes mon ++ [service] |})
        end
  end.

(** [fetch_metrics], the part under [# Check each service with per-service
    backoff].  [SERVICES] is a dict: its entries in insertion order, a
    service name occurring once.  The first component is
    [metrics["services"]], or [None] when the call raised. *)
Definition fetch_metrics (fl : Float64) (cfg : Config)
    (SERVICES : list (string * string)) (env : Env) (now : Q) (mon : Monitor)
  : option (gmap string Report) * Monitor :=
  check_services fl cfg env now SERVICES ∅ mon.

(** A probe that does not count as healthy: the client raised, or the
    answer has a status other than 200 (every non-2xx status among them). *)
Definition failed (probe : Probe) : Prop :=
  match probe with
  | Responded code _ _ => code <> 200%Z
  | ConnectError | TimeoutException | OtherException _ => True
  end.

(** The states a service goes through: it starts in [initial_state] and
    changes only when it is probed. *)
Inductive reachable (fl : Float64) (cfg : Config) : ServiceState -> Prop :=
| reachable_initial : reachable fl cfg (initial_state cfg)
| reachable_probe (now : Q) (probe : Probe) (seed : Z)
    (state : ServiceState) :
    reachable fl cfg state ->
    reachable fl cfg (state_after (probe_service fl cfg now probe seed state)).

(** [SERVICE_STATE] as the module creates it. *)
Definition initial_monitor (cfg : Config) (SERVICES : list (string * string))
  : Monitor :=
  {| SERVICE_STATE :=
       list_to_map ((fun entry => (entry.1, initial_state cfg)) <$> SERVICES);
     probes := [] |}.

(** The monitors a process goes through: [SERVICE_STATE] changes only in
    [fetch_metrics], whether the call returns or raises. *)
Inductive reachable_monitor (fl : Float64) (cfg : Config)
    (SERVICES : list (string * string)) : Monitor -> Prop :=
| reachable_monitor_initial :
    reachable_monitor fl cfg SERVICES (initial_monitor cfg SERVICES)
| reachable_monitor_call (env : Env) (now : Q) (mon : Monitor) :
    reachable_monitor fl cfg SERVICES mon ->
    reachable_monitor fl cfg SERVICES
      (fetch_metrics fl cfg SERVICES env now mon).2.

(** Where the backoff of a tracked service lives: between the poll interval
    and the maximum, and at the poll interval when the factor is below 1. *)
Definition within_bounds (cfg : Config) (backoff : Q) : Prop :=
  POLL_INTERVAL_SEC cfg <= backoff
  /\ backoff <= BACKOFF_MAX_SEC cfg
  /\ (BACKOFF_FACTOR cfg < 1 -> backoff == POLL_INTERVAL_SEC cfg).

(** What rounding to nearest gives for the product of a float that is not
    negative: multiplied by a factor of at least 1 it does not fall, by a
    smaller factor it does not grow. *)
Definition rounds_monotonically (fl : Float64) : Prop :=
  (forall b f, 0 <= b -> 1 <= f -> b <= fmul fl b f)
  /\ (forall b f, 0 <= b -> f < 1 -> fmul fl b f <= b).

(** No check was ever scheduled: every [next_check_at] is as initialised. *)
Definition never_scheduled (mon : Monitor) : Prop :=
  forall service state,
    SERVICE_STATE mon !! service = Some state -> next_check_at state = 0.

(** The default configuration. *)
Definition default_config : Config :=
  {| DASHBOARD_POLL_INTERVAL_SEC := 2;
     DASHBOARD_BACKOFF_FACTOR := 2;
     DASHBOARD_BACKOFF_MAX_SEC := 30;
     DASHBOARD_BACKOFF_JITTER_MS := 250 |}.

(** The requests of this call of [fetch_metrics]: the monitor [mon'] after
    the call sent no probe to [service] beyond those of [mon]. *)
Definition not_probed (service : string) (mon mon' : Monitor) : Prop :=
  exists sent_now,
    probes mon' = (probes mon ++ sent_now)%list /\ service ∉ sent_now.

End Health.

(** ** The gateway: two-tier cache and [proxy]

    A cached payload is the JSON text of a response body as [json.dumps]
    renders it, so the body [null], which is Python's [None], is the text
    null.  Expiry by TTL and eviction at capacity only ever remove entries on
    their own schedule and are not represented.  Paths and keys are ASCII
    strings. *)

Module Gateway.

Definition SERVICE_MAP : gmap string string :=
  list_to_map
    [("customers", "http://customers:8000");
     ("products", "http://products:8000");
     ("inventory", "http://inventory:8000");
     ("orders", "http://orders:8000");
     ("payments", "http://payments:8000");
     ("shipments", "http://shipments:8000")].

(** The shared tier behind [redis_client]: when it is not reachable every
    operation on it raises, and every caller swallows that. *)
Record Redis : Type := mkRedis {
  store : gmap string string;
  reachable : bool;
}.

Record Cache : Type := mkCache {
  redis_client : option Redis;        (* [None]: the startup ping failed *)
  local_cache : gmap string string;
}.

(** [cache_get] *)
Definition cache_get (key : string) (c : Cache) : option string :=
  match redis_client c with
  | Some r =>
      if reachable r then
        match store r !! key with
        | Some val => Some val
        | None => local_cache c !! key
        end
      else local_cache c !! key
  | None => local_cache c !! key
  end.

(** [cache_set] *)
Definition cache_set (key value : string) (c : Cache) : Cache :=
  match redis_client c with
  | Some r =>
      if reachable r then
        {| redis_client :=
             Some {| store := <[key := value]> (store r);
                     reachable := true |};
           local_cache := local_cache c |}
      else
        {| redis_client := redis_client c;
           local_cache := <[key := value]> (local_cache c) |}
  | None =>
      {| redis_client := None;
         local_cache := <[key := value]> (local_cache c) |}
  end.

(** Drop the keys that start with [prefix]. *)
Definition purge (prefix : string) (m : gmap string string)
  : gmap string string :=
  filter (fun kv => String.prefix prefix kv.1 = false) m.

(** One round of the loop of [cache_delete_pattern].  The prefixes built by
    [_invalidate_caches] hold no glob metacharacter, so
    [scan_iter(match=f"{prefix}*")] selects the keys that start with the
    prefix. *)
Definition delete_prefix (c : Cache) (prefix : string) : Cache :=
  {| redis_client :=
       match redis_client c with
       | Some r =>
           if reachable r
           then Some {| store := purge prefix (store r);
                        reachable := true |}
           else Some r
       | None => None
       end;
     local_cache := purge prefix (local_cache c) |}.

(** [cache_delete_pattern] *)
Definition cache_delete_pattern (patterns : list string) (c : Cache)
  : Cache :=
  fold_left delete_prefix patterns c.

(** [str.lstrip('/')] *)
Fixpoint lstrip_slash (s : string) : string :=
  match s with
  | String c s' => if Ascii.eqb c "/"%char then lstrip_slash s' else s
  | EmptyString => s
  end.

(** [_build_downstream_url] *)
Definition _build_downstream_url (base service path : string) : string :=
  let normalized_path := lstrip_slash path in
  if String.eqb normalized_path "" then base +:+ "/" +:+ service +:+ "/"
  else base +:+ "/" +:+ service +:+ "/" +:+ normalized_path.

Definition list_prefix (service base : string) : string :=
  "rest:GET:" +:+ base +:+ "/" +:+ service +:+ "/".
Definition detail_prefix (service base : string) (entity_id : N) : string :=
  "rest:GET:" +:+ base +:+ "/" +:+ service +:+ "/" +:+ pretty entity_id.
Definition gql_prefix (service : string) : string :=
  "gql:" +:+ service.

(** [_invalidate_caches]; its [try/except] has nothing to catch here. *)
Definition _invalidate_caches (service base : string)
    (entity_id : option N) (c : Cache) : Cache :=
  match entity_id with
  | Some entity_id =>
      cache_delete_pattern
        [detail_prefix service base entity_id;
         list_prefix service base;
         gql_prefix service] c
  | None =>
      cache_delete_pattern
        [list_prefix service base; gql_prefix service] c
  end.

(** [_gql_build_cache_key], given the serialised arguments *)
Definition _gql_build_cache_key (root_field args : string) : string :=
  "gql:" +:+ root_field +:+ ":" +:+ args.

(** [path.rstrip('/').split('/')[-1]]: the text after the last slash of
    the path without its trailing slashes. *)
Fixpoint last_segment_rev (rev_path : list ascii) : list ascii :=
  match rev_path with
  | [] => []
  | c :: rest =>
      if Ascii.eqb c "/"%char then [] else c :: last_segment_rev rest
  end.
Fixpoint drop_slashes (l : list ascii) : list ascii :=
  match l with
  | c :: rest => if Ascii.eqb c "/"%char then drop_slashes rest else l
  | [] => []
  end.
Definition last_segment (path : string) : string :=
  String.string_of_list_ascii
    (rev (last_segment_rev
            (drop_slashes (rev (String.list_ascii_of_string path))))).

Definition digit_value (c : ascii) : option N :=
  let n := N_of_ascii c in
  if (48 <=? n)%N && (n <=? 57)%N then Some (n - 48)%N else None.

(** [int(s) if s.isdigit() else None] *)
Fixpoint digits_value (acc : N) (s : string) : option N :=
  match s with
  | EmptyString => Some acc
  | String c s' =>
      match digit_value c with
      | Some d => digits_value (acc * 10 + d)%N s'
      | None => None
      end
  end.
Definition entity_id_of (path : string) : option N :=
  let s := last_segment path in
  if String.eqb s "" then None else digits_value 0%N s.

Record Request : Type := mkRequest {
  method : string;
  query_params : string;
}.

Record DownstreamResponse : Type := mkDownstreamResponse {
  status_code : Z;
  content_type : string;
  json : option string;      (* [None]: the body does not parse *)
  text : string;
}.

Inductive ProxyResult : Type :=
| Cached (data : string)
| NoContent
| Data (data : string)
| Text (text : string)
| Failed (status_code : Z) (detail : string).

(** [f"rest:GET:{url}:{request.query_params}"] *)
Definition rest_cache_key (url query : string) : string :=
  "rest:GET:" +:+ url +:+ ":" +:+ query.

Definition is_mutating (m : string) : bool :=
  str_in m ["POST"; "PUT"; "PATCH"; "DELETE"].

(** [cached is not None]: what [cache_get] returned counts as a hit unless
    it is [None], which it is on a miss and for a cached [null]. *)
Definition cache_hit (cached : option string) : option string :=
  match cached with
  | Some value => if String.eqb value "null" then None else Some value
  | None => None
  end.

(** [proxy], after [verify_token]; [resp] is the answer of
    [client.request(...)], [None] when the client raises. *)
Definition proxy (service path : string) (request : Request)
    (resp : option DownstreamResponse) (c : Cache) : ProxyResult * Cache :=
  match SERVICE_MAP !! service with
  | None => (Failed 404 "Unknown service", c)
  | Some base =>
      let url := _build_downstream_url base service path in
      let is_get := String.eqb (method request) "GET" in
      let cache_key :=
        if is_get then Some (rest_cache_key url (query_params request))
        else None in
      match cache_hit (from_option (fun k => cache_get k c) None cache_key)
      with
      | Some cached => (Cached cached, c)
      | None =>
          match resp with
          | None => (Failed 500 "Internal Server Error", c)
          | Some resp =>
              let c1 :=
                if is_mutating (method request)
                   && (status_code resp <? 400)%Z
                then _invalidate_caches service base (entity_id_of path) c
                else c in
              if Z.eqb (status_code resp) 204 then (NoContent, c1)
              else if String.prefix "application/json" (content_type resp)
              then
                match json resp with
                | None => (Failed 500 "Internal Server Error", c1)
                | Some data =>
                    match cache_key with
                    | Some k => (Data data, cache_set k data c1)
                    | None => (Data data, c1)
                    end
                end
              else (Text (text resp), c1)
          end
      end
  end.

(** No tier that can be read holds [key]. *)
Definition absent (key : string) (c : Cache) : Prop :=
  local_cache c !! key = None
  /\ match redis_client c with
     | Some r => reachable r = true -> store r !! key = None
     | None => True
     end.

(** Events of the environment: the shared tier stops answering, and answers
    again.  Its content is not touched by either. *)
Definition redis_goes_down (c : Cache) : Cache :=
  {| redis_client :=
       match redis_client c with
       | Some r => Some {| store := store r; reachable := false |}
       | None => None
       end;
     local_cache := local_cache c |}.
Definition redis_recovers (c : Cache) : Cache :=
  {| redis_client :=
       match redis_client c with
       | Some r => Some {| store := store r; reachable := true |}
       | None => None
       end;
     local_cache := local_cache c |}.

(** The keys of resource [service]: the REST keys of its list and detail
    views and the keys of its GraphQL views. *)
Definition key_of_resource (service base key : string) : Prop :=
  String.prefix (list_prefix service base) key = true
  \/ String.prefix (gql_prefix service) key = true.

End Gateway.

(** ** Concrete worlds used to run the code *)

Module Scenarios.
Import Dashboard.

Definition paid_order : Orders.Order :=
  {| Orders.id := 1; Orders.customer_id := 7;
     Orders.order_status := "PROCESSING";
     Orders.payment_status := "COMPLETED";
     Orders.payment_id := Some "pay_1";
     Orders.receipt_id := None |}.

Definition admin : User := {| username := "admin"; role := ADMIN |}.

(** An order as the orders service creates it. *)
Definition new_order (order_id : Z) : Orders.Order :=
  {| Orders.id := order_id; Orders.customer_id := 7;
     Orders.order_status := "PENDING";
     Orders.payment_status := "PENDING";
     Orders.payment_id := None;
     Orders.receipt_id := None |}.

(** An order whose payment was declined. *)
Definition declined_order (order_id : Z) : Orders.Order :=
  {| Orders.id := order_id; Orders.customer_id := 7;
     Orders.order_status := "CANCELLED";
     Orders.payment_status := "FAILED";
     Orders.payment_id := None;
     Orders.receipt_id := None |}.

(** A world with the given orders, no shipment, no customer on file, and
    the given fates for the requests to come. *)
Definition world (orders : gmap Z Orders.Order) (fates : list Fault)
  : World :=
  {| orders_db := orders;
     shipments_db := {| Shipments.rows := []; Shipments.next_id := 1 |};
     customers_db := [];
     recent_activity := [];
     activity_logs := [];
     audit_db_up := true;
     clock := 1700000000;
     faults := fates;
     calls := [] |}.

Definition approve_action : PaymentAction :=
  {| pa_action := Some "approve"; pa_payment_id := None;
     pa_receipt_id := None |}.
Definition decline_action : PaymentAction :=
  {| pa_action := Some "decline"; pa_payment_id := None;
     pa_receipt_id := None |}.
Definition no_action : PaymentAction :=
  {| pa_action := None; pa_payment_id := None; pa_receipt_id := None |}.

(** The body of the declining write. *)
Definition decline_body : Orders.OrderUpdate :=
  {| Orders.upd_order_status := Some "CANCELLED";
     Orders.upd_payment_status := Some "FAILED";
     Orders.upd_payment_id := None;
     Orders.upd_receipt_id := None |}.

(** A gateway cache without shared tier that holds the list view, a detail
    view and a GraphQL view of the orders, and the list of the customers. *)
Definition warm_cache : Gateway.Cache :=
  {| Gateway.redis_client := None;
     Gateway.local_cache :=
       list_to_map
         [("rest:GET:http://orders:8000/orders/:", "[{}]");
          ("rest:GET:http://orders:8000/orders/5:", "{}");
          ("gql:orders:{}", "[{}]");
          ("rest:GET:http://customers:8000/customers/:", "[]")] |}.

Definition put_request : Gateway.Request :=
  {| Gateway.method := "PUT"; Gateway.query_params := "" |}.

Definition get_request : Gateway.Request :=
  {| Gateway.method := "GET"; Gateway.query_params := "" |}.

Definition json_answer (code : Z) (body : string)
  : Gateway.DownstreamResponse :=
  {| Gateway.status_code := code;
     Gateway.content_type := "application/json";
     Gateway.json := Some body;
     Gateway.text := body |}.

(** A gateway whose shared tier answers and whose tiers are empty. *)
Definition cold_cache : Gateway.Cache :=
  {| Gateway.redis_client :=
       Some {| Gateway.store := ∅; Gateway.reachable := true |};
     Gateway.local_cache := ∅ |}.


(** A network on which every service is down. *)
Definition all_down : Health.Env :=
  {| Health.health_of := fun _ => Health.ConnectError;
     Health.seed_of := fun _ => 0 |}.

(** A network on which every service answers 200 without a body. *)
Definition all_up : Health.Env :=
  {| Health.health_of := fun _ => Health.Responded 200 12 Health.NotJson;
     Health.seed_of := fun _ => 0 |}.

(** The default configuration but for DASHBOARD_BACKOFF_JITTER_MS=-250. *)
Definition negative_jitter : Health.Config :=
  {| Health.DASHBOARD_POLL_INTERVAL_SEC := 2;
     Health.DASHBOARD_BACKOFF_FACTOR := 2;
     Health.DASHBOARD_BACKOFF_MAX_SEC := 30;
     Health.DASHBOARD_BACKOFF_JITTER_MS := -250 |}.

(** The services of a small deployment. *)
Definition two_services : list (string * string) :=
  [("orders", "http://orders:8000"); ("payments", "http://payments:8000")].

End Scenarios.

(** ** Sequences of requests to the orders service *)

Module OrdersTrace.

(** A write request to the orders service. *)
Inductive Op : Type :=
| Update (order_id : Z) (payload : Orders.OrderUpdate)
| Delete (order_id : Z).

(** The table after the request, whatever it was answered. *)
Definition apply_op (d : gmap Z Orders.Order) (op : Op)
  : gmap Z Orders.Order :=
  match op with
  | Update order_id payload => (Orders.update_order order_id payload d).2
  | Delete order_id => (Orders.delete_order order_id d).2
  end.

Definition run (ops : list Op) (d : gmap Z Orders.Order)
  : gmap Z Orders.Order :=
  fold_left apply_op ops d.

(** The payment fields of an order. *)
Definition payment_fields (o : Orders.Order)
  : string * option string * option string :=
  (Orders.payment_status o, Orders.payment_id o, Orders.receipt_id o).

End OrdersTrace.

(** ** Keys of the shipments table *)

Module ShipmentsKeys.

(** The primary key is unique and every key in use is below the next
    autoincrement value. *)
Definition well_keyed (d : Shipments.db) : Prop :=
  NoDup (Shipments.id <$> Shipments.rows d)
  /\ Forall (fun s => (Shipments.id s < Shipments.next_id d)%Z)
            (Shipments.rows d).

(** The columns no request to the shipments service may change. *)
Definition fixed_columns (s : Shipments.Shipment) : Z * Z * string :=
  (Shipments.id s, Shipments.order_id s, Shipments.shipped_at s).

Definition empty_db : Shipments.db :=
  {| Shipments.rows := []; Shipments.next_id := 1 |}.

End ShipmentsKeys.

(** ** The other endpoints of the dashboard that read or write orders and
    the activity feed *)

Module Admin.
Import Dashboard.

(** [GET /api/activity]: [recent_activity[-20:]]. *)
Definition get_activity (w : World) : list Activity :=
  drop (length (recent_activity w) - 20) (recent_activity w).

(** A downstream request of these endpoints; the log [calls] records the
    requests of the saga only. *)
Definition send {A} (serve : World -> Response A * World)
  : M (Response A) :=
  fun w =>
    let w1 := set_faults (tail (faults w)) w in
    match next_fault w with
    | NoFault => let '(r, w') := serve w1 in (Returned r, w')
    | Raises msg => (Raised (Exception msg), w1)
    | ServerError =>
        (Returned (HTTPException 500 "Internal Server Error"), w1)
    | Unavailable =>
        (Returned (HTTPException 503 "Service Unavailable"), w1)
    end.

(** [DELETE /orders/{order_id}] of the orders service. *)
Definition serve_DELETE_order (order_id : Z) (w : World)
  : Response unit * World :=
  let '(r, d) := Orders.delete_order order_id (orders_db w) in
  (r, set_orders_db d w).

(** [GET /orders/] of the orders service: [OrderService.list]. *)
Definition serve_GET_orders (w : World)
  : Response (list Orders.Order) * World :=
  (Ok 200 (map_to_list (orders_db w)).*2, w).

(** [DELETE /api/orders/{order_id}] of the dashboard. *)
Definition delete_order (order_id : Z) (user : User) : M Envelope :=
  if negb (String.eqb (role user) ADMIN)
  then raise (HTTPExc 403 "Admin access required")
  else
    try_except
      (let* response := send (serve_DELETE_order order_id) in
       if Z.eqb (status_code_of response) 200
          || Z.eqb (status_code_of response) 204
       then
         let* _ :=
           add_activity "DELETE" "order" (pretty order_id) (username user)
                        None in
         ret [("success", JBool true);
              ("message",
               JString ("Order #" +:+ pretty order_id +:+ " cancelled"))]
       else
         ret [("success", JBool false);
              ("error",
               JString ("HTTP " +:+ pretty (status_code_of response)))])
      (fun e => ret [("success", JBool false);
                     ("error", JString (str_exc e))]).

Record Notifications : Type := mkNotifications {
  pending_payment_approvals : nat;
  ready_to_ship : nat;
  in_transit : nat;
  total_action_items : nat;
}.

Definition no_notifications : Notifications :=
  {| pending_payment_approvals := 0; ready_to_ship := 0; in_transit := 0;
     total_action_items := 0 |}.

(** [sum(1 for o in orders if p(o))] *)
Definition count (p : Orders.Order -> bool) (orders : list Orders.Order)
  : nat :=
  length (List.filter p orders).

Definition is_pending_payment (o : Orders.Order) : bool :=
  String.eqb (Orders.payment_status o) "PENDING".
Definition is_ready_to_ship (o : Orders.Order) : bool :=
  String.eqb (Orders.payment_status o) "COMPLETED"
  && String.eqb (Orders.order_status o) "PROCESSING".
Definition is_in_transit (o : Orders.Order) : bool :=
  String.eqb (Orders.payment_status o) "COMPLETED"
  && String.eqb (Orders.order_status o) "SHIPPED".

(** The counts of [get_admin_notifications] over the fetched orders. *)
Definition notifications_of (orders : list Orders.Order) : Notifications :=
  let pending_payments := count is_pending_payment orders in
  let ready := count is_ready_to_ship orders in
  let transit := count is_in_transit orders in
  {| pending_payment_approvals := pending_payments;
     ready_to_ship := ready;
     in_transit := transit;
     total_action_items := pending_payments + ready + transit |}.

(** [GET /api/admin_notifications] *)
Definition get_admin_notifications (user : User) : M Notifications :=
  if negb (String.eqb (role user) ADMIN) then ret no_notifications
  else
    try_except
      (let* orders_resp := send serve_GET_orders in
       match json_if 200 orders_resp with
       | None => ret no_notifications
       | Some orders => ret (notifications_of orders)
       end)
      (fun e => ret no_notifications).

End Admin.

(** ** Invariants and outcomes used for the saga endpoints *)

Module SagaFacts.
Import Dashboard.

(** Every order but [order_id] and the customers are as in [w0]. *)
Definition others_as_in (w0 : World) (order_id : Z) (w : World) : Prop :=
  (forall other, other <> order_id ->
                 orders_db w !! other = orders_db w0 !! other)
  /\ customers_db w = customers_db w0.

(** The shipments table is [S]. *)
Definition shipments_are (S : Shipments.db) (w : World) : Prop :=
  shipments_db w = S.

(** The feed holds at most 50 entries. *)
Definition feed_bounded (w : World) : Prop :=
  (length (recent_activity w) <= 50)%nat.

(** The shipments are those of [S], or those of [S] followed by one PENDING
    shipment of [order_id]. *)
Definition at_most_one_pending_more (S : Shipments.db) (order_id : Z)
    (w : World) : Prop :=
  shipments_db w = S
  \/ exists s,
       Shipments.rows (shipments_db w) = (Shipments.rows S ++ [s])%list
       /\ Shipments.order_id s = order_id
       /\ Shipments.status s = "PENDING"
       /\ Shipments.id s = Shipments.next_id S.

(** The newest entry of the feed, and of the durable log when it can be
    written, records [action] on the order by the user. *)
Definition newest_activity_is (action_name : string) (order_id : Z)
    (user_name : string) (w : World) : Prop :=
  exists act,
    head (recent_activity w) = Some act
    /\ (audit_db_up w = true -> last (activity_logs w) = Some act)
    /\ action act = action_name
    /\ entity_type act = "order"
    /\ entity_id act = pretty order_id
    /\ user act = user_name.

(** The body the dashboard sends to move a shipment that lacks nothing to
    IN_TRANSIT. *)
Definition in_transit_patch : ShipmentPatch :=
  {| sp_status := Some "IN_TRANSIT"; sp_tracking_no := None;
     sp_carrier := None; sp_shipped_at := None; sp_delivered_at := None |}.

(** The first shipment of the order in the table, as the dashboard looks it
    up in the answer of [GET /shipments/]. *)
Definition order_shipment (order_id : Z) (w : World)
  : option Shipments.Shipment :=
  List.find (fun s => Z.eqb (Shipments.order_id s) order_id)
            (Shipments.rows (shipments_db w)).

End SagaFacts.

(** ** The outcomes of an approval, spelled out *)

Module Approval.
Import Dashboard.

(** The body of the approving write. *)
Definition approve_body (payment_action : PaymentAction)
  : Orders.OrderUpdate :=
  {| Orders.upd_order_status := Some "PROCESSING";
     Orders.upd_payment_status := Some "COMPLETED";
     Orders.upd_payment_id := keep_if_truthy (pa_payment_id payment_action);
     Orders.upd_receipt_id := keep_if_truthy (pa_receipt_id payment_action) |}.

(** The shipment the shipments service stores for an approved order, in
    world [w]. *)
Definition pending_shipment (order_id : Z) (w : World)
  : Shipments.Shipment :=
  {| Shipments.id := Shipments.next_id (shipments_db w);
     Shipments.order_id := order_id;
     Shipments.carrier := "Standard Delivery";
     Shipments.status := "PENDING";
     Shipments.tracking_no := tracking_number order_id (clock w);
     Shipments.shipped_at := isoformat (clock w);
     Shipments.delivered_at := None |}.

(** The shipment stored when an order without shipment is marked SHIPPED. *)
Definition in_transit_shipment (order_id : Z) (w : World)
  : Shipments.Shipment :=
  {| Shipments.id := Shipments.next_id (shipments_db w);
     Shipments.order_id := order_id;
     Shipments.carrier := "Standard Delivery";
     Shipments.status := "IN_TRANSIT";
     Shipments.tracking_no := tracking_number order_id (clock w);
     Shipments.shipped_at := isoformat (clock w);
     Shipments.delivered_at := None |}.

Definition approved_envelope (message : string) : Envelope :=
  [("success", JBool true);
   ("message", JString message);
   ("payment_status", JString "COMPLETED");
   ("order_status", JString "PROCESSING")].

Definition approved_message (order_id : Z) : string :=
  "Payment approved for order #" +:+ pretty order_id.

Definition status_updated_envelope (order : Orders.Order) : Envelope :=
  [("success", JBool true);
   ("message", JString "Order status updated");
   ("data", JOrder order)].

End Approval.

(** ** The shipment updates the dashboard sends *)

Module Fulfilment.
Import Dashboard.

(** What the shipments service is asked to change when an order with
    shipment [s] is marked SHIPPED: the status, and the tracking number and
    carrier where [s] has none ([shipped_at] is sent too when missing, and
    dropped by the schema of the service). *)
Definition shipped_update (order_id : Z) (s : Shipments.Shipment)
    (w : World) : Shipments.ShipmentUpdate :=
  {| Shipments.upd_status := Some "IN_TRANSIT";
     Shipments.upd_carrier :=
       if String.eqb (Shipments.carrier s) "" then Some "Standard Delivery"
       else None;
     Shipments.upd_tracking_no :=
       if String.eqb (Shipments.tracking_no s) ""
       then Some (tracking_number order_id (clock w)) else None;
     Shipments.upd_delivered_at := None |}.

(** What it is asked to change when the order is marked DELIVERED. *)
Definition delivered_update (w : World) : Shipments.ShipmentUpdate :=
  {| Shipments.upd_status := Some "DELIVERED";
     Shipments.upd_carrier := None;
     Shipments.upd_tracking_no := None;
     Shipments.upd_delivered_at := Some (isoformat (clock w)) |}.

(** [order_shipment.get('status') in ['IN_TRANSIT', 'PENDING']] *)
Definition deliverable (s : Shipments.Shipment) : bool :=
  str_in (Shipments.status s) ["IN_TRANSIT"; "PENDING"].

End Fulfilment.

(** ** What a change of the order status does to the shipments table *)

Module StatusFacts.
Import Dashboard ShipmentsKeys.

(** The table has the rows of [S] up to the columns a request can change:
    the same keys, orders and shipped_at at the same positions, and the same
    next key. *)
Definition same_keys_as (S : Shipments.db) (w : World) : Prop :=
  fixed_columns <$> Shipments.rows (shipments_db w)
  = fixed_columns <$> Shipments.rows S
  /\ Shipments.next_id (shipments_db w) = Shipments.next_id S.

(** A shipment of order 1 in the given status. *)
Definition a_shipment (status : string) : Shipments.Shipment :=
  {| Shipments.id := 1; Shipments.order_id := 1;
     Shipments.carrier := "Standard Delivery";
     Shipments.status := status;
     Shipments.tracking_no := "TRK11690000000";
     Shipments.shipped_at := "1690000000";
     Shipments.delivered_at := None |}.

(** A world whose order 1 has that shipment. *)
Definition world_with_shipment (order : Orders.Order) (status : string)
    (fates : list Fault) : World :=
  {| orders_db := {[ 1 := order ]};
     shipments_db :=
       {| Shipments.rows := [a_shipment status]; Shipments.next_id := 2 |};
     customers_db := [];
     recent_activity := [];
     activity_logs := [];
     audit_db_up := true;
     clock := 1700000000;
     faults := fates;
     calls := [] |}.

End StatusFacts.

(** ** The probes of one call of [fetch_metrics] *)

Module HealthFacts.
Import Health.

(** The call that took [mon] to [mon'] sent exactly one probe to
    [service]. *)
Definition probed_once (service : string) (mon mon' : Monitor) : Prop :=
  exists before after,
    probes mon' = (probes mon ++ before ++ service :: after)%list
    /\ (service ∉ before) /\ (service ∉ after).

(** What the state of a probed service records, by status. *)
Definition recorded (cfg : Config) (state : ServiceState) : Prop :=
  match last_status state with
  | None => state = initial_state cfg
  | Some s =>
      (s = "healthy"
       /\ backoff_sec state = POLL_INTERVAL_SEC cfg
       /\ is_Some (last_response_time_ms state))
      \/ (s = "unhealthy" /\ is_Some (last_response_time_ms state))
      \/ (s = "error"
          /\ last_response_time_ms state = None
          /\ last_version state = None)
  end.

(** A state in which no probe was ever recorded nor a check scheduled. *)
Definition never_recorded (state : ServiceState) : Prop :=
  last_status state = None
  /\ last_response_time_ms state = None
  /\ last_version state = None
  /\ last_releaseId state = None
  /\ next_check_at state = 0%Q.

(** The backoff a probe leaves when [random.randint] raises: the failure
    formula applied once by a handler, or, after an answer, applied by
    [except Exception] to the backoff the [try] block had written. *)
Definition backoff_after_ValueError (fl : Float64) (cfg : Config)
    (probe : Probe) (backoff : Q) : Q :=
  match probe with
  | Responded code _ _ =>
      backoff_after_failure fl cfg
        (if Z.eqb code 200 then POLL_INTERVAL_SEC cfg
         else backoff_after_failure fl cfg backoff)
  | ConnectError | TimeoutException | OtherException _ =>
      backoff_after_failure fl cfg backoff
  end.

End HealthFacts.

(** * Properties *)

(** ** The orders service: the finalized-payment guard *)

Section OrdersGuard.
Import Orders Scenarios.

Lemma payment_finalized_iff (order : Order) :
  payment_finalized order = true ↔
  payment_status order = "COMPLETED" ∨ payment_status order = "FAILED".
Proof.
  unfold payment_finalized, str_in; simpl.
  rewrite !orb_true_iff, !String.eqb_eq. intuition discriminate.
Qed.

Lemma touching_payment_fields_iff (payload : OrderUpdate) :
  touching_payment_fields payload = true ↔
  upd_payment_status payload ≠ None ∨ upd_payment_id payload ≠ None
  ∨ upd_receipt_id payload ≠ None.
Proof.
  unfold touching_payment_fields.
  destruct (upd_payment_status payload), (upd_payment_id payload),
    (upd_receipt_id payload); simpl; split; intros H;
    try reflexivity; try discriminate; auto.
  destruct H as [H | [H | H]]; congruence.
Qed.

Lemma update_found (order_id : Z) (payload : OrderUpdate)
    (d : gmap Z Order) (order : Order) :
  d !! order_id = Some order →
  update order_id payload d =
    (Some (apply_update payload order),
     <[order_id := apply_update payload order]> d).
Proof. intros H. unfold update, get. rewrite H. reflexivity. Qed.

(** C8.  Once an order's payment is COMPLETED or FAILED, an update that
    touches [payment_status], [payment_id] or [receipt_id] and every delete
    are answered 403 and leave the table as it was; an update that touches
    none of the three is applied and answered 200. *)
Theorem finalized_payment_is_guarded (d : gmap Z Order) (order_id : Z)
    (order : Order) (payload : OrderUpdate) :
  d !! order_id = Some order →
  payment_status order = "COMPLETED" ∨ payment_status order = "FAILED" →
  (upd_payment_status payload ≠ None ∨ upd_payment_id payload ≠ None
   ∨ upd_receipt_id payload ≠ None →
   update_order order_id payload d
   = (HTTPException 403 detail_update_forbidden, d))
  ∧ delete_order order_id d = (HTTPException 403 detail_delete_forbidden, d)
  ∧ (upd_payment_status payload = None → upd_payment_id payload = None →
     upd_receipt_id payload = None →
     update_order order_id payload d
     = (Ok 200 (apply_update payload order),
        <[order_id := apply_update payload order]> d)
     ∧ payment_status (apply_update payload order) = payment_status order
     ∧ payment_id (apply_update payload order) = payment_id order
     ∧ receipt_id (apply_update payload order) = receipt_id order
     ∧ order_status (apply_update payload order)
       = default (order_status order) (upd_order_status payload)).
Proof.
  intros Hget Hfin.
  apply payment_finalized_iff in Hfin.
  split; [| split].
  - intros Htouch. apply touching_payment_fields_iff in Htouch.
    unfold update_order. rewrite Hget, Hfin, Htouch. reflexivity.
  - unfold delete_order. rewrite Hget, Hfin. reflexivity.
  - intros H1 H2 H3. split.
    + unfold update_order. rewrite Hget, Hfin.
      unfold touching_payment_fields. rewrite H1, H2, H3. simpl.
      rewrite (update_found _ _ _ _ Hget). reflexivity.
    + unfold apply_update; simpl. rewrite H1, H2, H3.
      destruct (upd_order_status payload); auto.
Qed.

Lemma finalized_payment_is_guarded_witness :
  update_order 1 (mkOrderUpdate None (Some "PENDING") None None)
               {[ 1 := paid_order ]}
  = (HTTPException 403 detail_update_forbidden, {[ 1 := paid_order ]})
  ∧ delete_order 1 {[ 1 := paid_order ]}
    = (HTTPException 403 detail_delete_forbidden, {[ 1 := paid_order ]})
  ∧ status_code_of
      (update_order 1 (mkOrderUpdate (Some "SHIPPED") None None None)
                    {[ 1 := paid_order ]}).1 = 200.
Proof.
  pose proof (finalized_payment_is_guarded {[ 1 := paid_order ]} 1 paid_order
                (mkOrderUpdate None (Some "PENDING") None None)) as Hpay.
  pose proof (finalized_payment_is_guarded {[ 1 := paid_order ]} 1 paid_order
                (mkOrderUpdate (Some "SHIPPED") None None None)) as Hship.
  destruct Hpay as (Hupd & Hdel & _); [reflexivity | left; reflexivity |].
  destruct Hship as (_ & _ & Hother); [reflexivity | left; reflexivity |].
  destruct Hother as [Hother _]; [reflexivity | reflexivity | reflexivity |].
  split; [apply Hupd; left; discriminate |].
  split; [exact Hdel |].
  rewrite Hother. reflexivity.
Defined.

End OrdersGuard.

(** ** The saga: rules for reasoning about monadic code *)

Section SagaLogic.
Import Dashboard.

Lemma hoare_ret {A} (a : A) (P : World → Prop) Q :
  (∀ w, P w → Q (Returned a) w) → hoare P (ret a) Q.
Proof. intros H w Hw. apply H, Hw. Qed.

Lemma hoare_bind {A B} (m : M A) (k : A → M B) (P : World → Prop) Q R :
  hoare P m Q →
  (∀ a, hoare (Q (Returned a)) (k a) R) →
  (∀ e w, Q (Raised e) w → R (Raised e) w) →
  hoare P (bind m k) R.
Proof.
  intros Hm Hk He w Hw. specialize (Hm w Hw). unfold bind.
  destruct (m w) as [[a | e] w1]; simpl in *.
  - apply Hk, Hm.
  - apply He, Hm.
Qed.

Lemma hoare_try_except {A} (m : M A) (h : Exc → M A)
    (P : World → Prop) Q R :
  hoare P m Q →
  (∀ a w, Q (Returned a) w → R (Returned a) w) →
  (∀ e, hoare (Q (Raised e)) (h e) R) →
  hoare P (try_except m h) R.
Proof.
  intros Hm Ha Hh w Hw. specialize (Hm w Hw). unfold try_except.
  destruct (m w) as [[a | e] w1]; simpl in *.
  - apply Ha, Hm.
  - apply Hh, Hm.
Qed.

Lemma hoare_conseq {A} (m : M A) (P P' : World → Prop)
    (Q Q' : Result A → World → Prop) :
  hoare P' m Q' →
  (∀ w, P w → P' w) →
  (∀ r w, Q' r w → Q r w) →
  hoare P m Q.
Proof. intros Hm HP HQ w Hw. apply HQ, Hm, HP, Hw. Qed.

Lemma hoare_utcnow (P : World → Prop) Q :
  (∀ w, P w → Q (Returned (clock w)) w) → hoare P utcnow Q.
Proof. intros H w Hw. apply H, Hw. Qed.

Lemma hoare_add_activity (act ety eid usr : string) (det : option string)
    (P : World → Prop) Q :
  (∀ w feed logs, P w → Q (Returned tt) (set_activity feed logs w)) →
  hoare P (add_activity act ety eid usr det) Q.
Proof. intros H w Hw. unfold add_activity; simpl. apply H, Hw. Qed.

(** A request has three fates: served, raised, or answered with an error
    status by the infrastructure. *)
Lemma hoare_request {A} (c : Call) (serve : World → Response A * World)
    (P : World → Prop) Q :
  (∀ w, P w → Q (Returned (serve (sent c w)).1) (serve (sent c w)).2) →
  (∀ w msg, P w → Q (Raised (Exception msg)) (sent c w)) →
  (∀ w (code : Z) detail, P w → (500 ≤ code)%Z →
     Q (Returned (HTTPException code detail)) (sent c w)) →
  hoare P (request c serve) Q.
Proof.
  intros Hserved Hraised Herror w Hw. unfold request.
  destruct (next_fault w).
  - specialize (Hserved w Hw). destruct (serve (sent c w)); exact Hserved.
  - apply Hraised, Hw.
  - apply Herror; [exact Hw | lia].
  - apply Herror; [exact Hw | lia].
Qed.

(** [json_if] finds nothing in an error answer. *)
Lemma json_if_error {A} (expected code : Z) (detail : string) :
  json_if expected (@HTTPException A code detail) = None.
Proof. reflexivity. Qed.

Lemma keeps_ret {A} (a : A) I : keeps I (ret a).
Proof. apply hoare_ret; auto. Qed.

Lemma keeps_bind {A B} (m : M A) (k : A → M B) I :
  keeps I m → (∀ a, keeps I (k a)) → keeps I (bind m k).
Proof. intros Hm Hk. eapply hoare_bind; eauto. Qed.

Lemma keeps_try_except {A} (m : M A) (h : Exc → M A) I :
  keeps I m → (∀ e, keeps I (h e)) → keeps I (try_except m h).
Proof. intros Hm Hh. eapply hoare_try_except; eauto. Qed.

Lemma keeps_utcnow I : keeps I utcnow.
Proof. apply hoare_utcnow; auto. Qed.

End SagaLogic.

(** ** OrderStatusChange(SHIPPED) on an order whose payment is not COMPLETED *)

Section UnpaidOrder.
Import Dashboard.

Variables (order_id : Z) (D : gmap Z Orders.Order) (S : Shipments.db).
Variable order : Orders.Order.
Hypothesis order_in_D : D !! order_id = Some order.
Hypothesis order_unpaid : Orders.payment_status order ≠ "COMPLETED".

Lemma frozen_sent (c : Call) (w : World) :
  frozen D S w → frozen D S (sent c w).
Proof. intros [H1 H2]. split; assumption. Qed.

Lemma frozen_set_activity feed logs (w : World) :
  frozen D S w → frozen D S (set_activity feed logs w).
Proof. intros [H1 H2]. split; assumption. Qed.

Lemma get_shipments_frozen : keeps (frozen D S) get_shipments.
Proof.
  apply hoare_request; intros; simpl; auto using frozen_sent.
Qed.

(** What [GET /orders/{order_id}] answers is the unpaid order, or nothing
    usable. *)
Lemma get_order_frozen :
  hoare (frozen D S) (get_order order_id)
    (fun r w =>
       frozen D S w
       ∧ ∀ resp o, r = Returned resp → json_if 200 resp = Some o →
                   o = order).
Proof.
  apply hoare_request.
  - intros w Hw. simpl. split; [apply frozen_sent, Hw |].
    intros resp o [= <-]. unfold Orders.get_order, Orders.get.
    destruct Hw as [-> _]. rewrite order_in_D. simpl. congruence.
  - intros w msg Hw. split; [apply frozen_sent, Hw | discriminate].
  - intros w code detail Hw _. split; [apply frozen_sent, Hw |].
    intros resp o [= <-]. discriminate.
Qed.

(** The SHIPPED branch stops at the payment rule. *)
Lemma ship_frozen (user : User) (s : option Shipments.Shipment) :
  keeps (frozen D S) (ship order_id user s).
Proof.
  unfold ship. eapply hoare_bind; [apply get_order_frozen | |].
  - intros resp. destruct (json_if 200 resp) as [o |] eqn:Hjson.
    + intros w [Hw Hresp]. rewrite (Hresp resp o eq_refl Hjson).
      apply String.eqb_neq in order_unpaid. rewrite order_unpaid.
      exact Hw.
    + intros w [Hw _]. exact Hw.
  - intros e w [Hw _]. exact Hw.
Qed.

Lemma handle_shipment_frozen (user : User) :
  keeps (frozen D S) (handle_shipment order_id (Some "SHIPPED") user).
Proof.
  unfold handle_shipment. apply keeps_bind; [apply get_shipments_frozen |].
  intros resp. change (opt_is (Some "SHIPPED") "SHIPPED") with true.
  apply ship_frozen.
Qed.

End UnpaidOrder.

Section ShipUnpaid.
Import Dashboard.

Lemma touching_status_change (new_status : string) :
  Orders.touching_payment_fields (status_change new_status) = false.
Proof. reflexivity. Qed.

(** What the orders service does with an order-status change. *)
Lemma update_order_status_change (d : gmap Z Orders.Order) (order_id : Z)
    (order : Orders.Order) (new_status : string) :
  d !! order_id = Some order →
  Orders.update_order order_id (status_change new_status) d
  = (Ok 200 (Orders.apply_update (status_change new_status) order),
     <[order_id := Orders.apply_update (status_change new_status) order]> d).
Proof.
  intros Hget. unfold Orders.update_order. rewrite Hget.
  rewrite touching_status_change, andb_false_r.
  unfold Orders.update, Orders.get. rewrite Hget. reflexivity.
Qed.

(** C3, amended.  For an order whose payment is not COMPLETED, the request
    to mark it SHIPPED leaves the shipments table as it was, whatever
    happens to the downstream requests; the order-status write itself is not
    guarded: when it reaches the orders service the order becomes SHIPPED
    and the endpoint reports success. *)
Theorem unpaid_ship_request_touches_no_shipment (w : World) (order_id : Z)
    (order : Orders.Order) (user : User) :
  orders_db w !! order_id = Some order →
  Orders.payment_status order ≠ "COMPLETED" →
  let run := update_order_status order_id (status_change "SHIPPED") user w in
  let shipped := Orders.apply_update (status_change "SHIPPED") order in
  shipments_db run.2 = shipments_db w
  ∧ (role user = ADMIN → next_fault w = NoFault →
     run.1 = Returned [("success", JBool true);
                       ("message", JString "Order status updated");
                       ("data", JOrder shipped)]
     ∧ orders_db run.2 = <[order_id := shipped]> (orders_db w)
     ∧ Orders.order_status shipped = "SHIPPED"
     ∧ Orders.payment_status shipped = Orders.payment_status order).
Proof.
  intros Hget Hunpaid run shipped. subst run.
  unfold update_order_status.
  destruct (String.eqb (role user) ADMIN) eqn:Hrole; simpl.
  2: { split; [reflexivity |]. intros Hadmin. rewrite Hadmin in Hrole.
       discriminate. }
  unfold try_except, bind, put_order, request.
  destruct (next_fault w) eqn:Hfault; simpl.
  - unfold serve_PUT_order; simpl.
    rewrite (update_order_status_change _ _ _ _ Hget). simpl.
    fold shipped.
    set (w1 := set_orders_db _ _).
    assert (Hw1 : frozen (<[order_id := shipped]> (orders_db w))
                         (shipments_db w) w1) by (split; reflexivity).
    assert (Hin : (<[order_id := shipped]> (orders_db w)) !! order_id
                  = Some shipped) by apply lookup_insert_eq.
    pose proof (handle_shipment_frozen order_id _ _ shipped Hin Hunpaid
                  user w1 Hw1) as Hkept.
    destruct (handle_shipment order_id (Some "SHIPPED") user w1)
      as [[[] | e] w2]; simpl in *; destruct Hkept as [HD HS];
      (split; [exact HS | intros _ _; repeat split; exact HD]).
  - split; [reflexivity | discriminate].
  - split; [reflexivity | discriminate].
  - split; [reflexivity | discriminate].
Qed.

End ShipUnpaid.

(** ** The order of the requests of OrderStatusChange *)

Section RequestOrder.
Import Dashboard.

Variable T : list Call.

Lemma extends_set_activity feed logs (w : World) :
  extends T w → extends T (set_activity feed logs w).
Proof. intros H. exact H. Qed.

Lemma extends_sent (c : Call) (w : World) :
  is_order_write c = false → extends T w → extends T (sent c w).
Proof.
  intros Hc (rest & Hcalls & Hrest). exists (rest ++ [c])%list. split.
  - simpl. rewrite Hcalls, <- app_assoc. reflexivity.
  - apply Forall_app. split; [exact Hrest |]. constructor; [exact Hc |].
    constructor.
Qed.

(** A request that is no order write, served by a handler that leaves the
    log alone, keeps the invariant. *)
Lemma request_extends {A} (c : Call) (serve : World → Response A * World) :
  is_order_write c = false →
  (∀ w, calls (serve w).2 = calls w) →
  keeps (extends T) (request c serve).
Proof.
  intros Hc Hserve. apply hoare_request.
  - intros w Hw. destruct (extends_sent c w Hc Hw) as (rest & Hcalls & Hrest).
    exists rest. rewrite Hserve. auto.
  - intros w msg Hw. apply extends_sent; assumption.
  - intros w code detail Hw _. apply extends_sent; assumption.
Qed.

Lemma get_order_extends (order_id : Z) :
  keeps (extends T) (get_order order_id).
Proof. apply request_extends; reflexivity. Qed.

Lemma get_shipments_extends : keeps (extends T) get_shipments.
Proof. apply request_extends; reflexivity. Qed.

Lemma get_customers_extends : keeps (extends T) get_customers.
Proof. apply request_extends; reflexivity. Qed.

Lemma post_shipment_extends (body : ShipmentData) :
  keeps (extends T) (post_shipment body).
Proof. apply request_extends; reflexivity. Qed.

Lemma put_shipment_extends (shipment_id : Z) (body : ShipmentPatch) :
  keeps (extends T) (put_shipment shipment_id body).
Proof.
  apply request_extends; [reflexivity |]. intros w.
  unfold serve_PUT_shipment, Shipments.update.
  destruct (Shipments.find_by_id _ _); reflexivity.
Qed.

Lemma add_activity_extends act ety eid usr det :
  keeps (extends T) (add_activity act ety eid usr det).
Proof. apply hoare_add_activity. intros; assumption. Qed.

Ltac keeps_extends :=
  repeat first
    [ apply keeps_ret
    | apply keeps_utcnow
    | apply get_order_extends
    | apply get_shipments_extends
    | apply get_customers_extends
    | apply post_shipment_extends
    | apply put_shipment_extends
    | apply add_activity_extends
    | apply keeps_bind; [| intros ?]
    | match goal with
      | |- keeps _ (match ?x with _ => _ end) => destruct x
      end ].

Lemma ship_extends (order_id : Z) (user : User)
    (s : option Shipments.Shipment) :
  keeps (extends T) (ship order_id user s).
Proof. unfold ship. keeps_extends. Qed.

Lemma handle_shipment_extends (order_id : Z) (order_status : option string)
    (user : User) :
  keeps (extends T) (handle_shipment order_id order_status user).
Proof.
  unfold handle_shipment. apply keeps_bind; [apply get_shipments_extends |].
  intros resp. destruct (opt_is order_status "SHIPPED").
  - apply ship_extends.
  - keeps_extends.
Qed.

End RequestOrder.

Section OrderWriteFirst.
Import Dashboard.

Lemma serve_PUT_order_calls (order_id : Z) (body : Orders.OrderUpdate)
    (w : World) :
  calls (serve_PUT_order order_id body w).2 = calls w.
Proof.
  unfold serve_PUT_order.
  destruct (Orders.update_order order_id body (orders_db w)); reflexivity.
Qed.

(** C5, amended.  In every order-status change of an admin the write of
    the order is the first request issued; the shipment-side requests come
    after it, none of them writes an order, and there are none when the
    endpoint reports failure. *)
Theorem order_write_is_issued_first (w : World) (order_id : Z)
    (status_data : Orders.OrderUpdate) (user : User) :
  role user = ADMIN →
  let run := update_order_status order_id status_data user w in
  ∃ rest,
    calls run.2 = (calls w ++ PUT_order order_id status_data :: rest)%list
    ∧ Forall (fun c => is_order_write c = false) rest
    ∧ (∀ env, run.1 = Returned env →
              get "success" env = Some (JBool false) → rest = []).
Proof.
  intros Hadmin run. subst run. unfold update_order_status.
  rewrite Hadmin. simpl.
  unfold try_except, bind, put_order, request.
  destruct (next_fault w); simpl;
    try (exists []; repeat split; auto; fail).
  pose proof (serve_PUT_order_calls order_id status_data
                (sent (PUT_order order_id status_data) w)) as Hcalls.
  destruct (serve_PUT_order order_id status_data
              (sent (PUT_order order_id status_data) w)) as [resp w1].
  simpl in Hcalls.
  destruct (json_if 200 resp) as [order |]; simpl.
  2: { exists []. repeat split; auto. }
  assert (Hw1 : extends (calls w ++ [PUT_order order_id status_data]) w1).
  { exists []. rewrite app_nil_r. split; [exact Hcalls | constructor]. }
  pose proof (handle_shipment_extends _ order_id
                (Orders.upd_order_status status_data) user w1 Hw1) as Hkept.
  destruct (handle_shipment order_id (Orders.upd_order_status status_data)
              user w1) as [[[] | e] w2]; simpl in *;
    destruct Hkept as (rest & Hrest & Hno); exists rest;
    (split; [rewrite Hrest, <- app_assoc; reflexivity |]);
    (split; [exact Hno |]); intros env [= <-]; discriminate.
Qed.

End OrderWriteFirst.

(** ** The envelope of the trigger endpoints *)

Section Envelopes.
Import Dashboard.

Lemma structured_success (message : string) (more : Envelope) :
  structured (("success", JBool true) :: ("message", JString message)
              :: more).
Proof. split; [exists true | left; exists message]; reflexivity. Qed.

Lemma structured_failure (error : string) :
  structured [("success", JBool false); ("error", JString error)].
Proof. split; [exists false | right; exists error]; reflexivity. Qed.

Lemma process_payment_envelope (w : World) (order_id : Z)
    (payment_action : PaymentAction) (user : User) :
  role user = ADMIN →
  ∃ env, (process_payment order_id payment_action user w).1 = Returned env
         ∧ structured env.
Proof.
  intros Hadmin. unfold process_payment. rewrite Hadmin. simpl.
  unfold try_except, bind.
  destruct ((if opt_is (pa_action payment_action) "approve"
             then approve order_id payment_action user
             else decline order_id) w) as [[message | e] w1]; simpl;
    eauto using structured_success, structured_failure.
Qed.

Lemma update_order_status_envelope (w : World) (order_id : Z)
    (status_data : Orders.OrderUpdate) (user : User) :
  role user = ADMIN →
  ∃ env, (update_order_status order_id status_data user w).1 = Returned env
         ∧ structured env.
Proof.
  intros Hadmin. unfold update_order_status. rewrite Hadmin. simpl.
  unfold try_except at 1. unfold bind at 1.
  destruct (put_order order_id status_data w) as [[response | e] w1];
    simpl; eauto using structured_failure.
  destruct (json_if 200 response) as [order |]; simpl;
    eauto using structured_failure.
  unfold bind, try_except.
  destruct (handle_shipment order_id (Orders.upd_order_status status_data)
              user w1) as [[[] | e] w2]; simpl;
    eauto using structured_success.
Qed.

(** C9.  For an admin both trigger endpoints return, whatever the
    downstream requests do, an envelope with a boolean [success] and a
    [message] or an [error]; no exception leaves the endpoint. *)
Theorem trigger_endpoints_return_an_envelope (w : World) (order_id : Z)
    (payment_action : PaymentAction) (status_data : Orders.OrderUpdate)
    (user : User) :
  role user = ADMIN →
  (∃ env, (process_payment order_id payment_action user w).1 = Returned env
          ∧ structured env)
  ∧ (∃ env,
       (update_order_status order_id status_data user w).1 = Returned env
       ∧ structured env).
Proof.
  intros Hadmin. split.
  - apply process_payment_envelope, Hadmin.
  - apply update_order_status_envelope, Hadmin.
Qed.

End Envelopes.

(** ** PaymentDecision with an action other than 'approve' *)

Section Decline.
Import Dashboard Scenarios.

Lemma opt_is_false (o : option string) (s : string) :
  o ≠ Some s → opt_is o s = false.
Proof.
  intros Hne. destruct o as [s' |]; simpl; [| reflexivity].
  apply String.eqb_neq. congruence.
Qed.

(** C10, amended.  For an admin and every action other than the string
    'approve', absent actions included, the endpoint takes the decline
    path: its one request is the write of payment_status FAILED and
    order_status CANCELLED.  Whatever status that request is answered with,
    the endpoint reports success; when the request raises, it reports the
    error. *)
Theorem other_actions_take_the_decline_path (w : World) (order_id : Z)
    (payment_action : PaymentAction) (user : User) :
  role user = ADMIN →
  pa_action payment_action ≠ Some "approve" →
  let run := process_payment order_id payment_action user w in
  calls run.2 = (calls w ++ [PUT_order order_id decline_body])%list
  ∧ ((∀ msg, next_fault w ≠ Raises msg) →
     run.1 = Returned
               [("success", JBool true);
                ("message",
                 JString ("Payment declined for order #"
                          +:+ pretty order_id));
                ("payment_status", JString "FAILED");
                ("order_status", JString "CANCELLED")])
  ∧ (∀ msg, next_fault w = Raises msg →
     run.1 = Returned [("success", JBool false); ("error", JString msg)]).
Proof.
  intros Hadmin Haction run. subst run. unfold process_payment.
  rewrite Hadmin, (opt_is_false _ _ Haction). simpl.
  unfold try_except, bind, decline, bind, put_order, request.
  fold decline_body.
  destruct (next_fault w) eqn:Hfault; simpl.
  - pose proof (serve_PUT_order_calls order_id decline_body
                  (sent (PUT_order order_id decline_body) w)) as Hcalls.
    destruct (serve_PUT_order order_id decline_body
                (sent (PUT_order order_id decline_body) w)) as [resp w1].
    simpl in *. repeat split; [exact Hcalls | discriminate].
  - repeat split.
    + intros Hno. destruct (Hno msg eq_refl).
    + intros msg' [= ->]. reflexivity.
  - repeat split; discriminate.
  - repeat split; discriminate.
Qed.

End Decline.

(** ** The saga run on concrete worlds *)

Section Runs.
Import Dashboard Scenarios.

(** C1, the code at two inputs.  Approving the declined order 3: the orders
    service rejects the write with 403, the endpoint goes on and a shipment
    is created while the payment is FAILED.  Approving the new order 1
    while the orders service answers the write with 500: a shipment is
    created while the payment is PENDING. *)
Lemma approval_ships_without_completed_payment :
  let rejected :=
    process_payment 3 approve_action admin
      (world {[ 3 := declined_order 3 ]} []) in
  let failed :=
    process_payment 1 approve_action admin
      (world {[ 1 := new_order 1 ]} [NoFault; ServerError]) in
  (payment_status_of 3 rejected.2 = Some "FAILED"
   ∧ Shipments.status <$> shipments_of 3 rejected.2 = ["PENDING"])
  ∧ (payment_status_of 1 failed.2 = Some "PENDING"
     ∧ Shipments.status <$> shipments_of 1 failed.2 = ["PENDING"]).
Proof. vm_compute. repeat split. Qed.

(** C2, the code at one input.  Two approvals of order 1: the second write
    is rejected with 403 by the orders service, yet the endpoint reports
    success again, creates a second shipment and logs a second PAYMENT
    activity. *)
Lemma second_approval_is_applied_again :
  let first :=
    process_payment 1 approve_action admin
      (world {[ 1 := new_order 1 ]} []) in
  let second := process_payment 1 approve_action admin first.2 in
  Shipments.id <$> shipments_of 1 first.2 = [1]
  ∧ payment_status_of 1 first.2 = Some "COMPLETED"
  ∧ (∃ env, second.1 = Returned env
            ∧ get "success" env = Some (JBool true))
  ∧ Shipments.id <$> shipments_of 1 second.2 = [1; 2]
  ∧ action <$> activity_logs second.2
    = ["CREATE"; "PAYMENT"; "CREATE"; "PAYMENT"].
Proof. vm_compute. repeat split. eexists. split; reflexivity. Qed.

(** C3 as stated fails: order 2 is PENDING/PENDING, the request to mark it
    SHIPPED is not rejected, sets its order_status to SHIPPED and reports
    success. *)
Lemma unpaid_ship_request_is_not_rejected :
  let before := world {[ 2 := new_order 2 ]} [] in
  let run := update_order_status 2 (status_change "SHIPPED") admin before in
  payment_status_of 2 before = Some "PENDING"
  ∧ order_status_of 2 before = Some "PENDING"
  ∧ order_status_of 2 run.2 = Some "SHIPPED"
  ∧ ∃ env, run.1 = Returned env ∧ get "success" env = Some (JBool true).
Proof. vm_compute. repeat split. eexists. split; reflexivity. Qed.

(** C5 as stated fails: order 1 is approved, then marked SHIPPED; the
    write of the order is the first request of the status change and the
    write of the shipment is the last. *)
Lemma order_write_is_not_issued_last :
  let approved :=
    (process_payment 1 approve_action admin
       (world {[ 1 := new_order 1 ]} [])).2 in
  let run := update_order_status 1 (status_change "SHIPPED") admin approved in
  drop (length (calls approved)) (calls run.2)
  = [PUT_order 1 (status_change "SHIPPED");
     GET_shipments;
     GET_order 1;
     PUT_shipment 1
       {| sp_status := Some "IN_TRANSIT"; sp_tracking_no := None;
          sp_carrier := None; sp_shipped_at := None;
          sp_delivered_at := None |}]
  ∧ order_status_of 1 run.2 = Some "SHIPPED"
  ∧ Shipments.status <$> shipments_of 1 run.2 = ["IN_TRANSIT"].
Proof. vm_compute. repeat split. Qed.

(** C10 as stated fails: the decline of order 1 while the request to the
    orders service raises reports no success. *)
Lemma decline_reports_the_raised_error :
  (process_payment 1 decline_action admin
     (world {[ 1 := new_order 1 ]} [Raises "Connection failed"])).1
  = Returned [("success", JBool false);
              ("error", JString "Connection failed")].
Proof. reflexivity. Qed.

End Runs.

(** ** The saga theorems at concrete inputs *)

Section SagaWitnesses.
Import Dashboard Scenarios.

Lemma unpaid_ship_request_touches_no_shipment_witness :
  let before := world {[ 2 := new_order 2 ]} [] in
  let run := update_order_status 2 (status_change "SHIPPED") admin before in
  shipments_db run.2 = shipments_db before
  ∧ order_status_of 2 run.2 = Some "SHIPPED".
Proof.
  pose proof (unpaid_ship_request_touches_no_shipment
                (world {[ 2 := new_order 2 ]} []) 2 (new_order 2) admin)
    as H.
  destruct H as [Hshipments Hwrite].
  - reflexivity.
  - discriminate.
  - destruct Hwrite as (_ & Horders & _); [reflexivity | reflexivity |].
    split; [exact Hshipments |].
    unfold order_status_of. simpl. rewrite Horders.
    rewrite lookup_insert_eq. reflexivity.
Defined.

Lemma order_write_is_issued_first_witness :
  ∃ rest,
    calls (update_order_status 2 (status_change "SHIPPED") admin
             (world {[ 2 := new_order 2 ]} [])).2
    = PUT_order 2 (status_change "SHIPPED") :: rest.
Proof.
  destruct (order_write_is_issued_first
              (world {[ 2 := new_order 2 ]} []) 2
              (status_change "SHIPPED") admin) as (rest & Hcalls & _).
  - reflexivity.
  - exists rest. exact Hcalls.
Defined.

Lemma trigger_endpoints_return_an_envelope_witness :
  ∃ env,
    (process_payment 1 approve_action admin
       (world {[ 1 := new_order 1 ]} [Raises "Timeout"])).1 = Returned env
    ∧ structured env.
Proof.
  destruct (trigger_endpoints_return_an_envelope
              (world {[ 1 := new_order 1 ]} [Raises "Timeout"]) 1
              approve_action (status_change "SHIPPED") admin) as [H _].
  - reflexivity.
  - exact H.
Defined.

Lemma other_actions_take_the_decline_path_witness :
  let run :=
    process_payment 1 no_action admin (world {[ 1 := new_order 1 ]} []) in
  calls run.2 = [PUT_order 1 decline_body]
  ∧ payment_status_of 1 run.2 = Some "FAILED"
  ∧ order_status_of 1 run.2 = Some "CANCELLED".
Proof.
  destruct (other_actions_take_the_decline_path
              (world {[ 1 := new_order 1 ]} []) 1 no_action admin)
    as (Hcalls & _ & _).
  - reflexivity.
  - discriminate.
  - split; [exact Hcalls |]. split; reflexivity.
Defined.

End SagaWitnesses.

(** ** The health monitor: backoff *)

Section Backoff.
Import Health HealthFacts.
Open Scope Q_scope.

Variables (fl : Float64) (cfg : Config).

Lemma poll_interval_floor : 1 # 2 <= POLL_INTERVAL_SEC cfg.
Proof. apply Q.le_max_l. Qed.

Lemma poll_interval_le_max : POLL_INTERVAL_SEC cfg <= BACKOFF_MAX_SEC cfg.
Proof. apply Q.le_max_l. Qed.

Lemma within_bounds_poll_interval :
  within_bounds cfg (POLL_INTERVAL_SEC cfg).
Proof.
  pose proof poll_interval_le_max.
  split; [| split]; [lra | lra | reflexivity].
Qed.

(** The failure formula raises a backoff that is within the bounds, and
    keeps it within them. *)
Lemma failure_raises_backoff (backoff : Q) :
  rounds_monotonically fl →
  within_bounds cfg backoff →
  backoff <= backoff_after_failure fl cfg backoff
  ∧ within_bounds cfg (backoff_after_failure fl cfg backoff).
Proof.
  intros [Hgrow Hshrink] (Hlow & Hhigh & Hflat).
  unfold within_bounds, backoff_after_failure.
  pose proof poll_interval_floor as Hfloor.
  pose proof poll_interval_le_max as Hmax.
  assert (0 <= backoff) as Hpos by lra.
  specialize (Hgrow backoff (BACKOFF_FACTOR cfg) Hpos).
  specialize (Hshrink backoff (BACKOFF_FACTOR cfg) Hpos).
  set (POLL := POLL_INTERVAL_SEC cfg) in *.
  set (MAX := BACKOFF_MAX_SEC cfg) in *.
  set (F := BACKOFF_FACTOR cfg) in *.
  set (product := fmul fl backoff F) in *.
  destruct (Q.max_spec POLL product) as [[Ha Hb] | [Ha Hb]];
    destruct (Q.min_spec MAX (Qmax POLL product)) as [[Hc Hd] | [Hc Hd]];
    rewrite Hd; try rewrite Hb in *;
    destruct (Qlt_le_dec F 1) as [HF | HF];
    try specialize (Hflat HF);
    try specialize (Hshrink HF);
    try specialize (Hgrow HF);
    (split; [| split; [| split]]);
    first [lra | (intros HF'; first [lra | specialize (Hshrink HF'); lra])].
Qed.

Lemma jitter_is_drawn (seed : Z) :
  (0 ≤ BACKOFF_JITTER_MS cfg)%Z → is_Some (jitter fl cfg seed).
Proof.
  intros Hjitter. unfold jitter, randint.
  destruct (Z.ltb_spec (BACKOFF_JITTER_MS cfg) (- BACKOFF_JITTER_MS cfg));
    [lia | eexists; reflexivity].
Qed.

Lemma jitter_raises (seed : Z) :
  (BACKOFF_JITTER_MS cfg < 0)%Z → jitter fl cfg seed = None.
Proof.
  intros Hjitter. unfold jitter, randint.
  destruct (Z.ltb_spec (BACKOFF_JITTER_MS cfg) (- BACKOFF_JITTER_MS cfg));
    [reflexivity | lia].
Qed.

(** The backoff a probe leaves, by the way it ends. *)
Lemma backoff_after_probe (now : Q) (probe : Probe) (seed : Z)
    (state : ServiceState) :
  backoff_sec (state_after (probe_service fl cfg now probe seed state))
  = match jitter fl cfg seed with
    | Some _ =>
        if status_ok probe then POLL_INTERVAL_SEC cfg
        else backoff_after_failure fl cfg (backoff_sec state)
    | None => backoff_after_ValueError fl cfg probe (backoff_sec state)
    end.
Proof.
  destruct probe as [code ms [v r | |] | | |]; simpl;
    destruct (jitter fl cfg seed); reflexivity.
Qed.

(** The backoff of a tracked service is within the bounds. *)
Lemma reachable_within_bounds (state : ServiceState) :
  rounds_monotonically fl →
  reachable fl cfg state → within_bounds cfg (backoff_sec state).
Proof.
  intros Hfl Hreach.
  induction Hreach as [| now probe seed state Hreach IH].
  - apply within_bounds_poll_interval.
  - rewrite backoff_after_probe.
    pose proof (proj2 (failure_raises_backoff _ Hfl IH)) as Hraised.
    pose proof (proj2 (failure_raises_backoff _ Hfl
                         within_bounds_poll_interval)) as Hreset.
    pose proof (proj2 (failure_raises_backoff _ Hfl Hraised)) as Htwice.
    destruct (jitter fl cfg seed).
    + destruct (status_ok probe);
        [apply within_bounds_poll_interval | exact Hraised].
    + destruct probe as [code ms body | | |]; simpl; try exact Hraised.
      destruct (Z.eqb code 200); [exact Hreset | exact Htwice].
Qed.

(** C6, amended.  With a jitter setting that is not negative and a product
    that is rounded monotonically: for every tracked service, a probe that
    does not count as healthy (connection error, timeout, any other exception,
    any status other than 200) takes the backoff to [min(BACKOFF_MAX_SEC,
    max(POLL_INTERVAL_SEC, backoff * BACKOFF_FACTOR))], which is at least the
    backoff before and at most [BACKOFF_MAX_SEC]; a probe answered 200 resets
    it to [POLL_INTERVAL_SEC]. *)
Theorem backoff_grows_on_failure_and_resets_on_success (now : Q)
    (probe : Probe) (seed : Z) (state : ServiceState) :
  rounds_monotonically fl →
  (0 ≤ BACKOFF_JITTER_MS cfg)%Z →
  reachable fl cfg state →
  let state' := state_after (probe_service fl cfg now probe seed state) in
  (failed probe →
   backoff_sec state'
   = Qmin (BACKOFF_MAX_SEC cfg)
          (Qmax (POLL_INTERVAL_SEC cfg)
                (fmul fl (backoff_sec state) (BACKOFF_FACTOR cfg)))
   ∧ backoff_sec state <= backoff_sec state'
   ∧ backoff_sec state' <= BACKOFF_MAX_SEC cfg)
  ∧ (¬ failed probe → backoff_sec state' = POLL_INTERVAL_SEC cfg).
Proof.
  intros Hfl Hjitter Hreach state'. subst state'. rewrite backoff_after_probe.
  destruct (jitter_is_drawn seed Hjitter) as [drawn ->].
  pose proof (reachable_within_bounds state Hfl Hreach) as Hbounds.
  destruct (failure_raises_backoff _ Hfl Hbounds) as (Hup & _ & Hmax & _).
  assert (Hfailure :
    backoff_after_failure fl cfg (backoff_sec state)
    = Qmin (BACKOFF_MAX_SEC cfg)
           (Qmax (POLL_INTERVAL_SEC cfg)
                 (fmul fl (backoff_sec state) (BACKOFF_FACTOR cfg)))
    ∧ backoff_sec state <= backoff_after_failure fl cfg (backoff_sec state)
    ∧ backoff_after_failure fl cfg (backoff_sec state) <= BACKOFF_MAX_SEC cfg)
    by (split; [reflexivity | split; assumption]).
  destruct probe as [code ms body | | |]; simpl;
    try (split; [intros _; exact Hfailure | intros Hno; destruct Hno; exact I]).
  destruct (Z.eqb_spec code 200) as [-> | Hcode].
  - split; [intros Hfail; destruct Hfail; reflexivity | reflexivity].
  - split; [intros _; exact Hfailure | intros Hno; destruct Hno; exact Hcode].
Qed.

Lemma probe_service_checked (now : Q) (probe : Probe) (seed : Z)
    (state : ServiceState) :
  (0 ≤ BACKOFF_JITTER_MS cfg)%Z →
  ∃ state' report,
    probe_service fl cfg now probe seed state = Checked state' report.
Proof.
  intros Hjitter. destruct (jitter_is_drawn seed Hjitter) as [drawn Hdrawn].
  destruct probe as [code ms [v r | |] | | |]; simpl; rewrite Hdrawn;
    eexists _, _; reflexivity.
Qed.

Lemma probe_service_raises (now : Q) (probe : Probe) (seed : Z)
    (state : ServiceState) :
  (BACKOFF_JITTER_MS cfg < 0)%Z →
  probe_service fl cfg now probe seed state
  = ValueError
      (set_backoff_sec
         (backoff_after_ValueError fl cfg probe (backoff_sec state)) state).
Proof.
  intros Hjitter. pose proof (jitter_raises seed Hjitter) as Hraise.
  destruct probe as [code ms [v r | |] | | |]; simpl; rewrite Hraise;
    reflexivity.
Qed.

End Backoff.

(** ** The health monitor: the backoff window *)

Section Monitors.
Import Health HealthFacts.
Open Scope Q_scope.

Variables (fl : Float64) (cfg : Config).

Lemma setdefault_never_scheduled (service : string) (mon : Monitor) :
  never_scheduled mon → next_check_at (setdefault cfg service mon) = 0.
Proof.
  intros Hnever. unfold setdefault.
  destruct (SERVICE_STATE mon !! service) as [state |] eqn:Hstate;
    [exact (Hnever _ _ Hstate) | reflexivity].
Qed.

Lemma never_scheduled_insert (service : string) (state : ServiceState)
    (mon : Monitor) (sent : list string) :
  never_scheduled mon → next_check_at state = 0 →
  never_scheduled
    {| SERVICE_STATE := <[service := state]> (SERVICE_STATE mon);
       probes := sent |}.
Proof.
  intros Hnever Hstate other state' Hlookup. simpl in Hlookup.
  destruct (decide (service = other)) as [-> | Hne].
  - rewrite lookup_insert_eq in Hlookup. congruence.
  - rewrite lookup_insert_ne in Hlookup by exact Hne.
    exact (Hnever _ _ Hlookup).
Qed.

(** With a negative jitter setting no call schedules a check. *)
Lemma check_services_never_scheduled (env : Env) (now : Q)
    (entries : list (string * string)) (metrics : gmap string Report)
    (mon : Monitor) :
  (BACKOFF_JITTER_MS cfg < 0)%Z →
  never_scheduled mon →
  never_scheduled (check_services fl cfg env now entries metrics mon).2.
Proof.
  intros Hjitter. revert metrics mon.
  induction entries as [| [service url] rest IH]; intros metrics mon Hnever;
    [exact Hnever |].
  simpl. pose proof (setdefault_never_scheduled service mon Hnever) as Hzero.
  destruct (in_backoff_window now _).
  - apply IH, never_scheduled_insert; assumption.
  - rewrite (probe_service_raises fl cfg) by exact Hjitter. simpl.
    apply never_scheduled_insert; assumption.
Qed.

Lemma initial_monitor_never_scheduled (SERVICES : list (string * string)) :
  never_scheduled (initial_monitor cfg SERVICES).
Proof.
  intros service state Hlookup. simpl in Hlookup.
  apply elem_of_list_to_map_2, list_elem_of_fmap in Hlookup
    as (entry & Hentry & _).
  injection Hentry as _ ->. reflexivity.
Qed.

Lemma reachable_monitor_never_scheduled (SERVICES : list (string * string))
    (mon : Monitor) :
  (BACKOFF_JITTER_MS cfg < 0)%Z →
  reachable_monitor fl cfg SERVICES mon → never_scheduled mon.
Proof.
  intros Hjitter Hreach. induction Hreach as [| env now mon Hreach IH].
  - apply initial_monitor_never_scheduled.
  - apply check_services_never_scheduled; assumption.
Qed.


(** With a jitter setting that is not negative every call returns. *)
Lemma check_services_returns (env : Env) (now : Q)
    (entries : list (string * string)) (metrics : gmap string Report)
    (mon : Monitor) :
  (0 ≤ BACKOFF_JITTER_MS cfg)%Z →
  is_Some (check_services fl cfg env now entries metrics mon).1.
Proof.
  intros Hjitter. revert metrics mon.
  induction entries as [| [service url] rest IH]; intros metrics mon;
    [eexists; reflexivity |].
  simpl. destruct (in_backoff_window now _); [apply IH |].
  destruct (probe_service_checked fl cfg now (health_of env url)
              (seed_of env service) (setdefault cfg service mon) Hjitter)
    as (state' & report & ->).
  apply IH.
Qed.

End Monitors.

Section BackoffWindow.
Import Health HealthFacts.

Variables (fl : Float64) (cfg : Config) (env : Env) (now : Q)
  (service : string).

Lemma not_probed_trans (mon1 mon2 mon3 : Monitor) :
  not_probed service mon1 mon2 → not_probed service mon2 mon3 →
  not_probed service mon1 mon3.
Proof.
  intros (l1 & H1 & Hl1) (l2 & H2 & Hl2). exists (l1 ++ l2)%list. split.
  - rewrite H2, H1, app_assoc. reflexivity.
  - intros Hin. apply elem_of_app in Hin. tauto.
Qed.

Lemma not_probed_skip (mon : Monitor) (states : gmap string ServiceState) :
  not_probed service mon {| SERVICE_STATE := states; probes := probes mon |}.
Proof.
  exists []. simpl. rewrite app_nil_r.
  split; [reflexivity | apply not_elem_of_nil].
Qed.

Lemma not_probed_other (mon : Monitor) (states : gmap string ServiceState)
    (other : string) :
  other ≠ service →
  not_probed service mon
    {| SERVICE_STATE := states; probes := probes mon ++ [other] |}.
Proof.
  intros Hne. exists [other]. split; [reflexivity |].
  intros Hin. apply list_elem_of_singleton in Hin. congruence.
Qed.

(** The iterations for other services leave this one alone. *)
Lemma check_services_other (entries : list (string * string))
    (metrics : gmap string Report) (mon : Monitor) :
  service ∉ entries.*1 →
  let result := check_services fl cfg env now entries metrics mon in
  SERVICE_STATE result.2 !! service = SERVICE_STATE mon !! service
  ∧ not_probed service mon result.2
  ∧ ∀ metrics', result.1 = Some metrics' →
                metrics' !! service = metrics !! service.
Proof.
  revert metrics mon.
  induction entries as [| [other url] rest IH]; intros metrics mon Hnot.
  - simpl. split; [reflexivity |].
    split; [destruct mon; apply not_probed_skip |].
    intros metrics' [= <-]. reflexivity.
  - simpl in Hnot. apply not_elem_of_cons in Hnot as [Hne Hnot]. simpl.
    destruct (in_backoff_window now _);
      [| destruct (probe_service _ _ _ _ _ _) as [state' report | state']].
    + destruct (IH (<[other := reuse (setdefault cfg other mon)]> metrics)
                  {| SERVICE_STATE :=
                       <[other := setdefault cfg other mon]>
                         (SERVICE_STATE mon);
                     probes := probes mon |} Hnot) as (Hstate & Hprobes & Hm).
      simpl in *. rewrite lookup_insert_ne in Hstate by congruence.
      split; [exact Hstate |].
      split; [eapply not_probed_trans; [| exact Hprobes]; apply not_probed_skip
             |].
      intros metrics' Hresult. rewrite (Hm _ Hresult).
      apply lookup_insert_ne. congruence.
    + destruct (IH (<[other := report]> metrics)
                  {| SERVICE_STATE := <[other := state']> (SERVICE_STATE mon);
                     probes := probes mon ++ [other] |} Hnot)
        as (Hstate & Hprobes & Hm).
      simpl in *. rewrite lookup_insert_ne in Hstate by congruence.
      split; [exact Hstate |].
      split; [eapply not_probed_trans; [| exact Hprobes];
              apply not_probed_other; congruence |].
      intros metrics' Hresult. rewrite (Hm _ Hresult).
      apply lookup_insert_ne. congruence.
    + simpl. rewrite lookup_insert_ne by congruence.
      split; [reflexivity |].
      split; [apply not_probed_other; congruence | discriminate].
Qed.



End BackoffWindow.

(** ** The gateway: invalidation after a mutation *)

Section Invalidation.
Import Gateway.

Lemma append_cons (a : ascii) (s t : string) :
  String a s +:+ t = String a (s +:+ t).
Proof. reflexivity. Qed.

Lemma prefix_append (p s : string) : String.prefix p (p +:+ s) = true.
Proof.
  induction p as [| a p IH]; [destruct s; reflexivity |].
  rewrite append_cons. simpl.
  destruct (Ascii.ascii_dec a a); [exact IH | congruence].
Qed.

Lemma append_assoc (a b c : string) : (a +:+ b) +:+ c = a +:+ (b +:+ c).
Proof.
  induction a as [| x a IH]; [reflexivity |].
  rewrite !append_cons, IH. reflexivity.
Qed.

Lemma prefix_cancel (a p k : string) :
  String.prefix (a +:+ p) (a +:+ k) = String.prefix p k.
Proof.
  induction a as [| x a IH]; [reflexivity |].
  rewrite !append_cons. simpl.
  destruct (Ascii.ascii_dec x x); [exact IH | congruence].
Qed.

Lemma prefix_append_more (p s k : string) :
  String.prefix p k = true → String.prefix p (k +:+ s) = true.
Proof.
  revert k. induction p as [| a p IH]; intros k.
  - intros _. destruct (k +:+ s); reflexivity.
  - destruct k as [| b k]; [discriminate |].
    rewrite append_cons. simpl.
    destruct (Ascii.ascii_dec a b); [apply IH | discriminate].
Qed.

(** Every REST key that [proxy] builds for a service starts with the list
    prefix of the service: the key of the list view and the keys of the
    detail views alike. *)
Lemma rest_key_has_list_prefix (service base path query : string) :
  String.prefix (list_prefix service base)
    (rest_cache_key (_build_downstream_url base service path) query) = true.
Proof.
  unfold rest_cache_key, _build_downstream_url, list_prefix.
  destruct (String.eqb (lstrip_slash path) "");
    rewrite !append_assoc, !prefix_cancel; apply prefix_append.
Qed.

Lemma gql_key_has_gql_prefix (service args : string) :
  String.prefix (gql_prefix service) (_gql_build_cache_key service args)
  = true.
Proof.
  unfold _gql_build_cache_key, gql_prefix.
  rewrite prefix_cancel. destruct (":" +:+ args); apply prefix_append.
Qed.

Lemma purge_prefix (p key : string) (m : gmap string string) :
  String.prefix p key = true → purge p m !! key = None.
Proof.
  intros Hp. unfold purge. apply map_lookup_filter_None. right.
  intros x _. simpl. congruence.
Qed.

Lemma purge_None (p key : string) (m : gmap string string) :
  m !! key = None → purge p m !! key = None.
Proof.
  intros Hm. unfold purge. apply map_lookup_filter_None. left. exact Hm.
Qed.

Lemma absent_cache_get (key : string) (c : Cache) :
  absent key c → cache_get key c = None.
Proof.
  intros [Hlocal Hredis]. unfold cache_get.
  destruct (redis_client c) as [r |]; [| exact Hlocal].
  destruct (reachable r); [| exact Hlocal].
  rewrite Hredis by reflexivity. exact Hlocal.
Qed.

Lemma delete_prefix_keeps_absent (key p : string) (c : Cache) :
  absent key c → absent key (delete_prefix c p).
Proof.
  intros [Hlocal Hredis]. split; simpl.
  - apply purge_None, Hlocal.
  - destruct (redis_client c) as [r |]; [| exact I].
    destruct (reachable r) eqn:Hr; simpl.
    + intros _. apply purge_None. auto.
    + rewrite Hr. discriminate.
Qed.

Lemma delete_prefix_absent (key p : string) (c : Cache) :
  String.prefix p key = true → absent key (delete_prefix c p).
Proof.
  intros Hp. split; simpl.
  - apply purge_prefix, Hp.
  - destruct (redis_client c) as [r |]; [| exact I].
    destruct (reachable r) eqn:Hr; simpl.
    + intros _. apply purge_prefix, Hp.
    + rewrite Hr. discriminate.
Qed.

Lemma cache_delete_pattern_keeps_absent (key : string)
    (patterns : list string) (c : Cache) :
  absent key c → absent key (cache_delete_pattern patterns c).
Proof.
  revert c. induction patterns as [| p patterns IH]; intros c Hc; simpl.
  - exact Hc.
  - apply IH, delete_prefix_keeps_absent, Hc.
Qed.

Lemma cache_delete_pattern_absent (key : string) (patterns : list string)
    (c : Cache) :
  (∃ p, p ∈ patterns ∧ String.prefix p key = true) →
  absent key (cache_delete_pattern patterns c).
Proof.
  revert c. induction patterns as [| p patterns IH]; intros c (q & Hq & Hp).
  - apply elem_of_nil in Hq. destruct Hq.
  - simpl. apply elem_of_cons in Hq as [-> | Hq].
    + apply cache_delete_pattern_keeps_absent, delete_prefix_absent, Hp.
    + apply IH. eauto.
Qed.

Lemma _invalidate_caches_absent (service base key : string)
    (entity_id : option N) (c : Cache) :
  key_of_resource service base key →
  absent key (_invalidate_caches service base entity_id c).
Proof.
  intros Hkey. unfold _invalidate_caches.
  destruct entity_id as [n |]; apply cache_delete_pattern_absent;
    destruct Hkey as [Hkey | Hkey]; eexists; (split; [| exact Hkey]);
    set_solver.
Qed.

Lemma is_mutating_not_get (m : string) :
  is_mutating m = true → String.eqb m "GET" = false.
Proof.
  unfold is_mutating, str_in; simpl. rewrite !orb_true_iff, !String.eqb_eq.
  intros [-> | [-> | [-> | [-> | Hnone]]]]; try reflexivity; discriminate.
Qed.

(** The cache after [proxy] has forwarded a mutating request. *)
Lemma proxy_mutating_cache (service base path : string) (request : Request)
    (resp : DownstreamResponse) (c : Cache) :
  SERVICE_MAP !! service = Some base →
  is_mutating (method request) = true →
  (proxy service path request (Some resp) c).2
  = if (status_code resp <? 400)%Z
    then _invalidate_caches service base (entity_id_of path) c
    else c.
Proof.
  intros Hbase Hmut. unfold proxy.
  rewrite Hbase, (is_mutating_not_get _ Hmut), Hmut. simpl.
  destruct (status_code resp <? 400)%Z, (Z.eqb (status_code resp) 204),
    (String.prefix "application/json" (content_type resp)), (json resp);
    reflexivity.
Qed.

End Invalidation.

Section ProxyInvalidation.
Import Gateway.

(** C4, amended.  When [proxy] forwards a POST, PUT, PATCH or DELETE for a
    service and the downstream status is below 400, every key of the list
    view, of a detail view or of a GraphQL view of that service is gone from
    the local tier, and from the shared tier if that tier is reachable, so a
    read in the resulting cache misses and a following GET through [proxy]
    is not answered from the cache; when the status is 400 or more, the
    cache is left exactly as it was. *)
Theorem confirmed_mutation_invalidates_the_resource
    (service base path : string) (request : Request)
    (resp : DownstreamResponse) (c : Cache) :
  SERVICE_MAP !! service = Some base →
  is_mutating (method request) = true →
  let c' := (proxy service path request (Some resp) c).2 in
  ((status_code resp < 400)%Z →
   (∀ key, key_of_resource service base key →
           absent key c' ∧ cache_get key c' = None)
   ∧ (∀ any_path query,
        cache_get
          (rest_cache_key (_build_downstream_url base service any_path) query)
          c' = None)
   ∧ (∀ args, cache_get (_gql_build_cache_key service args) c' = None)
   ∧ (∀ any_path query later data,
        (proxy service any_path
               {| method := "GET"; query_params := query |} later c').1
        ≠ Cached data))
  ∧ ((400 ≤ status_code resp)%Z → c' = c).
Proof.
  intros Hbase Hmut c'. subst c'.
  rewrite (proxy_mutating_cache _ _ _ _ _ _ Hbase Hmut).
  split.
  - intros Hok. apply Z.ltb_lt in Hok. rewrite Hok.
    set (c' := _invalidate_caches service base (entity_id_of path) c).
    assert (Hkeys : ∀ key, key_of_resource service base key →
                           absent key c' ∧ cache_get key c' = None).
    { intros key Hkey.
      pose proof (_invalidate_caches_absent service base key
                    (entity_id_of path) c Hkey) as Habsent.
      split; [exact Habsent | apply absent_cache_get, Habsent]. }
    assert (Hrest : ∀ any_path query,
      cache_get
        (rest_cache_key (_build_downstream_url base service any_path) query)
        c' = None).
    { intros any_path query. apply Hkeys. left.
      apply rest_key_has_list_prefix. }
    split; [exact Hkeys |]. split; [exact Hrest |]. split.
    + intros args. apply Hkeys. right. apply gql_key_has_gql_prefix.
    + intros any_path query later data. unfold proxy. rewrite Hbase. simpl.
      rewrite Hrest.
      destruct later as [r |]; [| discriminate].
      destruct (Z.eqb (status_code r) 204); [discriminate |].
      destruct (String.prefix "application/json" (content_type r));
        [| discriminate].
      destruct (json r); discriminate.
  - intros Hfail. apply Z.ltb_ge in Hfail. rewrite Hfail. reflexivity.
Qed.

End ProxyInvalidation.

(** ** The monitor and gateway theorems at concrete inputs *)

Section MonitorWitnesses.
Import Health HealthFacts Scenarios.
Open Scope Q_scope.

(** Arithmetic without rounding error rounds monotonically. *)
Lemma exact_rounds_monotonically : rounds_monotonically exact.
Proof. split; intros b f Hb Hf; simpl; nra. Qed.

Lemma backoff_grows_on_failure_and_resets_on_success_witness :
  let state := initial_state default_config in
  let state' :=
    state_after (probe_service exact default_config 0 ConnectError 0 state) in
  backoff_sec state <= backoff_sec state' ∧ backoff_sec state' <= 30.
Proof.
  destruct (backoff_grows_on_failure_and_resets_on_success exact
              default_config 0 ConnectError 0 (initial_state default_config))
    as [Hfailure _].
  - exact exact_rounds_monotonically.
  - simpl. lia.
  - apply reachable_initial.
  - destruct Hfailure as (_ & Hup & Hmax); [exact I |].
    split; [exact Hup | exact Hmax].
Defined.


End MonitorWitnesses.

Section ResilienceWitnesses.
Import Scenarios.

Lemma confirmed_mutation_invalidates_the_resource_witness :
  let c' :=
    (Gateway.proxy "orders" "5" put_request (Some (json_answer 200 "{}"))
                   warm_cache).2 in
  Gateway.cache_get "rest:GET:http://orders:8000/orders/:" warm_cache
  = Some "[{}]"
  ∧ Gateway.cache_get "rest:GET:http://orders:8000/orders/:" c' = None
  ∧ Gateway.cache_get "rest:GET:http://orders:8000/orders/5:" c' = None
  ∧ Gateway.cache_get "gql:orders:{}" c' = None.
Proof.
  destruct (confirmed_mutation_invalidates_the_resource
              "orders" "http://orders:8000" "5" put_request
              (json_answer 200 "{}") warm_cache) as [Hok _].
  - reflexivity.
  - reflexivity.
  - destruct Hok as (_ & Hrest & Hgql & _); [reflexivity |].
    split; [reflexivity |].
    split; [exact (Hrest "" "") |].
    split; [exact (Hrest "5" "") | exact (Hgql "{}")].
Defined.

End ResilienceWitnesses.

(** ** The monitor and the gateway run on concrete inputs *)

Section MonitorRuns.
Import Health Scenarios.
Open Scope Q_scope.

(** C6 as stated fails.  With the default configuration a first probe
    answered 204, a 2xx status, does not reset the backoff to the poll
    interval of 2 seconds: it doubles it (2.0 * 2.0 is 4.0 without rounding
    error). *)
Lemma other_2xx_answer_does_not_reset_the_backoff :
  let state := initial_state default_config in
  let state' :=
    state_after
      (probe_service exact default_config 0 (Responded 204 5 NotJson) 0
                     state) in
  POLL_INTERVAL_SEC default_config = 2
  ∧ backoff_sec state = 2
  ∧ backoff_sec state' = 4
  ∧ last_status state' = Some "unhealthy".
Proof. vm_compute. repeat split. Qed.

End MonitorRuns.

Section ResilienceRuns.
Import Scenarios.

(** C4 as stated fails.  A GET caches the list of the orders in the shared
    tier; the shared tier stops answering; a PUT on order 5 is confirmed with
    200 and its invalidation of the shared tier is swallowed; the shared tier
    answers again, and the next GET of the list is served the value cached
    before the PUT. *)
Lemma stale_entry_survives_a_shared_tier_outage :
  let c1 :=
    (Gateway.proxy "orders" "" get_request (Some (json_answer 200 "[old]"))
                   cold_cache).2 in
  let c2 :=
    (Gateway.proxy "orders" "5" put_request (Some (json_answer 200 "{}"))
                   (Gateway.redis_goes_down c1)).2 in
  (Gateway.proxy "orders" "" get_request (Some (json_answer 200 "[new]"))
                 (Gateway.redis_recovers c2)).1
  = Gateway.Cached "[old]".
Proof. vm_compute. reflexivity. Qed.

End ResilienceRuns.

(** * Further properties of the code *)

(** ** The orders service: frame, retries, traces *)

Section OrdersMore.
Import Orders OrdersTrace.

Lemma apply_update_idempotent (payload : OrderUpdate) (order : Order) :
  apply_update payload (apply_update payload order)
  = apply_update payload order.
Proof.
  unfold apply_update. destruct order; simpl.
  destruct (upd_order_status payload), (upd_payment_status payload),
    (upd_payment_id payload), (upd_receipt_id payload); reflexivity.
Qed.

Lemma update_order_cases (order_id : Z) (payload : OrderUpdate)
    (d : gmap Z Order) :
  (d !! order_id = None
   ∧ update_order order_id payload d
     = (HTTPException 404 "Order not found", d))
  ∨ (∃ order, d !! order_id = Some order
       ∧ payment_finalized order && touching_payment_fields payload = true
       ∧ update_order order_id payload d
         = (HTTPException 403 detail_update_forbidden, d))
  ∨ (∃ order, d !! order_id = Some order
       ∧ payment_finalized order && touching_payment_fields payload = false
       ∧ update_order order_id payload d
         = (Ok 200 (apply_update payload order),
            <[order_id := apply_update payload order]> d)).
Proof.
  unfold update_order, update, get.
  destruct (d !! order_id) as [order |] eqn:Hget; [| left; auto].
  right.
  destruct (payment_finalized order && touching_payment_fields payload)
    eqn:Hguard; [left | right]; exists order; auto.
Qed.

Lemma delete_order_cases (order_id : Z) (d : gmap Z Order) :
  (d !! order_id = None
   ∧ delete_order order_id d = (HTTPException 404 "Order not found", d))
  ∨ (∃ order, d !! order_id = Some order ∧ payment_finalized order = true
       ∧ delete_order order_id d
         = (HTTPException 403 detail_delete_forbidden, d))
  ∨ (∃ order, d !! order_id = Some order ∧ payment_finalized order = false
       ∧ delete_order order_id d = (Ok 204 tt, delete order_id d)).
Proof.
  unfold delete_order.
  destruct (d !! order_id) as [order |] eqn:Hget; [| left; auto].
  right. destruct (payment_finalized order) eqn:Hfin; [left | right];
    exists order; auto.
Qed.

Lemma update_order_frame (d : gmap Z Order) (order_id other : Z)
    (payload : OrderUpdate) :
  other ≠ order_id →
  (update_order order_id payload d).2 !! other = d !! other.
Proof.
  intros Hne.
  destruct (update_order_cases order_id payload d)
    as [[_ ->] | [(o & _ & _ & ->) | (o & _ & _ & ->)]]; simpl; auto.
  apply lookup_insert_ne. congruence.
Qed.

Lemma delete_order_frame (d : gmap Z Order) (order_id other : Z) :
  other ≠ order_id →
  (delete_order order_id d).2 !! other = d !! other.
Proof.
  intros Hne.
  destruct (delete_order_cases order_id d)
    as [[_ ->] | [(o & _ & _ & ->) | (o & _ & _ & ->)]]; simpl; auto.
  apply lookup_delete_ne. congruence.
Qed.

(** X1.  An update or a delete of one order never touches another row of
    the table, whatever it is answered. *)
Theorem orders_writes_touch_one_row (d : gmap Z Order) (order_id other : Z)
    (payload : OrderUpdate) :
  other ≠ order_id →
  (update_order order_id payload d).2 !! other = d !! other
  ∧ (delete_order order_id d).2 !! other = d !! other.
Proof.
  intros Hne. split.
  - apply update_order_frame, Hne.
  - apply delete_order_frame, Hne.
Qed.

(** X2.  An update that is answered with an order is answered 200, and a
    read of that order afterwards gives the answered order. *)
Theorem update_then_get_order (d d' : gmap Z Order) (order_id code : Z)
    (payload : OrderUpdate) (answered : Order) :
  update_order order_id payload d = (Ok code answered, d') →
  code = 200 ∧ get_order order_id d' = Ok 200 answered.
Proof.
  intros Hupd.
  destruct (update_order_cases order_id payload d)
    as [[_ H] | [(o & _ & _ & H) | (o & _ & _ & H)]];
    rewrite H in Hupd; try discriminate.
  injection Hupd as <- <- <-. split; [reflexivity |].
  unfold get_order, get. rewrite lookup_insert_eq. reflexivity.
Qed.

(** X3.  Sending the same update a second time leaves the table as the
    first one left it, whatever the two are answered. *)
Theorem update_order_retry_is_harmless (d : gmap Z Order) (order_id : Z)
    (payload : OrderUpdate) :
  (update_order order_id payload (update_order order_id payload d).2).2
  = (update_order order_id payload d).2.
Proof.
  destruct (update_order_cases order_id payload d)
    as [[_ H] | [(o & _ & _ & H) | (o & Hget & _ & H)]]; rewrite H; simpl;
    try (rewrite H; reflexivity).
  set (o' := apply_update payload o).
  destruct (update_order_cases order_id payload (<[order_id := o']> d))
    as [[_ H'] | [(o2 & _ & _ & H') | (o2 & Hget2 & _ & H')]]; rewrite H';
    simpl; try reflexivity.
  rewrite lookup_insert_eq in Hget2. injection Hget2 as <-.
  subst o'. rewrite apply_update_idempotent, insert_insert_eq. reflexivity.
Qed.

(** X4.  The delete of an order whose payment is neither COMPLETED nor
    FAILED is answered 204; afterwards a read, an update and a second delete
    of that order are all answered 404. *)
Theorem deleted_order_is_gone (d : gmap Z Order) (order_id : Z)
    (order : Order) (payload : OrderUpdate) :
  d !! order_id = Some order →
  payment_finalized order = false →
  let d' := (delete_order order_id d).2 in
  (delete_order order_id d).1 = Ok 204 tt
  ∧ get_order order_id d' = HTTPException 404 "Order not found"
  ∧ update_order order_id payload d'
    = (HTTPException 404 "Order not found", d')
  ∧ delete_order order_id d' = (HTTPException 404 "Order not found", d').
Proof.
  intros Hget Hfin d'. subst d'.
  assert (Hdel : delete_order order_id d = (Ok 204 tt, delete order_id d)).
  { unfold delete_order. rewrite Hget, Hfin. reflexivity. }
  rewrite Hdel. simpl.
  unfold get_order, get, update_order, delete_order.
  rewrite lookup_delete_eq. auto.
Qed.

Lemma apply_op_keeps_finalized (d : gmap Z Order) (order_id : Z)
    (order : Order) (op : Op) :
  d !! order_id = Some order →
  payment_finalized order = true →
  ∃ order', apply_op d op !! order_id = Some order'
            ∧ payment_fields order' = payment_fields order.
Proof.
  intros Hget Hfin. destruct op as [id payload | id]; simpl.
  - destruct (decide (id = order_id)) as [-> | Hne].
    + destruct (update_order_cases order_id payload d)
        as [[_ H] | [(o & _ & _ & H) | (o & Hget' & Hguard & H)]];
        rewrite H; simpl; eauto.
      rewrite Hget in Hget'. injection Hget' as <-.
      rewrite Hfin in Hguard. simpl in Hguard.
      rewrite lookup_insert_eq. eexists. split; [reflexivity |].
      unfold touching_payment_fields in Hguard.
      unfold payment_fields, apply_update; simpl.
      destruct (upd_payment_status payload), (upd_payment_id payload),
        (upd_receipt_id payload); try discriminate. reflexivity.
    + exists order. split; [| reflexivity].
      rewrite <- Hget.
      apply update_order_frame. congruence.
  - destruct (decide (id = order_id)) as [-> | Hne].
    + destruct (delete_order_cases order_id d)
        as [[_ H] | [(o & _ & _ & H) | (o & Hget' & Hfin' & H)]];
        rewrite H; simpl; eauto.
      rewrite Hget in Hget'. injection Hget' as <-. congruence.
    + exists order. split; [| reflexivity].
      rewrite <- Hget.
      apply delete_order_frame. congruence.
Qed.

End OrdersMore.

Section OrdersTraces.
Import Orders OrdersTrace Scenarios.

(** X5.  Once the payment of an order is COMPLETED or FAILED, no sequence
    of updates and deletes sent to the orders service removes the order or
    changes its payment_status, payment_id or receipt_id. *)
Theorem finalized_payment_survives_every_trace (ops : list Op)
    (d : gmap Z Order) (order_id : Z) (order : Order) :
  d !! order_id = Some order →
  payment_finalized order = true →
  ∃ order', run ops d !! order_id = Some order'
            ∧ payment_fields order' = payment_fields order.
Proof.
  revert d order. induction ops as [| op ops IH]; intros d order Hget Hfin.
  - exists order. auto.
  - simpl.
    destruct (apply_op_keeps_finalized d order_id order op Hget Hfin)
      as (o1 & Hget1 & Hsame1).
    assert (Hfin1 : payment_finalized o1 = true).
    { unfold payment_finalized in *. injection Hsame1 as -> _ _.
      exact Hfin. }
    destruct (IH _ _ Hget1 Hfin1) as (o2 & Hget2 & Hsame2).
    exists o2. split; [exact Hget2 | congruence].
Qed.

Lemma orders_writes_touch_one_row_witness :
  (update_order 1 (mkOrderUpdate (Some "SHIPPED") None None None)
     (<[ 1 := paid_order ]> {[ 2 := new_order 2 ]})).2 !! 2
  = Some (new_order 2).
Proof.
  destruct (orders_writes_touch_one_row
              (<[ 1 := paid_order ]> {[ 2 := new_order 2 ]}) 1 2
              (mkOrderUpdate (Some "SHIPPED") None None None)) as [H _].
  - discriminate.
  - rewrite H. reflexivity.
Defined.

Lemma update_then_get_order_witness :
  get_order 2
    (update_order 2 (mkOrderUpdate (Some "PROCESSING") (Some "COMPLETED")
                                   (Some "pay_9") None)
                  {[ 2 := new_order 2 ]}).2
  = Ok 200 {| id := 2; customer_id := 7; order_status := "PROCESSING";
              payment_status := "COMPLETED"; payment_id := Some "pay_9";
              receipt_id := None |}.
Proof.
  destruct (update_then_get_order {[ 2 := new_order 2 ]}
              (update_order 2 (mkOrderUpdate (Some "PROCESSING")
                                 (Some "COMPLETED") (Some "pay_9") None)
                            {[ 2 := new_order 2 ]}).2
              2 200
              (mkOrderUpdate (Some "PROCESSING") (Some "COMPLETED")
                             (Some "pay_9") None)
              {| id := 2; customer_id := 7; order_status := "PROCESSING";
                 payment_status := "COMPLETED"; payment_id := Some "pay_9";
                 receipt_id := None |}) as [_ H].
  - reflexivity.
  - exact H.
Defined.

Lemma deleted_order_is_gone_witness :
  (delete_order 2 {[ 2 := new_order 2 ]}).1 = Ok 204 tt
  ∧ get_order 2 (delete_order 2 {[ 2 := new_order 2 ]}).2
    = HTTPException 404 "Order not found".
Proof.
  destruct (deleted_order_is_gone {[ 2 := new_order 2 ]} 2 (new_order 2)
              (mkOrderUpdate None None None None)) as (H1 & H2 & _).
  - reflexivity.
  - reflexivity.
  - split; [exact H1 | exact H2].
Defined.

Lemma finalized_payment_survives_every_trace_witness :
  ∃ order',
    run [Update 1 (mkOrderUpdate (Some "CANCELLED") None None None);
         Update 1 (mkOrderUpdate None (Some "PENDING") None None);
         Delete 1]
        {[ 1 := paid_order ]} !! 1 = Some order'
    ∧ payment_fields order' = ("COMPLETED", Some "pay_1", None).
Proof.
  apply (finalized_payment_survives_every_trace _ {[ 1 := paid_order ]} 1
           paid_order); reflexivity.
Defined.

End OrdersTraces.

(** ** The shipments service: keys, defaults, updates *)

Section ShipmentsMore.
Import Shipments ShipmentsKeys.

Lemma or_default_not_empty (x : option string) (fallback : string) :
  fallback ≠ "" → or_default x fallback ≠ "".
Proof.
  intros Hfallback. unfold or_default. destruct x as [s |]; [| exact Hfallback].
  destruct (String.eqb_spec s ""); assumption.
Qed.

(** X7.  Whatever the request body leaves out or sends empty, the shipment
    that [create] stores has a status, a carrier and a tracking number that
    are not empty; a body without status gives a PENDING shipment. *)
Theorem created_shipment_has_no_empty_column (now : Z)
    (data : ShipmentCreate) (d : db) :
  let obj := (create now data d).1 in
  status obj ≠ "" ∧ carrier obj ≠ "" ∧ tracking_no obj ≠ ""
  ∧ order_id obj = new_order_id data
  ∧ (truthy (new_status data) = false → status obj = "PENDING").
Proof.
  simpl. repeat split.
  - apply or_default_not_empty. discriminate.
  - apply or_default_not_empty. discriminate.
  - apply or_default_not_empty. unfold tracking_number. discriminate.
  - unfold truthy, or_default. destruct (new_status data) as [s |]; auto.
    destruct (String.eqb s ""); [reflexivity | discriminate].
Qed.

Lemma find_by_id_app_fresh (rows0 : list Shipment) (obj : Shipment)
    (next : Z) (sid : Z) :
  Forall (fun s => (id s < next)%Z) rows0 →
  id obj = next →
  List.find (fun s => Z.eqb (id s) sid) (rows0 ++ [obj])
  = if decide (sid = next) then Some obj
    else List.find (fun s => Z.eqb (id s) sid) rows0.
Proof.
  intros Hbelow Hobj. induction Hbelow as [| s rows0 Hs _ IH]; simpl.
  - rewrite Hobj. destruct (Z.eqb_spec next sid), (decide (sid = next));
      congruence.
  - destruct (Z.eqb_spec (id s) sid) as [Heq | Hne].
    + destruct (decide (sid = next)); [lia | reflexivity].
    + exact IH.
Qed.

(** X6.  In a table with unique keys below the next key, [create] appends
    one row under a key no row had, keeps the keys unique, the new row is
    found under its key, and every other lookup is as before. *)
Theorem create_stores_under_a_fresh_key (now : Z) (data : ShipmentCreate)
    (d : db) :
  well_keyed d →
  let obj := (create now data d).1 in
  let d' := (create now data d).2 in
  rows d' = (rows d ++ [obj])%list
  ∧ (id obj ∉ (id <$> rows d))
  ∧ well_keyed d'
  ∧ find_by_id (id obj) d' = Some obj
  ∧ ∀ sid, sid ≠ id obj → find_by_id sid d' = find_by_id sid d.
Proof.
  intros [Hnodup Hbelow]. simpl.
  set (obj := {| id := next_id d |}).
  assert (Hfresh : next_id d ∉ (id <$> rows d)).
  { intros Hin. apply list_elem_of_fmap in Hin as (s & Hid & Hs).
    rewrite Forall_forall in Hbelow. specialize (Hbelow s Hs). lia. }
  split; [reflexivity |]. split; [exact Hfresh |]. split; [| split].
  - split; simpl.
    + rewrite fmap_app. apply NoDup_app. split; [exact Hnodup |].
      split; [| apply NoDup_singleton].
      intros x Hx Hx'. apply list_elem_of_singleton in Hx'. subst x.
      exact (Hfresh Hx).
    + apply Forall_app. split.
      * eapply Forall_impl; [exact Hbelow |]. simpl. intros; lia.
      * constructor; [simpl; lia | constructor].
  - unfold find_by_id. simpl.
    rewrite (find_by_id_app_fresh _ obj (next_id d)) by auto.
    destruct (decide (next_id d = next_id d)); [reflexivity | congruence].
  - intros sid Hsid. unfold find_by_id. simpl.
    rewrite (find_by_id_app_fresh _ obj (next_id d)) by auto.
    simpl in Hsid. destruct (decide (sid = next_id d)); [congruence | auto].
Qed.

Lemma replace_row_ids (s' : Shipment) (l : list Shipment) :
  id <$> replace_row s' l = id <$> l.
Proof.
  induction l as [| s l IH]; [reflexivity |].
  unfold replace_row in *. rewrite !fmap_cons, <- IH.
  rewrite <- !list_fmap_compose in *.
  destruct (Z.eqb_spec (id s) (id s')); f_equal; congruence.
Qed.

Lemma replace_row_below (s' : Shipment) (l : list Shipment) (next : Z) :
  Forall (fun s => (id s < next)%Z) l →
  Forall (fun s => (id s < next)%Z) (replace_row s' l).
Proof.
  intros H. apply Forall_fmap. eapply Forall_impl; [exact H |].
  simpl. intros s Hs. destruct (Z.eqb_spec (id s) (id s')); simpl; lia.
Qed.

Lemma find_by_id_Some (sid : Z) (d : db) (s : Shipment) :
  find_by_id sid d = Some s → s ∈ rows d ∧ id s = sid.
Proof.
  unfold find_by_id. intros H. apply find_some in H as [Hin Hid].
  split; [apply list_elem_of_In, Hin | apply Z.eqb_eq, Hid].
Qed.

Lemma unique_key (l : list Shipment) (s1 s2 : Shipment) :
  NoDup (id <$> l) → s1 ∈ l → s2 ∈ l → id s1 = id s2 → s1 = s2.
Proof.
  induction l as [| s l IH]; simpl; intros Hnodup H1 H2 Hid.
  - apply elem_of_nil in H1. destruct H1.
  - apply NoDup_cons in Hnodup as [Hs Hnodup].
    apply elem_of_cons in H1 as [-> | H1]; apply elem_of_cons in H2 as [-> | H2].
    + reflexivity.
    + destruct Hs. rewrite Hid. apply list_elem_of_fmap. eauto.
    + destruct Hs. rewrite <- Hid. apply list_elem_of_fmap. eauto.
    + auto.
Qed.

Lemma find_replace_row (s' : Shipment) (l : list Shipment) (sid : Z) :
  List.find (fun s => Z.eqb (id s) sid) (replace_row s' l)
  = if Z.eqb (id s') sid
    then ((fun _ => s') <$> List.find (fun s => Z.eqb (id s) sid) l)
    else List.find (fun s => Z.eqb (id s) sid) l.
Proof.
  induction l as [| s l IH]; simpl.
  - destruct (Z.eqb (id s') sid); reflexivity.
  - destruct (Z.eqb_spec (id s) (id s')) as [Heq | Hne]; simpl.
    + rewrite Heq, IH.
      destruct (Z.eqb (id s') sid); reflexivity.
    + rewrite IH.
      destruct (Z.eqb_spec (id s) sid) as [Hsid | Hsid];
        destruct (Z.eqb_spec (id s') sid); try reflexivity; congruence.
Qed.

Lemma fixed_columns_set_fields (data : ShipmentUpdate) (s : Shipment) :
  fixed_columns (set_fields data s) = fixed_columns s.
Proof. reflexivity. Qed.

Lemma replace_row_fixed_columns (data : ShipmentUpdate) (s0 : Shipment)
    (l : list Shipment) :
  (∀ s, s ∈ l → id s = id s0 → s = s0) →
  fixed_columns <$> replace_row (set_fields data s0) l = fixed_columns <$> l.
Proof.
  induction l as [| s l IH]; intros Hunique; [reflexivity |].
  unfold replace_row in *. simpl List.map. rewrite !fmap_cons. f_equal.
  - simpl. destruct (Z.eqb_spec (id s) (id s0)) as [Heq | Hne];
      [| reflexivity].
    rewrite (Hunique s) by (auto; left). reflexivity.
  - apply IH. intros s1 H1. apply Hunique. right. exact H1.
Qed.

(** X8.  In a table with unique keys, an update never changes the key, the
    order or the shipped_at of any row, nor the number of rows; an unknown
    key is answered 404 with the table untouched; a known key is answered 200
    with the row after the update, which is what a lookup then finds, and
    the rows under other keys are found as before. *)
Theorem update_keeps_the_fixed_columns (shipment_id : Z)
    (data : ShipmentUpdate) (d : db) :
  well_keyed d →
  let answer := (update shipment_id data d).1 in
  let d' := (update shipment_id data d).2 in
  fixed_columns <$> rows d' = fixed_columns <$> rows d
  ∧ well_keyed d'
  ∧ (find_by_id shipment_id d = None →
     answer = HTTPException 404 "Shipment not found" ∧ d' = d)
  ∧ (∀ s, find_by_id shipment_id d = Some s →
          answer = Ok 200 (set_fields data s)
          ∧ find_by_id shipment_id d' = Some (set_fields data s)
          ∧ ∀ other, other ≠ shipment_id →
                     find_by_id other d' = find_by_id other d).
Proof.
  intros [Hnodup Hbelow]. simpl. unfold update.
  destruct (find_by_id shipment_id d) as [s0 |] eqn:Hfind; simpl.
  2: { split; [reflexivity |]. split; [split; assumption |].
       split; [auto | discriminate]. }
  destruct (find_by_id_Some _ _ _ Hfind) as [Hin Hid].
  split; [| split; [| split]].
  - apply replace_row_fixed_columns. intros s Hs Hids.
    eapply unique_key; eauto.
  - split; simpl.
    + rewrite replace_row_ids. exact Hnodup.
    + apply replace_row_below, Hbelow.
  - discriminate.
  - intros s [= <-]. split; [reflexivity |]. split.
    + unfold find_by_id in *. simpl. rewrite find_replace_row. simpl.
      rewrite Hid, Z.eqb_refl, Hfind. reflexivity.
    + intros other Hother. unfold find_by_id. simpl.
      rewrite find_replace_row. simpl.
      destruct (Z.eqb_spec (id s0) other); [congruence | reflexivity].
Qed.

End ShipmentsMore.

Section ShipmentsWitnesses.
Import Shipments ShipmentsKeys.

Lemma well_keyed_empty : well_keyed empty_db.
Proof. split; [apply NoDup_nil_2 | constructor]. Qed.

Lemma create_stores_under_a_fresh_key_witness :
  let data := mkShipmentCreate 7 None None None None None in
  find_by_id 1 (create 1700000000 data empty_db).2
  = Some {| id := 1; order_id := 7; carrier := "Standard Delivery";
            status := "PENDING"; tracking_no := "TRK71700000000";
            shipped_at := "1700000000"; delivered_at := None |}.
Proof.
  destruct (create_stores_under_a_fresh_key 1700000000
              (mkShipmentCreate 7 None None None None None) empty_db)
    as (_ & _ & _ & Hfind & _).
  - exact well_keyed_empty.
  - exact Hfind.
Defined.

Lemma update_keeps_the_fixed_columns_witness :
  let d :=
    (create 1700000000 (mkShipmentCreate 7 None None None None None)
            empty_db).2 in
  let d' :=
    (update 1 (mkShipmentUpdate (Some "IN_TRANSIT") None None None) d).2 in
  fixed_columns <$> rows d' = [(1, 7, "1700000000")]
  ∧ status <$> rows d' = ["IN_TRANSIT"].
Proof.
  destruct (update_keeps_the_fixed_columns 1
              (mkShipmentUpdate (Some "IN_TRANSIT") None None None)
              (create 1700000000
                 (mkShipmentCreate 7 None None None None None) empty_db).2)
    as (Hfixed & _).
  - split; simpl.
    + apply NoDup_singleton.
    + repeat constructor.
  - split; [exact Hfixed | reflexivity].
Defined.

End ShipmentsWitnesses.

(** ** The saga: what it leaves alone *)

Section SagaFrame.
Import Dashboard SagaFacts.

(** A request keeps an invariant that neither its departure nor its handler
    breaks. *)
Lemma keeps_request {A} (c : Call) (serve : World → Response A * World)
    (I : World → Prop) :
  (∀ w, I w → I (sent c w)) →
  (∀ w, I w → I (serve w).2) →
  keeps I (request c serve).
Proof.
  intros Hsent Hserve. apply hoare_request.
  - intros w Hw. apply Hserve, Hsent, Hw.
  - intros w msg Hw. apply Hsent, Hw.
  - intros w code detail Hw _. apply Hsent, Hw.
Qed.

Lemma keeps_add_activity act ety eid usr det (I : World → Prop) :
  (∀ w feed logs, I w → I (set_activity feed logs w)) →
  keeps I (add_activity act ety eid usr det).
Proof. intros H. apply hoare_add_activity. intros; apply H; assumption. Qed.

Variables (w0 : World) (order_id : Z).

Lemma others_sent (c : Call) (w : World) :
  others_as_in w0 order_id w → others_as_in w0 order_id (sent c w).
Proof. intros H. exact H. Qed.

Lemma others_set_activity feed logs (w : World) :
  others_as_in w0 order_id w →
  others_as_in w0 order_id (set_activity feed logs w).
Proof. intros H. exact H. Qed.

Lemma others_serve_PUT_order (body : Orders.OrderUpdate) (w : World) :
  others_as_in w0 order_id w →
  others_as_in w0 order_id (serve_PUT_order order_id body w).2.
Proof.
  intros [Horders Hcustomers]. unfold serve_PUT_order.
  pose proof (fun other => update_order_frame (orders_db w) order_id other
                                              body) as Hframe.
  destruct (Orders.update_order order_id body (orders_db w)) as [r d].
  split; simpl in *; [| exact Hcustomers].
  intros other Hother. rewrite (Hframe other Hother). auto.
Qed.

Lemma others_serve_POST_shipment (body : ShipmentData) (w : World) :
  others_as_in w0 order_id w →
  others_as_in w0 order_id (serve_POST_shipment body w).2.
Proof. intros H. exact H. Qed.

Lemma others_serve_PUT_shipment (sid : Z) (body : ShipmentPatch)
    (w : World) :
  others_as_in w0 order_id w →
  others_as_in w0 order_id (serve_PUT_shipment sid body w).2.
Proof.
  intros H. unfold serve_PUT_shipment.
  destruct (Shipments.update _ _ _). exact H.
Qed.

Ltac keeps_others :=
  repeat first
    [ apply keeps_ret
    | apply keeps_utcnow
    | apply keeps_add_activity; intros; apply others_set_activity; assumption
    | apply keeps_request;
      [ intros; apply others_sent; assumption
      | first [ apply others_serve_PUT_order
              | apply others_serve_POST_shipment
              | apply others_serve_PUT_shipment
              | (intros ? H; exact H) ] ]
    | apply keeps_try_except; [| intros ?]
    | apply keeps_bind; [| intros ?]
    | match goal with
      | |- keeps _ (match ?x with _ => _ end) => destruct x
      end ].

Lemma process_payment_others (payment_action : PaymentAction)
    (user : User) :
  keeps (others_as_in w0 order_id)
        (process_payment order_id payment_action user).
Proof.
  unfold process_payment.
  destruct (negb (String.eqb (role user) ADMIN)).
  - intros w Hw. exact Hw.
  - unfold approve, decline, put_order, get_order, get_customers,
      post_shipment. keeps_others.
Qed.

Lemma update_order_status_others (status_data : Orders.OrderUpdate)
    (user : User) :
  keeps (others_as_in w0 order_id)
        (update_order_status order_id status_data user).
Proof.
  unfold update_order_status.
  destruct (negb (String.eqb (role user) ADMIN)).
  - intros w Hw. exact Hw.
  - unfold handle_shipment, ship, put_order, get_order, get_customers,
      get_shipments, post_shipment, put_shipment. keeps_others.
Qed.

End SagaFrame.

Section SagaFrameTheorems.
Import Dashboard SagaFacts Scenarios.

(** X9.  A payment decision or an order-status change for one order never
    changes another order nor the customers, whatever the caller, the bodies
    and the fates of the downstream requests. *)
Theorem saga_touches_one_order (w : World) (order_id other : Z)
    (payment_action : PaymentAction) (status_data : Orders.OrderUpdate)
    (user : User) :
  other ≠ order_id →
  let paid := (process_payment order_id payment_action user w).2 in
  let changed := (update_order_status order_id status_data user w).2 in
  orders_db paid !! other = orders_db w !! other
  ∧ customers_db paid = customers_db w
  ∧ orders_db changed !! other = orders_db w !! other
  ∧ customers_db changed = customers_db w.
Proof.
  intros Hother. simpl.
  assert (Hw : others_as_in w order_id w) by (split; auto).
  destruct (process_payment_others w order_id payment_action user w Hw)
    as [Hp1 Hp2].
  destruct (update_order_status_others w order_id status_data user w Hw)
    as [Hu1 Hu2].
  auto.
Qed.

Lemma saga_touches_one_order_witness :
  orders_db
    (process_payment 1 approve_action admin
       (world (<[ 1 := new_order 1 ]> {[ 2 := new_order 2 ]}) [])).2 !! 2
  = Some (new_order 2).
Proof.
  destruct (saga_touches_one_order
              (world (<[ 1 := new_order 1 ]> {[ 2 := new_order 2 ]}) [])
              1 2 approve_action (status_change "SHIPPED") admin)
    as (H & _).
  - discriminate.
  - rewrite H. reflexivity.
Defined.

End SagaFrameTheorems.

(** ** The activity feed *)

Section ActivityFeed.
Import Dashboard SagaFacts Admin Scenarios.

Lemma head_removelast {A} (a b : A) (l : list A) :
  head (removelast (a :: b :: l)) = Some a.
Proof. reflexivity. Qed.

Lemma add_activity_newest (act ety eid usr : string) (det : option string)
    (w : World) :
  let w' := (add_activity act ety eid usr det w).2 in
  let entry :=
    {| timestamp := isoformat (clock w) +:+ "Z"; action := act;
       entity_type := ety; entity_id := eid; user := usr;
       details := det |} in
  head (recent_activity w') = Some entry
  ∧ (audit_db_up w = true → last (activity_logs w') = Some entry)
  ∧ audit_db_up w' = audit_db_up w.
Proof.
  simpl. split; [| split; [| reflexivity]].
  - destruct (recent_activity w) as [| b l]; [reflexivity |].
    match goal with
    | |- context [if ?c then _ else _] => destruct c
    end; reflexivity.
  - intros ->. apply last_snoc.
Qed.

Lemma length_removelast_cons {A} (a : A) (l : list A) :
  length (removelast (a :: l)) = length l.
Proof.
  revert a. induction l as [| b l IH]; intros a; [reflexivity |].
  change (removelast (a :: b :: l)) with (a :: removelast (b :: l)).
  cbn [length]. rewrite IH. reflexivity.
Qed.

Lemma add_activity_bounded (act ety eid usr : string) (det : option string) :
  keeps feed_bounded (add_activity act ety eid usr det).
Proof.
  intros w Hw. unfold feed_bounded, add_activity in *.
  cbn [snd recent_activity set_activity].
  match goal with
  | |- context [(50 <? ?n)%nat] => destruct (Nat.ltb_spec 50 n) as [Hlt | Hge]
  end.
  - rewrite length_removelast_cons. exact Hw.
  - exact Hge.
Qed.

Ltac keeps_feed :=
  repeat first
    [ apply keeps_ret
    | apply keeps_utcnow
    | apply add_activity_bounded
    | apply keeps_request;
      [ (intros ? H; exact H)
      | intros ? H;
        unfold serve_PUT_order, serve_PUT_shipment, serve_POST_shipment,
          Shipments.create_shipment, Shipments.update;
        repeat match goal with
               | |- context [let '(_, _) := ?x in _] => destruct x
               | |- context [match ?x with _ => _ end] => destruct x
               end;
        exact H ]
    | apply keeps_try_except; [| intros ?]
    | apply keeps_bind; [| intros ?]
    | match goal with
      | |- keeps _ (match ?x with _ => _ end) => destruct x
      end ].

(** X10.  A feed of at most 50 entries has at most 50 entries after a
    payment decision or an order-status change, whatever happens
    downstream. *)
Theorem feed_stays_within_50 (w : World) (order_id : Z)
    (payment_action : PaymentAction) (status_data : Orders.OrderUpdate)
    (user : User) :
  (length (recent_activity w) ≤ 50)%nat →
  (length (recent_activity
             (process_payment order_id payment_action user w).2) ≤ 50)%nat
  ∧ (length (recent_activity
               (update_order_status order_id status_data user w).2)
     ≤ 50)%nat.
Proof.
  intros Hw. split.
  - revert w Hw. change (keeps feed_bounded
                           (process_payment order_id payment_action user)).
    unfold process_payment.
    destruct (negb (String.eqb (role user) ADMIN));
      [intros w Hw; exact Hw |].
    unfold approve, decline, put_order, get_order, get_customers,
      post_shipment. keeps_feed.
  - revert w Hw. change (keeps feed_bounded
                           (update_order_status order_id status_data user)).
    unfold update_order_status.
    destruct (negb (String.eqb (role user) ADMIN));
      [intros w Hw; exact Hw |].
    unfold handle_shipment, ship, put_order, get_order, get_customers,
      get_shipments, post_shipment, put_shipment. keeps_feed.
Qed.

(** X11.  Every payment decision of an admin, approved, declined or failed,
    leaves as newest entry of the feed, and of the durable log when that can
    be written, a PAYMENT activity on the order by that admin. *)
Theorem payment_decision_is_always_recorded (w : World) (order_id : Z)
    (payment_action : PaymentAction) (user : User) :
  role user = ADMIN →
  newest_activity_is "PAYMENT" order_id (username user)
    (process_payment order_id payment_action user w).2.
Proof.
  intros Hadmin. unfold process_payment. rewrite Hadmin. simpl.
  unfold try_except, bind.
  destruct ((if opt_is (pa_action payment_action) "approve"
             then approve order_id payment_action user
             else decline order_id) w) as [[message | e] w1].
  - pose proof (add_activity_newest "PAYMENT" "order" (pretty order_id)
                  (username user) (Some message) w1) as (Hhead & Hlast & Hsame).
    destruct (add_activity "PAYMENT" "order" (pretty order_id)
                (username user) (Some message) w1) as [[[] | e] w2] eqn:Hadd;
      simpl in *.
    + eexists. rewrite Hsame. repeat split; eauto.
    + unfold add_activity in Hadd. discriminate.
  - pose proof (add_activity_newest "PAYMENT" "order" (pretty order_id)
                  (username user)
                  (Some ("Payment error: " +:+ str_exc e)) w1)
      as (Hhead & Hlast & Hsame).
    destruct (add_activity "PAYMENT" "order" (pretty order_id)
                (username user) (Some ("Payment error: " +:+ str_exc e)) w1)
      as [[[] | e'] w2] eqn:Hadd; simpl in *.
    + eexists. rewrite Hsame. repeat split; eauto.
    + unfold add_activity in Hadd. discriminate.
Qed.

End ActivityFeed.

Section ActivityEndpoints.
Import Dashboard SagaFacts Admin Scenarios.

Lemma feed_stays_within_50_witness :
  let w' :=
    (process_payment 1 approve_action admin
       (world {[ 1 := new_order 1 ]} [])).2 in
  (length (recent_activity w') ≤ 50)%nat.
Proof.
  destruct (feed_stays_within_50 (world {[ 1 := new_order 1 ]} []) 1
              approve_action (status_change "SHIPPED") admin) as [H _].
  - simpl. lia.
  - exact H.
Defined.

Lemma payment_decision_is_always_recorded_witness :
  newest_activity_is "PAYMENT" 1 "admin"
    (process_payment 1 approve_action admin
       (world {[ 1 := new_order 1 ]} [Raises "Timeout"])).2.
Proof.
  apply (payment_decision_is_always_recorded
           (world {[ 1 := new_order 1 ]} [Raises "Timeout"]) 1
           approve_action admin).
  reflexivity.
Defined.

(** X12.  [/api/activity] returns the tail of a feed that is kept newest
    first: while the feed has fewer than 20 entries a new activity is
    returned in front of the others, but once it has 20 to 49 entries a new
    activity changes nothing in what the endpoint returns. *)
Theorem activity_endpoint_returns_the_oldest_entries
    (act ety eid usr : string) (det : option string) (w : World) :
  let w' := (add_activity act ety eid usr det w).2 in
  let entry :=
    {| timestamp := isoformat (clock w) +:+ "Z"; action := act;
       entity_type := ety; entity_id := eid; user := usr;
       details := det |} in
  ((length (recent_activity w) < 20)%nat →
   get_activity w' = entry :: recent_activity w)
  ∧ ((20 ≤ length (recent_activity w) < 50)%nat →
     get_activity w' = get_activity w).
Proof.
  unfold get_activity, add_activity.
  cbn [snd recent_activity set_activity]. split; intros Hlen.
  - match goal with
    | |- context [(50 <? ?n)%nat] =>
        destruct (Nat.ltb_spec 50 n) as [Hlt | Hge]
    end; [simpl in Hlt; lia |].
    cbn [length].
    replace (S (length (recent_activity w)) - 20)%nat with 0%nat by lia.
    reflexivity.
  - match goal with
    | |- context [(50 <? ?n)%nat] =>
        destruct (Nat.ltb_spec 50 n) as [Hlt | Hge]
    end; [simpl in Hlt; lia |].
    cbn [length].
    replace (S (length (recent_activity w)) - 20)%nat
      with (S (length (recent_activity w) - 20)) by lia.
    reflexivity.
Qed.

Lemma activity_endpoint_returns_the_oldest_entries_witness :
  get_activity
    (add_activity "PAYMENT" "order" "1" "admin" None
       (world ∅ [])).2
  = [{| timestamp := "1700000000Z"; action := "PAYMENT";
        entity_type := "order"; entity_id := "1"; user := "admin";
        details := None |}].
Proof.
  destruct (activity_endpoint_returns_the_oldest_entries
              "PAYMENT" "order" "1" "admin" None (world ∅ [])) as [H _].
  rewrite H; [reflexivity | simpl; lia].
Defined.

Lemma counts_are_disjoint (orders : list Orders.Order) :
  (count is_pending_payment orders + count is_ready_to_ship orders
   + count is_in_transit orders ≤ length orders)%nat.
Proof.
  unfold count. induction orders as [| o orders IH]; [reflexivity |].
  simpl.
  destruct (is_pending_payment o) eqn:H1, (is_ready_to_ship o) eqn:H2,
    (is_in_transit o) eqn:H3; simpl; try lia;
    unfold is_pending_payment, is_ready_to_ship, is_in_transit in *;
    repeat match goal with
           | H : (_ && _) = true |- _ => apply andb_true_iff in H as [? ?]
           | H : String.eqb _ _ = true |- _ => apply String.eqb_eq in H
           end; congruence.
Qed.

(** X13.  The admin notifications count every order at most once: the
    total is the sum of the three counts and never exceeds the number of
    orders in the table; a caller who is no admin, a failed or a raising
    request give zeros.  The orders are not changed. *)
Theorem notifications_count_an_order_once (w : World) (user : User) :
  let run := get_admin_notifications user w in
  ∃ n,
    run.1 = Returned n
    ∧ total_action_items n
      = (pending_payment_approvals n + ready_to_ship n + in_transit n)%nat
    ∧ (total_action_items n ≤ size (orders_db w))%nat
    ∧ (role user ≠ ADMIN ∨ next_fault w ≠ NoFault → n = no_notifications)
    ∧ orders_db run.2 = orders_db w.
Proof.
  unfold get_admin_notifications.
  destruct (String.eqb_spec (role user) ADMIN) as [Hadmin | Hadmin]; simpl.
  2: { exists no_notifications. repeat split; auto. simpl. lia. }
  unfold try_except, bind, send, serve_GET_orders.
  destruct (next_fault w) eqn:Hfault; simpl;
    try (exists no_notifications; repeat split; auto; simpl; lia).
  exists (notifications_of (map_to_list (orders_db w)).*2).
  split; [reflexivity |]. split; [reflexivity |]. split; [| split].
  - simpl. rewrite <- length_map_to_list.
    rewrite <- (length_fmap snd (map_to_list (orders_db w))).
    apply counts_are_disjoint.
  - intros [H | H]; congruence.
  - reflexivity.
Qed.

(** X14.  The dashboard's delete of an order, by an admin and reaching the
    orders service: an order whose payment is COMPLETED or FAILED stays, the
    endpoint reports "HTTP 403" and records nothing; any other order is
    removed and a DELETE activity is the newest of the feed.  In both cases
    the shipments of the order stay in the shipments table. *)
Theorem dashboard_delete_follows_the_guard (w : World) (order_id : Z)
    (order : Orders.Order) (user : User) :
  role user = ADMIN →
  next_fault w = NoFault →
  orders_db w !! order_id = Some order →
  let run := Admin.delete_order order_id user w in
  shipments_db run.2 = shipments_db w
  ∧ (Orders.payment_finalized order = true →
     run.1 = Returned [("success", JBool false);
                       ("error", JString "HTTP 403")]
     ∧ orders_db run.2 = orders_db w
     ∧ recent_activity run.2 = recent_activity w)
  ∧ (Orders.payment_finalized order = false →
     run.1 = Returned [("success", JBool true);
                       ("message",
                        JString ("Order #" +:+ pretty order_id
                                 +:+ " cancelled"))]
     ∧ orders_db run.2 = delete order_id (orders_db w)
     ∧ newest_activity_is "DELETE" order_id (username user) run.2).
Proof.
  intros Hadmin Hfault Hget. unfold Admin.delete_order.
  rewrite Hadmin. simpl.
  unfold try_except, bind, send, serve_DELETE_order. rewrite Hfault.
  unfold Orders.delete_order. simpl. rewrite Hget.
  destruct (Orders.payment_finalized order); simpl.
  - split; [reflexivity |]. split; [auto | discriminate].
  - split; [reflexivity |]. split; [discriminate |]. intros _.
    split; [reflexivity |]. split; [reflexivity |].
    set (w1 := set_orders_db _ _).
    destruct (add_activity_newest "DELETE" "order" (pretty order_id)
                (username user) None w1) as (Hhead & Hlast & Hsame).
    eexists. split; [exact Hhead |]. split; [| auto].
    intros Hup. apply Hlast. exact Hup.
Qed.

Lemma dashboard_delete_follows_the_guard_witness :
  let run :=
    Admin.delete_order 1 admin (world {[ 1 := paid_order ]} []) in
  run.1 = Returned [("success", JBool false); ("error", JString "HTTP 403")]
  ∧ orders_db run.2 = {[ 1 := paid_order ]}.
Proof.
  destruct (dashboard_delete_follows_the_guard
              (world {[ 1 := paid_order ]} []) 1 paid_order admin)
    as (_ & Hkept & _).
  - reflexivity.
  - reflexivity.
  - reflexivity.
  - destruct Hkept as (H1 & H2 & _); [reflexivity |].
    split; [exact H1 | exact H2].
Defined.

End ActivityEndpoints.

(** ** The saga: outcomes of an approval *)

Section ApprovalOutcomes.
Import Dashboard SagaFacts Approval Scenarios.

Lemma update_order_unfinalized (d : gmap Z Orders.Order) (order_id : Z)
    (order : Orders.Order) (body : Orders.OrderUpdate) :
  d !! order_id = Some order →
  Orders.payment_finalized order = false →
  Orders.update_order order_id body d
  = (Ok 200 (Orders.apply_update body order),
     <[order_id := Orders.apply_update body order]> d).
Proof.
  intros Hget Hfin. unfold Orders.update_order, Orders.update, Orders.get.
  rewrite Hget, Hfin. reflexivity.
Qed.

(** X15.  An approval by an admin, with every downstream request served,
    of an order whose payment is neither COMPLETED nor FAILED: the order
    becomes COMPLETED and PROCESSING, exactly one shipment is appended, for
    this order, PENDING, under the next key, and the envelope reports the
    approval and the shipment. *)
Theorem approval_completes_payment_and_adds_one_shipment (w : World)
    (order_id : Z) (order : Orders.Order) (payment_action : PaymentAction)
    (user : User) :
  role user = ADMIN →
  faults w = [] →
  pa_action payment_action = Some "approve" →
  orders_db w !! order_id = Some order →
  Orders.payment_finalized order = false →
  let run := process_payment order_id payment_action user w in
  let approved := Orders.apply_update (approve_body payment_action) order in
  orders_db run.2 = <[order_id := approved]> (orders_db w)
  ∧ Orders.payment_status approved = "COMPLETED"
  ∧ Orders.order_status approved = "PROCESSING"
  ∧ Shipments.rows (shipments_db run.2)
    = (Shipments.rows (shipments_db w) ++ [pending_shipment order_id w])%list
  ∧ run.1 = Returned
              (approved_envelope
                 (approved_message order_id +:+ " | Shipment #"
                  +:+ pretty (Shipments.next_id (shipments_db w))
                  +:+ " created")).
Proof.
  intros Hadmin Hfaults Hact Hget Hfin.
  destruct w as [orders shipments customers feed logs up now fates issued].
  simpl in *. subst fates.
  unfold process_payment. rewrite Hadmin, Hact. simpl.
  unfold try_except, bind, approve, bind, get_order, request. simpl.
  unfold Orders.get_order, Orders.get. rewrite Hget. simpl.
  unfold put_order, request, serve_PUT_order. simpl.
  fold (approve_body payment_action).
  rewrite (update_order_unfinalized _ _ _ _ Hget Hfin). simpl.
  repeat split.
Qed.

(** X16.  When the request that creates the shipment fails, the approval
    is not undone: the order is COMPLETED and PROCESSING and no shipment is
    stored.  If the shipments service answered 500 or 503 the endpoint still
    reports the approval; if the request raised, the endpoint reports the
    error although the payment is now COMPLETED. *)
Theorem approval_survives_a_failed_shipment (w : World) (order_id : Z)
    (order : Orders.Order) (payment_action : PaymentAction) (user : User)
    (fate : Fault) :
  role user = ADMIN →
  faults w = [NoFault; NoFault; NoFault; fate] →
  fate ≠ NoFault →
  pa_action payment_action = Some "approve" →
  orders_db w !! order_id = Some order →
  Orders.payment_finalized order = false →
  let run := process_payment order_id payment_action user w in
  let approved := Orders.apply_update (approve_body payment_action) order in
  orders_db run.2 = <[order_id := approved]> (orders_db w)
  ∧ Orders.payment_status approved = "COMPLETED"
  ∧ shipments_db run.2 = shipments_db w
  ∧ run.1 = Returned
              match fate with
              | Raises msg =>
                  [("success", JBool false); ("error", JString msg)]
              | _ => approved_envelope (approved_message order_id)
              end.
Proof.
  intros Hadmin Hfaults Hfate Hact Hget Hfin.
  destruct w as [orders shipments customers feed logs up now fates issued].
  simpl in *. subst fates.
  unfold process_payment. rewrite Hadmin, Hact. simpl.
  unfold try_except, bind, approve, bind, get_order, request. simpl.
  unfold Orders.get_order, Orders.get. rewrite Hget. simpl.
  unfold put_order, request, serve_PUT_order. simpl.
  fold (approve_body payment_action).
  rewrite (update_order_unfinalized _ _ _ _ Hget Hfin). simpl.
  destruct fate; simpl; [congruence | | |]; repeat split.
Qed.

(** X17.  An approval for an order that the orders service does not have,
    or whose read is answered 500 or 503, writes nothing and sends no second
    request, yet the endpoint reports success with payment_status
    COMPLETED. *)
Theorem approval_of_an_unreadable_order_reports_success (w : World)
    (order_id : Z) (payment_action : PaymentAction) (user : User) :
  role user = ADMIN →
  pa_action payment_action = Some "approve" →
  orders_db w !! order_id = None ∨ next_fault w = ServerError
  ∨ next_fault w = Unavailable →
  (∀ msg, next_fault w ≠ Raises msg) →
  let run := process_payment order_id payment_action user w in
  run.1 = Returned (approved_envelope (approved_message order_id))
  ∧ orders_db run.2 = orders_db w
  ∧ shipments_db run.2 = shipments_db w
  ∧ calls run.2 = (calls w ++ [GET_order order_id])%list.
Proof.
  intros Hadmin Hact Hunreadable Hnoraise.
  unfold process_payment. rewrite Hadmin, Hact. simpl.
  unfold try_except, bind, approve, bind, get_order, request.
  destruct (next_fault w) eqn:Hfault; simpl.
  - destruct Hunreadable as [Hnone | [H | H]]; try discriminate.
    unfold Orders.get_order, Orders.get. rewrite Hnone. simpl.
    repeat split.
  - destruct (Hnoraise msg eq_refl).
  - repeat split.
  - repeat split.
Qed.

End ApprovalOutcomes.

Section ApprovalWitnesses.
Import Dashboard SagaFacts Approval Scenarios.

Lemma approval_completes_payment_and_adds_one_shipment_witness :
  let run :=
    process_payment 1 approve_action admin
      (world {[ 1 := new_order 1 ]} []) in
  payment_status_of 1 run.2 = Some "COMPLETED"
  ∧ order_status_of 1 run.2 = Some "PROCESSING"
  ∧ Shipments.status <$> Shipments.rows (shipments_db run.2) = ["PENDING"].
Proof.
  destruct (approval_completes_payment_and_adds_one_shipment
              (world {[ 1 := new_order 1 ]} []) 1 (new_order 1)
              approve_action admin) as (Horders & _ & _ & Hrows & _);
    try reflexivity.
  unfold payment_status_of, order_status_of. rewrite Horders, Hrows.
  rewrite lookup_insert_eq. repeat split.
Defined.

Lemma approval_survives_a_failed_shipment_witness :
  let run :=
    process_payment 1 approve_action admin
      (world {[ 1 := new_order 1 ]}
             [NoFault; NoFault; NoFault; Raises "Timeout"]) in
  payment_status_of 1 run.2 = Some "COMPLETED"
  ∧ Shipments.rows (shipments_db run.2) = []
  ∧ run.1 = Returned [("success", JBool false);
                      ("error", JString "Timeout")].
Proof.
  destruct (approval_survives_a_failed_shipment
              (world {[ 1 := new_order 1 ]}
                     [NoFault; NoFault; NoFault; Raises "Timeout"])
              1 (new_order 1) approve_action admin (Raises "Timeout"))
    as (Horders & _ & Hshipments & Hresult);
    try reflexivity; try discriminate.
  unfold payment_status_of. rewrite Horders, Hshipments, Hresult.
  rewrite lookup_insert_eq. repeat split.
Defined.

Lemma approval_of_an_unreadable_order_reports_success_witness :
  let run := process_payment 9 approve_action admin (world ∅ []) in
  run.1 = Returned (approved_envelope "Payment approved for order #9")
  ∧ orders_db run.2 = ∅.
Proof.
  destruct (approval_of_an_unreadable_order_reports_success
              (world ∅ []) 9 approve_action admin)
    as (Hresult & Horders & _); try reflexivity; try discriminate.
  - left. reflexivity.
  - split; [exact Hresult | exact Horders].
Defined.

End ApprovalWitnesses.

(** ** The saga: shipments written by a payment decision *)

Section PaymentShipments.
Import Dashboard SagaFacts.

Variables (S : Shipments.db) (order_id : Z).

Lemma shipments_are_request {A} (c : Call)
    (serve : World → Response A * World) :
  (∀ w, shipments_db (serve w).2 = shipments_db w) →
  keeps (shipments_are S) (request c serve).
Proof.
  intros Hserve. apply keeps_request.
  - intros w Hw. exact Hw.
  - intros w Hw. unfold shipments_are in *. rewrite Hserve. exact Hw.
Qed.

Lemma serve_PUT_order_shipments (id : Z) (body : Orders.OrderUpdate)
    (w : World) :
  shipments_db (serve_PUT_order id body w).2 = shipments_db w.
Proof.
  unfold serve_PUT_order.
  destruct (Orders.update_order id body (orders_db w)); reflexivity.
Qed.

Lemma post_pending_shipment (customer_id : Z) (address : Address) :
  hoare (shipments_are S)
    (post_shipment
       {| sd_order_id := order_id; sd_customer_id := customer_id;
          sd_shipping_address := address; sd_status := "PENDING";
          sd_carrier := None; sd_tracking_no := None;
          sd_shipped_at := None |})
    (fun _ w => at_most_one_pending_more S order_id w).
Proof.
  apply hoare_request.
  - intros w Hw. right. unfold shipments_are in Hw. simpl. rewrite Hw.
    eexists. repeat split.
  - intros w msg Hw. left. exact Hw.
  - intros w code detail Hw _. left. exact Hw.
Qed.

Lemma add_activity_at_most act ety eid usr det :
  keeps (at_most_one_pending_more S order_id)
        (add_activity act ety eid usr det).
Proof. apply keeps_add_activity. intros w feed logs Hw. exact Hw. Qed.

Lemma approve_shipments (payment_action : PaymentAction) (user : User) :
  hoare (shipments_are S) (approve order_id payment_action user)
        (fun _ w => at_most_one_pending_more S order_id w).
Proof.
  unfold approve.
  eapply hoare_bind;
    [apply shipments_are_request; reflexivity | | intros e w Hw; left; exact Hw].
  intros order_resp. destruct (json_if 200 order_resp) as [order |].
  2: { apply hoare_ret. intros w Hw. left. exact Hw. }
  eapply hoare_bind;
    [apply shipments_are_request, serve_PUT_order_shipments
    | | intros e w Hw; left; exact Hw].
  intros update_resp.
  eapply hoare_bind;
    [apply shipments_are_request; reflexivity | | intros e w Hw; left; exact Hw].
  intros customer_resp.
  eapply hoare_bind; [apply post_pending_shipment | | intros e w Hw; exact Hw].
  intros shipment_resp. destruct (json_if 201 shipment_resp) as [shipment |].
  - eapply hoare_bind;
      [apply add_activity_at_most | | intros e w Hw; exact Hw].
    intros []. apply hoare_ret. intros w Hw. exact Hw.
  - apply hoare_ret. intros w Hw. exact Hw.
Qed.

Lemma decline_shipments :
  hoare (shipments_are S) (decline order_id)
        (fun _ w => at_most_one_pending_more S order_id w).
Proof.
  unfold decline.
  eapply hoare_bind;
    [apply shipments_are_request, serve_PUT_order_shipments
    | | intros e w Hw; left; exact Hw].
  intros resp. apply hoare_ret. intros w Hw. left. exact Hw.
Qed.

Lemma process_payment_shipments (payment_action : PaymentAction)
    (user : User) :
  hoare (shipments_are S) (process_payment order_id payment_action user)
        (fun _ w => at_most_one_pending_more S order_id w).
Proof.
  unfold process_payment.
  destruct (negb (String.eqb (role user) ADMIN)).
  { intros w Hw. left. exact Hw. }
  eapply hoare_try_except with
    (Q := fun _ w => at_most_one_pending_more S order_id w).
  - eapply hoare_bind with
      (Q := fun _ w => at_most_one_pending_more S order_id w).
    + destruct (opt_is (pa_action payment_action) "approve");
        [apply approve_shipments | apply decline_shipments].
    + intros message. eapply hoare_bind;
        [apply add_activity_at_most | | intros e w Hw; exact Hw].
      intros []. apply hoare_ret. intros w Hw. exact Hw.
    + intros e w Hw. exact Hw.
  - intros a w Hw. exact Hw.
  - intros e. eapply hoare_bind;
      [apply add_activity_at_most | | intros e' w Hw; exact Hw].
    intros []. apply hoare_ret. intros w Hw. exact Hw.
Qed.

End PaymentShipments.

Section PaymentShipmentsTheorem.
Import Dashboard SagaFacts.

(** X18.  A payment decision, whatever the caller, the action and the
    fates of the requests, never changes or removes a stored shipment: the
    shipments table is as before, or as before with one more shipment, of
    this order, PENDING, under the next key. *)
Theorem payment_decision_adds_at_most_one_shipment (w : World)
    (order_id : Z) (payment_action : PaymentAction) (user : User) :
  let w' := (process_payment order_id payment_action user w).2 in
  shipments_db w' = shipments_db w
  ∨ ∃ s,
      Shipments.rows (shipments_db w')
      = (Shipments.rows (shipments_db w) ++ [s])%list
      ∧ Shipments.order_id s = order_id
      ∧ Shipments.status s = "PENDING"
      ∧ Shipments.id s = Shipments.next_id (shipments_db w).
Proof.
  exact (process_payment_shipments (shipments_db w) order_id payment_action
           user w eq_refl).
Qed.

End PaymentShipmentsTheorem.

(** ** The saga: outcomes of an order-status change *)

Section StatusChangeOutcomes.
Import Dashboard SagaFacts Approval Fulfilment ShipmentsKeys Scenarios.

Lemma find_by_id_member (d : Shipments.db) (s : Shipments.Shipment) :
  well_keyed d → s ∈ Shipments.rows d →
  Shipments.find_by_id (Shipments.id s) d = Some s.
Proof.
  intros [Hnodup _] Hin. unfold Shipments.find_by_id.
  destruct (List.find _ _) as [s0 |] eqn:Hfind.
  - apply find_some in Hfind as [Hin0 Hid]. apply Z.eqb_eq in Hid.
    f_equal. eapply unique_key; eauto. apply list_elem_of_In, Hin0.
  - apply list_elem_of_In in Hin.
    pose proof (find_none _ _ Hfind s Hin) as Hno. simpl in Hno.
    rewrite Z.eqb_refl in Hno. discriminate.
Qed.

Lemma order_shipment_member (order_id : Z) (w : World)
    (s : Shipments.Shipment) :
  order_shipment order_id w = Some s →
  s ∈ Shipments.rows (shipments_db w) ∧ Shipments.order_id s = order_id.
Proof.
  unfold order_shipment. intros H. apply find_some in H as [Hin Hid].
  split; [apply list_elem_of_In, Hin | apply Z.eqb_eq, Hid].
Qed.

(** The table after an update of a row that is in it. *)
Lemma update_member (d : Shipments.db) (s : Shipments.Shipment)
    (data : Shipments.ShipmentUpdate) :
  well_keyed d → s ∈ Shipments.rows d →
  let d' := (Shipments.update (Shipments.id s) data d).2 in
  length (Shipments.rows d') = length (Shipments.rows d)
  ∧ Shipments.find_by_id (Shipments.id s) d'
    = Some (Shipments.set_fields data s)
  ∧ fixed_columns <$> Shipments.rows d' = fixed_columns <$> Shipments.rows d.
Proof.
  intros Hkeys Hin. simpl. unfold Shipments.update.
  rewrite (find_by_id_member d s Hkeys Hin). simpl.
  split; [| split].
  - unfold Shipments.replace_row. apply length_map.
  - unfold Shipments.find_by_id. simpl. rewrite find_replace_row. simpl.
    rewrite Z.eqb_refl.
    fold (Shipments.find_by_id (Shipments.id s) d).
    rewrite (find_by_id_member d s Hkeys Hin). reflexivity.
  - apply replace_row_fixed_columns. intros s1 H1 Hid.
    destruct Hkeys as [Hnodup _]. eapply unique_key; eauto.
Qed.

(** X19.  An admin marks SHIPPED an order whose payment is COMPLETED, every
    request served, the shipment keys unique.  The order becomes SHIPPED.  If
    the order has no shipment, one is appended IN_TRANSIT with carrier,
    tracking number and shipped_at; if it has one, no row is added, that
    shipment becomes IN_TRANSIT, its carrier and tracking number are kept
    unless empty, and no row changes its key, order or shipped_at. *)
Theorem shipping_a_paid_order (w : World) (order_id : Z)
    (order : Orders.Order) (user : User) :
  role user = ADMIN →
  faults w = [] →
  orders_db w !! order_id = Some order →
  Orders.payment_status order = "COMPLETED" →
  well_keyed (shipments_db w) →
  let run := update_order_status order_id (status_change "SHIPPED") user w in
  let shipped := Orders.apply_update (status_change "SHIPPED") order in
  let rows' := Shipments.rows (shipments_db run.2) in
  run.1 = Returned (status_updated_envelope shipped)
  ∧ orders_db run.2 = <[order_id := shipped]> (orders_db w)
  ∧ match order_shipment order_id w with
    | None =>
        rows' = (Shipments.rows (shipments_db w)
                 ++ [in_transit_shipment order_id w])%list
    | Some s =>
        length rows' = length (Shipments.rows (shipments_db w))
        ∧ Shipments.find_by_id (Shipments.id s) (shipments_db run.2)
          = Some (Shipments.set_fields (shipped_update order_id s w) s)
        ∧ Shipments.status
            (Shipments.set_fields (shipped_update order_id s w) s)
          = "IN_TRANSIT"
        ∧ fixed_columns <$> rows'
          = fixed_columns <$> Shipments.rows (shipments_db w)
    end.
Proof.
  intros Hadmin Hfaults Hget Hpaid Hkeys.
  pose proof (order_shipment_member order_id w) as Hmember.
  pose proof (update_member (shipments_db w)) as Hupdate.
  unfold order_shipment in *.
  destruct w as [orders shipments customers feed logs up now fates issued].
  simpl in *. subst fates.
  unfold update_order_status. rewrite Hadmin. simpl.
  unfold try_except, bind, put_order, request, serve_PUT_order. simpl.
  rewrite (update_order_status_change _ _ _ _ Hget). simpl.
  unfold handle_shipment, bind, get_shipments, request. simpl.
  unfold ship, bind, get_order, request. simpl.
  unfold Orders.get_order, Orders.get. rewrite lookup_insert_eq. simpl.
  rewrite Hpaid. simpl.
  unfold Shipments.list_all.
  destruct (List.find _ (Shipments.rows shipments)) as [s |] eqn:Hfind.
  - destruct (Hmember s eq_refl) as [Hin _].
    destruct (Hupdate s (shipped_update order_id s
                           (mkWorld orders shipments customers feed logs up
                                    now [] issued)) Hkeys Hin)
      as (Hlen & Hfound & Hfixed).
    unfold put_shipment, request, serve_PUT_shipment. simpl.
    unfold shipped_update in *. simpl in *.
    destruct (Shipments.update (Shipments.id s) _ shipments) as [r d'].
    simpl in *. split; [reflexivity | split; [reflexivity |]].
    split; [exact Hlen | split; [exact Hfound | split; [reflexivity |]]].
    exact Hfixed.
  - unfold get_customers, request. simpl.
    unfold utcnow, post_shipment, request. simpl.
    split; [reflexivity | split; [reflexivity |]].
    unfold in_transit_shipment. simpl.
    destruct (String.eqb (isoformat now) ""); reflexivity.
Qed.

Lemma shipping_a_paid_order_witness :
  let run :=
    update_order_status 1 (status_change "SHIPPED") admin
      (world {[ 1 := paid_order ]} []) in
  order_status_of 1 run.2 = Some "SHIPPED"
  ∧ Shipments.status <$> Shipments.rows (shipments_db run.2)
    = ["IN_TRANSIT"].
Proof.
  destruct (shipping_a_paid_order (world {[ 1 := paid_order ]} []) 1
              paid_order admin) as (_ & Horders & Hrows);
    try reflexivity.
  - split; [apply NoDup_nil_2 | constructor].
  - simpl in Hrows. unfold order_status_of. rewrite Horders, Hrows.
    rewrite lookup_insert_eq. split; reflexivity.
Defined.

End StatusChangeOutcomes.

(** ** A status change and the rows of the shipments table *)

Section StatusChangeRows.
Import Dashboard SagaFacts StatusFacts ShipmentsKeys.

Variable S : Shipments.db.
Hypothesis unique_keys : NoDup (Shipments.id <$> Shipments.rows S).

Lemma same_keys_unique (w : World) :
  same_keys_as S w → NoDup (Shipments.id <$> Shipments.rows (shipments_db w)).
Proof.
  intros [Hrows _].
  assert (∀ l : list Shipments.Shipment,
            Shipments.id <$> l = (λ c, c.1.1) <$> (fixed_columns <$> l))
    as Hids.
  { intros l. rewrite <- list_fmap_compose. reflexivity. }
  rewrite Hids, Hrows, <- Hids. exact unique_keys.
Qed.

Lemma same_keys_sent (c : Call) (w : World) :
  same_keys_as S w → same_keys_as S (sent c w).
Proof. intros H. exact H. Qed.

Lemma same_keys_set_activity feed logs (w : World) :
  same_keys_as S w → same_keys_as S (set_activity feed logs w).
Proof. intros H. exact H. Qed.

Lemma same_keys_serve_PUT_order (id : Z) (body : Orders.OrderUpdate)
    (w : World) :
  same_keys_as S w → same_keys_as S (serve_PUT_order id body w).2.
Proof.
  intros H. unfold serve_PUT_order.
  destruct (Orders.update_order id body (orders_db w)). exact H.
Qed.

Lemma same_keys_serve_PUT_shipment (sid : Z) (body : ShipmentPatch)
    (w : World) :
  same_keys_as S w → same_keys_as S (serve_PUT_shipment sid body w).2.
Proof.
  intros H. pose proof (same_keys_unique w H) as Hnodup.
  destruct H as [Hrows Hnext].
  unfold serve_PUT_shipment, Shipments.update.
  destruct (Shipments.find_by_id sid (shipments_db w)) as [s |] eqn:Hfind;
    simpl; [| split; assumption].
  apply find_by_id_Some in Hfind as [Hin _].
  split; simpl; [| exact Hnext].
  rewrite replace_row_fixed_columns; [exact Hrows |].
  intros s1 H1 Hid. eapply unique_key; eauto.
Qed.

Lemma update_order_status_keys (order_id : Z)
    (status_data : Orders.OrderUpdate) (user : User) :
  Orders.upd_order_status status_data ≠ Some "SHIPPED" →
  keeps (same_keys_as S) (update_order_status order_id status_data user).
Proof.
  intros Hnot.
  assert (opt_is (Orders.upd_order_status status_data) "SHIPPED" = false)
    as Hfalse.
  { destruct (Orders.upd_order_status status_data) as [s |]; [| reflexivity].
    simpl. apply String.eqb_neq. congruence. }
  unfold update_order_status.
  destruct (negb (String.eqb (role user) ADMIN)).
  - intros w Hw. exact Hw.
  - unfold handle_shipment. rewrite Hfalse.
    unfold put_order, get_shipments, put_shipment.
    repeat first
      [ apply keeps_ret
      | apply keeps_utcnow
      | apply keeps_add_activity; intros;
        apply same_keys_set_activity; assumption
      | apply keeps_request;
        [ intros; apply same_keys_sent; assumption
        | first [ apply same_keys_serve_PUT_order
                | apply same_keys_serve_PUT_shipment
                | (intros ? H; exact H) ] ]
      | apply keeps_try_except; [| intros ?]
      | apply keeps_bind; [| intros ?]
      | match goal with
        | |- keeps _ (match ?x with _ => _ end) => destruct x
        end ].
Qed.

End StatusChangeRows.

Section StatusChangeTheorems.
Import Dashboard SagaFacts Approval Fulfilment StatusFacts ShipmentsKeys
       Scenarios.

(** X20.  Whatever happens to the downstream requests, a status change to
    anything but SHIPPED adds no shipment and removes none, and leaves the
    key, the order and shipped_at of every shipment as they were, when the
    keys of the table are unique. *)
Theorem only_shipping_adds_a_shipment (w : World) (order_id : Z)
    (status_data : Orders.OrderUpdate) (user : User) :
  NoDup (Shipments.id <$> Shipments.rows (shipments_db w)) →
  Orders.upd_order_status status_data ≠ Some "SHIPPED" →
  let run := update_order_status order_id status_data user w in
  fixed_columns <$> Shipments.rows (shipments_db run.2)
  = fixed_columns <$> Shipments.rows (shipments_db w)
  ∧ Shipments.next_id (shipments_db run.2)
    = Shipments.next_id (shipments_db w).
Proof.
  intros Hnodup Hnot.
  exact (update_order_status_keys (shipments_db w) Hnodup order_id
           status_data user Hnot w (conj eq_refl eq_refl)).
Qed.

Lemma only_shipping_adds_a_shipment_witness :
  let w := world_with_shipment paid_order "IN_TRANSIT" [] in
  let run := update_order_status 1 (status_change "CANCELLED") admin w in
  fixed_columns <$> Shipments.rows (shipments_db run.2)
  = [(1, 1, "1690000000")].
Proof.
  destruct (only_shipping_adds_a_shipment
              (world_with_shipment paid_order "IN_TRANSIT" []) 1
              (status_change "CANCELLED") admin) as [Hrows _].
  - simpl. apply NoDup_singleton.
  - simpl. discriminate.
  - exact Hrows.
Defined.

(** X21.  An admin marks an order DELIVERED, every request served, the
    shipment keys unique.  The order becomes DELIVERED whatever its payment
    and its shipment.  A shipment of the order that is IN_TRANSIT or PENDING
    becomes DELIVERED with the time of the request as delivered_at, its
    carrier and tracking number kept; in any other status, or when the order
    has no shipment, the shipments table is left as it was. *)
Theorem delivering_an_order (w : World) (order_id : Z)
    (order : Orders.Order) (user : User) :
  role user = ADMIN →
  faults w = [] →
  orders_db w !! order_id = Some order →
  well_keyed (shipments_db w) →
  let run := update_order_status order_id (status_change "DELIVERED") user w in
  let delivered := Orders.apply_update (status_change "DELIVERED") order in
  run.1 = Returned (status_updated_envelope delivered)
  ∧ orders_db run.2 = <[order_id := delivered]> (orders_db w)
  ∧ match order_shipment order_id w with
    | None => shipments_db run.2 = shipments_db w
    | Some s =>
        if deliverable s then
          Shipments.find_by_id (Shipments.id s) (shipments_db run.2)
          = Some {| Shipments.id := Shipments.id s;
                    Shipments.order_id := Shipments.order_id s;
                    Shipments.carrier := Shipments.carrier s;
                    Shipments.status := "DELIVERED";
                    Shipments.tracking_no := Shipments.tracking_no s;
                    Shipments.shipped_at := Shipments.shipped_at s;
                    Shipments.delivered_at := Some (isoformat (clock w)) |}
          ∧ length (Shipments.rows (shipments_db run.2))
            = length (Shipments.rows (shipments_db w))
        else shipments_db run.2 = shipments_db w
    end.
Proof.
  intros Hadmin Hfaults Hget Hkeys.
  pose proof (order_shipment_member order_id w) as Hmember.
  pose proof (update_member (shipments_db w)) as Hupdate.
  unfold order_shipment, deliverable in *.
  destruct w as [orders shipments customers feed logs up now fates issued].
  simpl in *. subst fates.
  unfold update_order_status. rewrite Hadmin. simpl.
  unfold try_except, bind, put_order, request, serve_PUT_order. simpl.
  rewrite (update_order_status_change _ _ _ _ Hget). simpl.
  unfold handle_shipment, bind, get_shipments, request. simpl.
  unfold Shipments.list_all.
  destruct (List.find _ (Shipments.rows shipments)) as [s |] eqn:Hfind.
  2: { simpl. repeat split. }
  destruct (Hmember s eq_refl) as [Hin _]. unfold str_in. simpl.
  destruct (String.eqb (Shipments.status s) "IN_TRANSIT" || _).
  2: { simpl. repeat split. }
  destruct (Hupdate s (delivered_update
                         (mkWorld orders shipments customers feed logs up
                                  now [] issued)) Hkeys Hin)
    as (Hlen & Hfound & Hfixed).
  unfold utcnow, put_shipment, request, serve_PUT_shipment. simpl.
  unfold delivered_update in *. simpl in *.
  destruct (Shipments.update (Shipments.id s) _ shipments) as [r d'].
  simpl in *. split; [reflexivity | split; [reflexivity |]].
  split; [exact Hfound | exact Hlen].
Qed.

Lemma delivering_an_order_witness :
  let w := world_with_shipment paid_order "IN_TRANSIT" [] in
  let run := update_order_status 1 (status_change "DELIVERED") admin w in
  order_status_of 1 run.2 = Some "DELIVERED"
  ∧ Shipments.find_by_id 1 (shipments_db run.2)
    = Some {| Shipments.id := 1; Shipments.order_id := 1;
              Shipments.carrier := "Standard Delivery";
              Shipments.status := "DELIVERED";
              Shipments.tracking_no := "TRK11690000000";
              Shipments.shipped_at := "1690000000";
              Shipments.delivered_at := Some "1700000000" |}.
Proof.
  destruct (delivering_an_order
              (world_with_shipment paid_order "IN_TRANSIT" []) 1
              paid_order admin) as (_ & Horders & Hrows);
    try reflexivity.
  - split; simpl; [apply NoDup_singleton | repeat constructor].
  - simpl in Hrows. destruct Hrows as [Hfound _].
    unfold order_status_of. rewrite Horders, lookup_insert_eq.
    split; [reflexivity | exact Hfound].
Defined.

(** X22.  An admin marks SHIPPED an order whose payment is COMPLETED; the
    order write is served and the shipments service answers the request for
    the list of shipments with a server error.  The dashboard then takes the
    order to have no shipment: a new IN_TRANSIT shipment is appended, also
    when the order has a shipment already. *)
Theorem unreadable_shipment_list_adds_a_shipment (w : World) (order_id : Z)
    (order : Orders.Order) (user : User) (fate : Fault) :
  role user = ADMIN →
  fate = ServerError ∨ fate = Unavailable →
  faults w = [NoFault; fate] →
  orders_db w !! order_id = Some order →
  Orders.payment_status order = "COMPLETED" →
  let run := update_order_status order_id (status_change "SHIPPED") user w in
  Shipments.rows (shipments_db run.2)
  = (Shipments.rows (shipments_db w) ++ [in_transit_shipment order_id w])%list
  ∧ run.1
    = Returned (status_updated_envelope
                  (Orders.apply_update (status_change "SHIPPED") order)).
Proof.
  intros Hadmin Hfate Hfaults Hget Hpaid.
  destruct w as [orders shipments customers feed logs up now fates issued].
  simpl in *. subst fates.
  unfold update_order_status. rewrite Hadmin. simpl.
  unfold try_except, bind, put_order, request, serve_PUT_order. simpl.
  rewrite (update_order_status_change _ _ _ _ Hget). simpl.
  unfold handle_shipment, bind, get_shipments, request. simpl.
  destruct Hfate as [-> | ->]; simpl.
  all: unfold ship, bind, get_order, request; simpl.
  all: unfold Orders.get_order, Orders.get; rewrite lookup_insert_eq; simpl.
  all: rewrite Hpaid; simpl.
  all: unfold get_customers, request; simpl.
  all: unfold utcnow, post_shipment, request; simpl.
  all: split; [| reflexivity].
  all: unfold in_transit_shipment; simpl.
  all: destruct (String.eqb (isoformat now) ""); reflexivity.
Qed.

Lemma unreadable_shipment_list_adds_a_shipment_witness :
  let w :=
    world_with_shipment paid_order "IN_TRANSIT" [NoFault; ServerError] in
  let run := update_order_status 1 (status_change "SHIPPED") admin w in
  Shipments.order_id <$> Shipments.rows (shipments_db run.2) = [1; 1].
Proof.
  destruct (unreadable_shipment_list_adds_a_shipment
              (world_with_shipment paid_order "IN_TRANSIT"
                 [NoFault; ServerError]) 1 paid_order admin ServerError)
    as [Hrows _];
    [reflexivity | left; reflexivity | reflexivity | reflexivity
    | reflexivity |].
  cbv zeta. rewrite Hrows. reflexivity.
Defined.

End StatusChangeTheorems.

(** ** The health monitor: a negative jitter setting *)

Section NegativeJitter.
Import Health HealthFacts.
Open Scope Q_scope.

Variables (fl : Float64) (cfg : Config) (env : Env) (now : Q).

Lemma not_in_window_at_zero (state : ServiceState) :
  next_check_at state = 0 → 0 <= now → in_backoff_window now state = false.
Proof.
  intros Hzero Hnow. unfold in_backoff_window. rewrite Hzero.
  destruct (now ?= 0) eqn:Hcmp; try reflexivity.
  apply Qlt_alt in Hcmp. lra.
Qed.

(** A call that meets a service outside its window raises. *)
Lemma check_services_raises (entries : list (string * string))
    (metrics : gmap string Report) (mon : Monitor) (service url : string) :
  (BACKOFF_JITTER_MS cfg < 0)%Z →
  (service, url) ∈ entries →
  in_backoff_window now (setdefault cfg service mon) = false →
  (check_services fl cfg env now entries metrics mon).1 = None.
Proof.
  intros Hjitter. revert metrics mon.
  induction entries as [| [other url'] rest IH]; intros metrics mon Hin Hdue.
  { apply elem_of_nil in Hin. contradiction. }
  simpl.
  destruct (in_backoff_window now (setdefault cfg other mon)) eqn:Hother.
  - assert (other ≠ service) as Hne by (intros ->; congruence).
    apply elem_of_cons in Hin as [[= ? ?] | Hin]; [congruence |].
    apply IH; [exact Hin |].
    unfold setdefault in *. simpl.
    rewrite lookup_insert_ne by exact Hne. exact Hdue.
  - rewrite (probe_service_raises fl cfg) by exact Hjitter. reflexivity.
Qed.

(** X23.  With a negative DASHBOARD_BACKOFF_JITTER_MS every probe ends in
    the [ValueError] of [random.randint]: no status is recorded and no check
    scheduled, only the backoff is raised, once by a handler and once more
    after an answer.  A call of [fetch_metrics] that meets a service of
    [SERVICES] outside its window raises; in a process this is every call
    made at a time that is not negative, so no report is ever returned. *)
Theorem negative_jitter_breaks_every_probe
    (SERVICES : list (string * string)) (mon : Monitor)
    (service url : string) :
  (BACKOFF_JITTER_MS cfg < 0)%Z →
  (service, url) ∈ SERVICES →
  let result := fetch_metrics fl cfg SERVICES env now mon in
  (∀ probe seed state,
     probe_service fl cfg now probe seed state
     = ValueError
         (set_backoff_sec
            (backoff_after_ValueError fl cfg probe (backoff_sec state))
            state))
  ∧ (in_backoff_window now (setdefault cfg service mon) = false →
     result.1 = None)
  ∧ (reachable_monitor fl cfg SERVICES mon → 0 <= now →
     result.1 = None
     ∧ ∀ other state, SERVICE_STATE result.2 !! other = Some state →
                      never_recorded state).
Proof.
  intros Hjitter Hin result. subst result. unfold fetch_metrics.
  split; [intros; apply probe_service_raises, Hjitter |].
  split; [intros Hdue; eapply check_services_raises; eassumption |].
  intros Hreach Hnow.
  pose proof (reachable_monitor_never_scheduled fl cfg SERVICES mon Hjitter
                Hreach) as Hnever.
  split.
  - eapply check_services_raises; [exact Hjitter | exact Hin |].
    apply not_in_window_at_zero; [| exact Hnow].
    apply setdefault_never_scheduled, Hnever.
  - clear Hin Hnever Hnow.
    assert (∀ mon', reachable_monitor fl cfg SERVICES mon' →
              ∀ other state, SERVICE_STATE mon' !! other = Some state →
                             never_recorded state) as Hall.
    { clear mon Hreach. intros mon' Hreach.
      induction Hreach as [| env' now' mon' Hreach IH].
      - intros other state Hlookup. simpl in Hlookup.
        apply elem_of_list_to_map_2, list_elem_of_fmap in Hlookup
          as (entry & Hentry & _).
        injection Hentry as _ ->. repeat split.
      - unfold fetch_metrics. generalize (∅ : gmap string Report).
        revert IH. generalize mon'. clear mon' Hreach.
        induction SERVICES as [| [s u] rest IHrest];
          intros mon' IH metrics; [exact IH |].
        simpl.
        assert (never_recorded (setdefault cfg s mon')) as Hdefault.
        { unfold setdefault.
          destruct (SERVICE_STATE mon' !! s) as [st |] eqn:Hst;
            [exact (IH _ _ Hst) | repeat split]. }
        assert (∀ st sent, never_recorded st →
                  ∀ other state,
                    SERVICE_STATE
                      {| SERVICE_STATE := <[s := st]> (SERVICE_STATE mon');
                         probes := sent |} !! other = Some state →
                    never_recorded state) as Hinsert.
        { intros st sent Hst other state Hlookup. simpl in Hlookup.
          destruct (decide (s = other)) as [-> | Hne].
          - rewrite lookup_insert_eq in Hlookup. congruence.
          - rewrite lookup_insert_ne in Hlookup by exact Hne.
            exact (IH _ _ Hlookup). }
        destruct (in_backoff_window now' _).
        + apply IHrest, Hinsert, Hdefault.
        + rewrite (probe_service_raises fl cfg) by exact Hjitter.
          apply Hinsert. destruct Hdefault as (? & ? & ? & ? & ?).
          repeat split; assumption. }
    apply Hall. apply reachable_monitor_call, Hreach.
Qed.

(** X24.  Every state a service goes through under a jitter setting that
    is not negative is the initial one, with no status, or carries one of
    three statuses: healthy, with the backoff at the poll interval and a
    response time; unhealthy, with a response time; error, with neither
    response time nor version.  Under a negative jitter setting it never
    carries a status, a response time, a version or a scheduled check. *)
Theorem tracked_state_records_a_known_status (state : ServiceState) :
  reachable fl cfg state →
  ((0 ≤ BACKOFF_JITTER_MS cfg)%Z → recorded cfg state)
  ∧ ((BACKOFF_JITTER_MS cfg < 0)%Z → never_recorded state).
Proof.
  intros Hreach. split; intros Hjitter.
  - destruct Hreach as [| now' probe seed state Hreach]; [reflexivity |].
    destruct (jitter_is_drawn fl cfg seed Hjitter) as [drawn Hdrawn].
    unfold recorded.
    destruct probe as [code ms body | | |]; simpl; rewrite Hdrawn; simpl.
    + destruct (Z.eqb code 200), body as [v r | |]; simpl;
        first [ left; repeat split; eexists; reflexivity
              | right; left; repeat split; eexists; reflexivity ].
    + right. right. repeat split.
    + right. right. repeat split.
    + right. right. repeat split.
  - induction Hreach as [| now' probe seed state Hreach IH];
      [repeat split |].
    rewrite (probe_service_raises fl cfg) by exact Hjitter. simpl.
    destruct IH as (? & ? & ? & ? & ?). repeat split; assumption.
Qed.

End NegativeJitter.

(** ** The health monitor: one call of [fetch_metrics] *)

Section FetchMetrics.
Import Health HealthFacts.

Variables (fl : Float64) (cfg : Config) (env : Env) (now : Q).

(** What a call that returns has reported and recorded. *)
Lemma check_services_reported (entries : list (string * string))
    (metrics : gmap string Report) (mon : Monitor) (service : string) :
  let result := check_services fl cfg env now entries metrics mon in
  ∀ metrics', result.1 = Some metrics' →
    (is_Some (metrics' !! service)
     ↔ service ∈ entries.*1 ∨ is_Some (metrics !! service))
    ∧ (is_Some (SERVICE_STATE result.2 !! service)
       ↔ service ∈ entries.*1 ∨ is_Some (SERVICE_STATE mon !! service)).
Proof.
  revert metrics mon.
  induction entries as [| [other url] rest IH]; intros metrics mon; simpl.
  - intros metrics' [= <-].
    split; (split; [auto | intros [H | H]; [inversion H | exact H]]).
  - destruct (in_backoff_window now _);
      [| destruct (probe_service _ _ _ _ _ _) as [state' report | state']];
      [| | discriminate].
    all: intros metrics' Hresult.
    all: destruct (IH _ _ _ Hresult) as [H1 H2]; simpl in *.
    all: rewrite H1, H2, !lookup_insert_is_Some, !elem_of_cons.
    all: destruct (decide (other = service)) as [-> | Hne];
      [tauto | intuition congruence].
Qed.

(** The probes of a call go to services of the loop. *)
Lemma check_services_probes (entries : list (string * string))
    (metrics : gmap string Report) (mon : Monitor) :
  ∃ sent_now,
    probes (check_services fl cfg env now entries metrics mon).2
    = (probes mon ++ sent_now)%list
    ∧ (∀ s, s ∈ sent_now → s ∈ entries.*1).
Proof.
  revert metrics mon.
  induction entries as [| [other url] rest IH]; intros metrics mon; simpl.
  - exists []. rewrite app_nil_r. split; [reflexivity |].
    intros s Hs. inversion Hs.
  - destruct (in_backoff_window now _);
      [| destruct (probe_service _ _ _ _ _ _) as [state' report | state']].
    + destruct (IH (<[other := reuse (setdefault cfg other mon)]> metrics)
                  {| SERVICE_STATE :=
                       <[other := setdefault cfg other mon]>
                         (SERVICE_STATE mon);
                     probes := probes mon |}) as (l & Hl & Hin).
      exists l. split; [exact Hl |].
      intros s Hs. right. apply Hin, Hs.
    + destruct (IH (<[other := report]> metrics)
                  {| SERVICE_STATE := <[other := state']> (SERVICE_STATE mon);
                     probes := probes mon ++ [other] |}) as (l & Hl & Hin).
      exists (other :: l). split.
      * rewrite Hl. simpl. rewrite <- app_assoc. reflexivity.
      * intros s Hs. apply elem_of_cons in Hs as [-> | Hs];
          [left | right; apply Hin, Hs].
    + exists [other]. split; [reflexivity |].
      intros s Hs. apply list_elem_of_singleton in Hs as ->. left.
Qed.

(** X25.  A call of [fetch_metrics] that returns reports the services of
    [SERVICES], each of them and no other, and keeps a state for each of them;
    with a jitter setting that is not negative every call returns.  Returning
    or not, a call leaves the state of every service that is not in [SERVICES]
    as it was and probes none but services of [SERVICES]. *)
Theorem fetch_metrics_reports_the_configured_services
    (SERVICES : list (string * string)) (mon : Monitor) (service : string) :
  let result := fetch_metrics fl cfg SERVICES env now mon in
  (∀ metrics, result.1 = Some metrics →
     (is_Some (metrics !! service) ↔ service ∈ SERVICES.*1)
     ∧ (service ∈ SERVICES.*1 → is_Some (SERVICE_STATE result.2 !! service)))
  ∧ ((0 ≤ BACKOFF_JITTER_MS cfg)%Z → is_Some result.1)
  ∧ ((service ∉ SERVICES.*1) →
     SERVICE_STATE result.2 !! service = SERVICE_STATE mon !! service)
  ∧ ∃ sent_now,
      probes result.2 = (probes mon ++ sent_now)%list
      ∧ ∀ s, s ∈ sent_now → s ∈ SERVICES.*1.
Proof.
  intros result. subst result. unfold fetch_metrics.
  split; [| split; [| split]].
  - intros metrics Hresult.
    destruct (check_services_reported SERVICES ∅ mon service metrics Hresult)
      as [Hmetrics Hstate].
    split.
    + rewrite Hmetrics, lookup_empty. split; [| auto].
      intros [H | H]; [exact H | destruct H; discriminate].
    + intros Hin. apply Hstate. left. exact Hin.
  - apply check_services_returns.
  - intros Hnot.
    exact (proj1 (check_services_other fl cfg env now service SERVICES ∅ mon
                    Hnot)).
  - apply check_services_probes.
Qed.

Lemma probed_once_skip (service : string) (mon mon' : Monitor)
    (states : gmap string ServiceState) :
  probed_once service {| SERVICE_STATE := states; probes := probes mon |}
    mon' →
  probed_once service mon mon'.
Proof. intros H. exact H. Qed.

Lemma probed_once_later (service other : string) (mon mon' : Monitor)
    (states : gmap string ServiceState) :
  other ≠ service →
  probed_once service
    {| SERVICE_STATE := states; probes := probes mon ++ [other] |} mon' →
  probed_once service mon mon'.
Proof.
  intros Hne (before & after & Hprobes & Hbefore & Hafter). simpl in *.
  exists (other :: before), after. split; [| split; [| exact Hafter]].
  - rewrite Hprobes, <- !app_assoc. reflexivity.
  - intros Hin. apply elem_of_cons in Hin as [-> | Hin];
      [exact (Hne eq_refl) | exact (Hbefore Hin)].
Qed.

(** The loop over entries that hold this service, outside its window. *)
Lemma check_services_outside_window (entries : list (string * string))
    (metrics : gmap string Report) (mon : Monitor) (service url : string)
    (state' : ServiceState) (report : Report) :
  (0 ≤ BACKOFF_JITTER_MS cfg)%Z →
  NoDup entries.*1 → (service, url) ∈ entries →
  let state := setdefault cfg service mon in
  in_backoff_window now state = false →
  probe_service fl cfg now (health_of env url) (seed_of env service) state
  = Checked state' report →
  let result := check_services fl cfg env now entries metrics mon in
  (∃ metrics', result.1 = Some metrics' ∧ metrics' !! service = Some report)
  ∧ SERVICE_STATE result.2 !! service = Some state'
  ∧ probed_once service mon result.2.
Proof.
  intros Hjitter. revert metrics mon.
  induction entries as [| [other url'] rest IH];
    intros metrics mon Hnodup Hin state Hwindow Hprobe.
  { apply elem_of_nil in Hin. contradiction. }
  simpl in Hnodup. apply NoDup_cons in Hnodup as [Hfresh Hnodup].
  destruct (decide (other = service)) as [-> | Hne].
  - assert (url' = url) as ->.
    { apply elem_of_cons in Hin as [[= ?] | Hin]; [congruence |].
      exfalso. apply Hfresh. apply list_elem_of_fmap.
      exists (service, url). split; [reflexivity | exact Hin]. }
    simpl. fold state. rewrite Hwindow, Hprobe.
    destruct (check_services_other fl cfg env now service rest
                (<[service := report]> metrics)
                {| SERVICE_STATE := <[service := state']> (SERVICE_STATE mon);
                   probes := probes mon ++ [service] |} Hfresh)
      as (Hstate & (l & Hl & Hnotin) & Hm).
    simpl in *. rewrite lookup_insert_eq in Hstate.
    split; [| split; [exact Hstate |]].
    + destruct (check_services_returns fl cfg env now rest
                  (<[service := report]> metrics)
                  {| SERVICE_STATE :=
                       <[service := state']> (SERVICE_STATE mon);
                     probes := probes mon ++ [service] |} Hjitter)
        as [metrics' Hresult].
      exists metrics'. split; [exact Hresult |].
      rewrite (Hm _ Hresult). apply lookup_insert_eq.
    + exists [], l. split; [| split; [apply not_elem_of_nil | exact Hnotin]].
      rewrite Hl, <- app_assoc. reflexivity.
  - apply elem_of_cons in Hin as [[= ? ?] | Hin]; [congruence |].
    assert (∀ st sent,
              setdefault cfg service
                {| SERVICE_STATE := <[other := st]> (SERVICE_STATE mon);
                   probes := sent |} = state) as Hsame.
    { intros st sent. unfold setdefault. simpl.
      rewrite lookup_insert_ne by exact Hne. reflexivity. }
    simpl.
    destruct (in_backoff_window now (setdefault cfg other mon)).
    + destruct (IH (<[other := reuse (setdefault cfg other mon)]> metrics)
                  {| SERVICE_STATE :=
                       <[other := setdefault cfg other mon]>
                         (SERVICE_STATE mon);
                     probes := probes mon |} Hnodup Hin)
        as (Hm & Hstate & Hprobes);
        [rewrite Hsame; exact Hwindow | rewrite Hsame; exact Hprobe |].
      split; [exact Hm | split; [exact Hstate |]].
      eapply probed_once_skip, Hprobes.
    + destruct (probe_service_checked fl cfg now (health_of env url')
                  (seed_of env other) (setdefault cfg other mon) Hjitter)
        as (st & rp & ->).
      destruct (IH (<[other := rp]> metrics)
                  {| SERVICE_STATE := <[other := st]> (SERVICE_STATE mon);
                     probes := probes mon ++ [other] |} Hnodup Hin)
        as (Hm & Hstate & Hprobes);
        [rewrite Hsame; exact Hwindow | rewrite Hsame; exact Hprobe |].
      split; [exact Hm | split; [exact Hstate |]].
      eapply probed_once_later; [exact Hne | exact Hprobes].
Qed.

(** X26.  With a jitter setting that is not negative, a service of
    [SERVICES] that is consulted at a time [now] not before its
    [next_check_at] is probed exactly once in the call; the call returns, the
    report of the service is the outcome of that probe, and the state recorded
    is the one the probe leaves, computed from the state the service had
    before the call. *)
Theorem outside_backoff_window_service_is_probed_once
    (SERVICES : list (string * string)) (mon : Monitor)
    (service url : string) :
  (0 ≤ BACKOFF_JITTER_MS cfg)%Z →
  NoDup SERVICES.*1 →
  (service, url) ∈ SERVICES →
  let state := setdefault cfg service mon in
  (next_check_at state <= now)%Q →
  let result := fetch_metrics fl cfg SERVICES env now mon in
  ∃ state' report metrics,
    probe_service fl cfg now (health_of env url) (seed_of env service) state
    = Checked state' report
    ∧ result.1 = Some metrics
    ∧ metrics !! service = Some report
    ∧ SERVICE_STATE result.2 !! service = Some state'
    ∧ probed_once service mon result.2.
Proof.
  intros Hjitter Hnodup Hin state Hnow result. subst result.
  unfold fetch_metrics.
  assert (Hwindow : in_backoff_window now state = false).
  { unfold in_backoff_window.
    destruct (now ?= next_check_at state)%Q eqn:Hcmp; try reflexivity.
    apply Qlt_alt in Hcmp. exfalso. apply (Qlt_not_le _ _ Hcmp), Hnow. }
  destruct (probe_service_checked fl cfg now (health_of env url)
              (seed_of env service) state Hjitter)
    as (state' & report & Hprobe).
  destruct (check_services_outside_window SERVICES ∅ mon service url state'
              report Hjitter Hnodup Hin Hwindow Hprobe)
    as ((metrics & Hresult & Hreport) & Hstate & Hprobes).
  exists state', report, metrics. repeat split; assumption.
Qed.

End FetchMetrics.

Section FetchMetricsWitnesses.
Import Health HealthFacts Scenarios.
Open Scope Q_scope.

Lemma negative_jitter_breaks_every_probe_witness :
  let mon := initial_monitor negative_jitter two_services in
  let result :=
    fetch_metrics exact negative_jitter two_services all_up 1 mon in
  result.1 = None
  ∧ backoff_sec
      (state_after
         (probe_service exact negative_jitter 1 (Responded 200 12 NotJson) 0
                        (initial_state negative_jitter)))
    == 4.
Proof.
  destruct (negative_jitter_breaks_every_probe exact negative_jitter all_up 1
              two_services (initial_monitor negative_jitter two_services)
              "orders" "http://orders:8000")
    as (Hprobe & Hraises & _).
  - simpl. lia.
  - left.
  - split; [apply Hraises; reflexivity |].
    rewrite Hprobe. reflexivity.
Defined.

Lemma tracked_state_records_a_known_status_witness :
  recorded default_config
    (state_after
       (probe_service exact default_config 0 (Responded 200 12 NotJson) 0
                      (initial_state default_config))).
Proof.
  apply (tracked_state_records_a_known_status exact default_config).
  - apply reachable_probe, reachable_initial.
  - simpl. lia.
Defined.

Lemma outside_backoff_window_service_is_probed_once_witness :
  let mon := initial_monitor default_config two_services in
  let result :=
    fetch_metrics exact default_config two_services all_down 5 mon in
  (status <$> (result.1 ≫= (.!! "orders"))) = Some "error"
  ∧ probed_once "orders" mon result.2.
Proof.
  destruct (outside_backoff_window_service_is_probed_once exact
              default_config all_down 5 two_services
              (initial_monitor default_config two_services) "orders"
              "http://orders:8000")
    as (state' & report & metrics & Hprobe & Hresult & Hreport & _ & Hprobes).
  - simpl. lia.
  - simpl. apply NoDup_cons. split; [| apply NoDup_singleton].
    intros Hin. apply list_elem_of_singleton in Hin. discriminate.
  - left.
  - vm_compute. discriminate.
  - cbv zeta. rewrite Hresult. simpl. rewrite Hreport.
    split; [| exact Hprobes].
    injection Hprobe as _ <-. reflexivity.
Defined.

End FetchMetricsWitnesses.

(** ** The gateway: what the cache keeps *)

Section CacheFrame.
Import Gateway.

Lemma purge_other (p key : string) (m : gmap string string) :
  String.prefix p key = false → purge p m !! key = m !! key.
Proof.
  intros Hp. unfold purge. destruct (m !! key) as [v |] eqn:Hm.
  - apply map_lookup_filter_Some. split; [exact Hm | exact Hp].
  - apply map_lookup_filter_None. left. exact Hm.
Qed.

Lemma delete_prefix_other (key p : string) (c : Cache) :
  String.prefix p key = false →
  cache_get key (delete_prefix c p) = cache_get key c.
Proof.
  intros Hp. unfold cache_get, delete_prefix. simpl.
  destruct (redis_client c) as [r |]; [| apply purge_other, Hp].
  destruct (reachable r) eqn:Hr; simpl.
  - rewrite !(purge_other p key) by exact Hp. reflexivity.
  - rewrite Hr. apply purge_other, Hp.
Qed.

Lemma prefix_shorter (p s k : string) :
  String.prefix (p +:+ s) k = true → String.prefix p k = true.
Proof.
  revert k. induction p as [| a p IH]; intros k.
  - intros _. destruct k; reflexivity.
  - rewrite append_cons. destruct k as [| b k]; [discriminate |]. simpl.
    destruct (Ascii.ascii_dec a b); [apply IH | discriminate].
Qed.

Lemma prefix_longer_false (p s k : string) :
  String.prefix p k = false → String.prefix (p +:+ s) k = false.
Proof.
  intros Hp. destruct (String.prefix (p +:+ s) k) eqn:H; [| reflexivity].
  apply prefix_shorter in H. congruence.
Qed.

(** Two strings that part at some position: a key that starts with one does
    not start with the other. *)
Lemma diverging_prefix (a b k : string) :
  String.prefix a b = false → String.prefix b a = false →
  String.prefix b k = true → String.prefix a k = false.
Proof.
  revert b k. induction a as [| c a IH]; intros b k Hab Hba Hbk.
  - destruct b; discriminate.
  - destruct b as [| d b]; [discriminate |].
    destruct k as [| e k]; [discriminate |].
    simpl in *.
    destruct (Ascii.ascii_dec d e) as [-> |]; [| discriminate].
    destruct (Ascii.ascii_dec c e) as [-> |]; [| reflexivity].
    destruct (Ascii.ascii_dec e e); [| congruence].
    eapply IH; eassumption.
Qed.

Lemma _invalidate_caches_other (service base key : string)
    (entity_id : option N) (c : Cache) :
  String.prefix (list_prefix service base) key = false →
  String.prefix (gql_prefix service) key = false →
  cache_get key (_invalidate_caches service base entity_id c)
  = cache_get key c.
Proof.
  intros Hlist Hgql. unfold _invalidate_caches, cache_delete_pattern.
  destruct entity_id as [entity_id |]; simpl.
  - rewrite !delete_prefix_other; auto.
    unfold detail_prefix.
    replace ("rest:GET:" +:+ base +:+ "/" +:+ service +:+ "/"
             +:+ pretty entity_id)
      with (list_prefix service base +:+ pretty entity_id)
      by (unfold list_prefix; rewrite !append_assoc; reflexivity).
    apply prefix_longer_false, Hlist.
  - rewrite !delete_prefix_other; auto.
Qed.

Lemma purge_subsumed (p s : string) (m : gmap string string) :
  purge p (purge (p +:+ s) m) = purge p m.
Proof.
  apply map_eq. intros k. destruct (String.prefix p k) eqn:Hp.
  - rewrite !purge_prefix by exact Hp. reflexivity.
  - rewrite !(purge_other p) by exact Hp.
    apply purge_other, prefix_longer_false, Hp.
Qed.

Lemma delete_prefix_subsumed (p s : string) (c : Cache) :
  delete_prefix (delete_prefix c (p +:+ s)) p = delete_prefix c p.
Proof.
  destruct c as [[[redis up] |] local]; [destruct up |];
    unfold delete_prefix; simpl; rewrite ?purge_subsumed; reflexivity.
Qed.

Lemma cache_get_set_eq (key value : string) (c : Cache) :
  cache_get key (cache_set key value c) = Some value.
Proof.
  destruct c as [[[redis up] |] local]; [destruct up |];
    unfold cache_get, cache_set; simpl; rewrite lookup_insert_eq;
    reflexivity.
Qed.

Lemma service_map_cases (service base : string) :
  SERVICE_MAP !! service = Some base →
  (service, base) ∈ [("customers", "http://customers:8000");
                     ("products", "http://products:8000");
                     ("inventory", "http://inventory:8000");
                     ("orders", "http://orders:8000");
                     ("payments", "http://payments:8000");
                     ("shipments", "http://shipments:8000")].
Proof. intros H. apply elem_of_list_to_map_2 in H. exact H. Qed.

(** The keys of one service of [SERVICE_MAP] start neither with the list
    prefix nor with the GraphQL prefix of another. *)
Lemma other_service_keys (service base other base' : string) :
  SERVICE_MAP !! service = Some base →
  SERVICE_MAP !! other = Some base' →
  other ≠ service →
  ∀ key,
    String.prefix (list_prefix other base') key = true
    ∨ String.prefix (gql_prefix other) key = true →
    String.prefix (list_prefix service base) key = false
    ∧ String.prefix (gql_prefix service) key = false.
Proof.
  intros Hs Ho Hne key Hkey.
  apply service_map_cases in Hs. apply service_map_cases in Ho.
  repeat (apply elem_of_cons in Hs as [Hs | Hs]);
    try (apply elem_of_nil in Hs; contradiction);
    injection Hs as -> ->;
    repeat (apply elem_of_cons in Ho as [Ho | Ho]);
    try (apply elem_of_nil in Ho; contradiction);
    injection Ho as -> ->;
    try congruence;
    (destruct Hkey as [Hkey | Hkey];
     (split; (eapply diverging_prefix; [| | exact Hkey]);
      vm_compute; reflexivity)).
Qed.

End CacheFrame.

Section CacheTheorems.
Import Gateway Scenarios.

(** X27.  A value written with [cache_set] is what [cache_get] returns for
    that key right after (before the entry expires), with or without the
    shared tier.  A value written
    while the shared tier does not answer goes to the local tier only: once
    the shared tier answers again, a value it holds under the key is returned
    instead of the one written. *)
Theorem cache_set_then_cache_get (key value : string) (c : Cache) :
  cache_get key (cache_set key value c) = Some value
  ∧ cache_get key (redis_recovers (cache_set key value (redis_goes_down c)))
    = match redis_client c with
      | Some r =>
          match store r !! key with
          | Some old => Some old
          | None => Some value
          end
      | None => Some value
      end.
Proof.
  split; [apply cache_get_set_eq |].
  destruct c as [[[redis up] |] local];
    unfold cache_get, cache_set, redis_recovers, redis_goes_down; simpl.
  - destruct (redis !! key); [reflexivity | apply lookup_insert_eq].
  - apply lookup_insert_eq.
Qed.

(** X28.  A GET that misses the cache and is answered with a JSON body
    returns that body and stores it, whatever the status of the answer other
    than 204, an error status included.  Unless the body is [null], the same
    GET is then served from the cache, until the entry expires, whatever the
    downstream service would answer.  A body [null] is stored too, but it is
    read back as a miss: the same GET goes to the downstream service again. *)
Theorem json_answer_of_a_get_is_cached (service base path query : string)
    (resp : DownstreamResponse) (data : string)
    (later : option DownstreamResponse) (c : Cache) :
  SERVICE_MAP !! service = Some base →
  cache_get (rest_cache_key (_build_downstream_url base service path) query) c
  = None →
  status_code resp ≠ 204%Z →
  String.prefix "application/json" (content_type resp) = true →
  json resp = Some data →
  let request := {| method := "GET"; query_params := query |} in
  let first := proxy service path request (Some resp) c in
  first.1 = Data data
  ∧ cache_get (rest_cache_key (_build_downstream_url base service path) query)
              first.2 = Some data
  ∧ (data ≠ "null" →
     proxy service path request later first.2 = (Cached data, first.2))
  ∧ (data = "null" →
     (proxy service path request later first.2).1
     = match later with
       | None => Failed 500 "Internal Server Error"
       | Some answer => (proxy service path request later c).1
       end).
Proof.
  intros Hbase Hmiss Hcode Htype Hjson request first.
  set (key := rest_cache_key (_build_downstream_url base service path) query)
    in *.
  assert (first = (Data data, cache_set key data c)) as Hfirst.
  { subst first request. unfold proxy. rewrite Hbase. simpl. fold key.
    rewrite Hmiss. simpl.
    destruct (Z.eqb_spec (status_code resp) 204) as [H | _]; [tauto |].
    rewrite Htype, Hjson. reflexivity. }
  rewrite Hfirst. simpl.
  split; [reflexivity |]. split; [apply cache_get_set_eq |]. split.
  - intros Hdata. subst request. unfold proxy. rewrite Hbase. simpl.
    fold key. rewrite cache_get_set_eq. simpl.
    destruct (String.eqb_spec data "null") as [H | _]; [tauto | reflexivity].
  - intros ->. subst request. unfold proxy. rewrite Hbase. simpl.
    fold key. rewrite cache_get_set_eq, Hmiss. simpl.
    destruct later as [answer |]; [| reflexivity].
    destruct (Z.eqb (status_code answer) 204); [reflexivity |].
    destruct (String.prefix "application/json" (content_type answer));
      [| reflexivity].
    destruct (json answer); reflexivity.
Qed.

Lemma json_answer_of_a_get_is_cached_witness :
  let first :=
    proxy "orders" "" get_request (Some (json_answer 500 "{}")) cold_cache in
  first.1 = Data "{}"
  ∧ (proxy "orders" "" get_request (Some (json_answer 200 "[]")) first.2).1
    = Cached "{}".
Proof.
  destruct (json_answer_of_a_get_is_cached "orders" "http://orders:8000" ""
              "" (json_answer 500 "{}") "{}"
              (Some (json_answer 200 "[]")) cold_cache)
    as (Hfirst & _ & Hnext & _);
    [reflexivity | reflexivity | discriminate | reflexivity | reflexivity |].
  cbv zeta. split; [exact Hfirst |].
  unfold get_request. rewrite Hnext by discriminate. reflexivity.
Defined.

(** X29.  The entity id that [proxy] reads off the path makes no
    difference to the invalidation: with it or without it the cache is left
    the same, every detail view of the service being dropped with the list
    view. *)
Theorem entity_id_does_not_narrow_the_invalidation (service base : string)
    (entity_id : N) (c : Cache) :
  _invalidate_caches service base (Some entity_id) c
  = _invalidate_caches service base None c.
Proof.
  unfold _invalidate_caches, cache_delete_pattern. simpl.
  f_equal. unfold detail_prefix.
  replace ("rest:GET:" +:+ base +:+ "/" +:+ service +:+ "/"
           +:+ pretty entity_id)
    with (list_prefix service base +:+ pretty entity_id)
    by (unfold list_prefix; rewrite !append_assoc; reflexivity).
  apply delete_prefix_subsumed.
Qed.

(** X30.  A mutating request to one service of [SERVICE_MAP], whatever it is
    answered, removes none of the cached REST and GraphQL views of the other
    services of [SERVICE_MAP]: what [cache_get] returns for their keys is as
    before. *)
Theorem mutation_keeps_the_views_of_other_services
    (service base other base' path : string) (request : Request)
    (resp : DownstreamResponse) (c : Cache) :
  SERVICE_MAP !! service = Some base →
  SERVICE_MAP !! other = Some base' →
  other ≠ service →
  is_mutating (method request) = true →
  let c' := (proxy service path request (Some resp) c).2 in
  ∀ any_path query args,
    cache_get
      (rest_cache_key (_build_downstream_url base' other any_path) query) c'
    = cache_get
        (rest_cache_key (_build_downstream_url base' other any_path) query) c
    ∧ cache_get (_gql_build_cache_key other args) c'
      = cache_get (_gql_build_cache_key other args) c.
Proof.
  intros Hs Ho Hne Hmut c' any_path query args. subst c'.
  rewrite (proxy_mutating_cache service base path request resp c Hs Hmut).
  destruct (status_code resp <? 400)%Z; [| split; reflexivity].
  pose proof (other_service_keys service base other base' Hs Ho Hne)
    as Hkeys.
  split.
  - destruct (Hkeys (rest_cache_key
                       (_build_downstream_url base' other any_path) query))
      as [Hlist Hgql];
      [left; apply rest_key_has_list_prefix |].
    apply _invalidate_caches_other; assumption.
  - destruct (Hkeys (_gql_build_cache_key other args)) as [Hlist Hgql];
      [right; apply gql_key_has_gql_prefix |].
    apply _invalidate_caches_other; assumption.
Qed.

Lemma mutation_keeps_the_views_of_other_services_witness :
  cache_get "rest:GET:http://customers:8000/customers/:"
    (proxy "orders" "5" put_request (Some (json_answer 200 "{}"))
           warm_cache).2
  = Some "[]".
Proof.
  destruct (mutation_keeps_the_views_of_other_services "orders"
              "http://orders:8000" "customers" "http://customers:8000" "5"
              put_request (json_answer 200 "{}") warm_cache)
    with (any_path := "") (query := "") (args := "")
    as [Hrest _];
    [reflexivity | reflexivity | discriminate | reflexivity |].
  exact Hrest.
Defined.

End CacheTheorems.
